(** * ai-proxy: the Express proxy of [server.js], its telemetry store and
      its reporting routes

    The development embeds [server.js] shallowly.

    - Text (request targets, header values, agent tags, messages, JSON
      literals) is a [string] that holds its UTF-8 octets; in ASCII text one
      [ascii] is one character.
    - The request body is a [Buffer]: a list of octets ([list Z], each in
      [0, 256)).  The string that [buf.toString('utf8')] makes of it is a
      list of UTF-16 code units ([list Z]), as JavaScript has it.
    - Numbers are integers ([Z]) where the program only has integers (byte
      counts, timestamps, status codes), and exact rationals with NaN and
      the infinities where it converts a query parameter.
    - The SQLite table [stats] is a list of rows in insertion order together
      with the AUTOINCREMENT sequence; a grouped result is a finite map
      keyed by the grouping column.
    - The asynchronous part of [proxyHandler] (the callbacks registered on
      the upstream request and on the response tee) is a transition
      function over the events that Node delivers to those callbacks.
    - The Express application is the list of its layers in registration
      order, run by a model of Express's router.
    - The second program of the file (the configurable proxy, from line
      316) works on parsed JSON: its values are dynamically typed, its
      strings are lists of UTF-16 code units, and an exception thrown in
      its [try] block is a result of its own.
    - Logging is left out throughout. *)

From stdpp Require Import base strings list sorting gmap.
From Stdlib Require Import ZArith Lia QArith.
From Stdlib Require Import Ascii DecimalString DecimalPos DecimalZ.

#[local] Open Scope Z_scope.

(** ** JavaScript string primitives *)

Module JS.

Definition ascii_code (c : ascii) : Z := Z.of_nat (nat_of_ascii c).

(** [String.prototype.toLowerCase], on the characters U+0041..U+005A.  A
    character outside ASCII is left as it is: the only ones whose
    lower-case form contains an ASCII letter are U+212A (to [k]) and
    U+0130 (to [i] and a combining dot), and no agent tag contains either
    letter. *)
Definition lower_char (c : ascii) : ascii :=
  let n := ascii_code c in
  if (65 <=? n) && (n <=? 90) then ascii_of_nat (Z.to_nat (n + 32)) else c.

Fixpoint toLowerCase (s : string) : string :=
  match s with
  | EmptyString => EmptyString
  | String c s' => String (lower_char c) (toLowerCase s')
  end.

(** [s.indexOf(c)] for a one-character needle; [None] stands for -1. *)
Fixpoint indexOf (c : ascii) (s : string) : option nat :=
  match s with
  | EmptyString => None
  | String d s' =>
      if Ascii.eqb c d then Some O
      else match indexOf c s' with Some i => Some (S i) | None => None end
  end.

(** [s.slice(i)] for [0 <= i]. *)
Fixpoint slice (i : nat) (s : string) : string :=
  match i, s with
  | O, _ => s
  | S i', String _ s' => slice i' s'
  | S _, EmptyString => EmptyString
  end.

(** The part of [s] before index [i]. *)
Fixpoint take (i : nat) (s : string) : string :=
  match i, s with
  | S i', String c s' => String c (take i' s')
  | _, _ => EmptyString
  end.

(** Truthiness of a string: non-empty. *)
Definition truthy (s : string) : bool :=
  match s with EmptyString => false | _ => true end.

(** [a || b] on strings. *)
Definition or_else (a b : string) : string := if truthy a then a else b.

(** [arr.join(sep)] *)
Fixpoint join (sep : string) (l : list string) : string :=
  match l with
  | [] => ""
  | [x] => x
  | x :: l' => x +:+ sep +:+ join sep l'
  end.

End JS.

(** ** [URLSearchParams]: the application/x-www-form-urlencoded parser *)

Module Url.

(** Split at every occurrence of [sep]. *)
Fixpoint split (sep : ascii) (s : string) : list string :=
  match s with
  | EmptyString => [EmptyString]
  | String c s' =>
      if Ascii.eqb c sep then EmptyString :: split sep s'
      else match split sep s' with
           | [] => [String c EmptyString]
           | w :: ws => String c w :: ws
           end
  end.

Definition hex_digit (c : ascii) : option Z :=
  let n := JS.ascii_code c in
  if (48 <=? n) && (n <=? 57) then Some (n - 48)
  else if (65 <=? n) && (n <=? 70) then Some (n - 55)
  else if (97 <=? n) && (n <=? 102) then Some (n - 87)
  else None.

(** Percent-decoding: [%XY] with two hexadecimal digits is one octet, any
    other character stands for itself. *)
Fixpoint percent_decode (s : string) : string :=
  match s with
  | EmptyString => EmptyString
  | String c s' =>
      let keep := String c (percent_decode s') in
      if Ascii.eqb c "%" then
        match s' with
        | String h (String l rest) =>
            match hex_digit h, hex_digit l with
            | Some x, Some y =>
                String (ascii_of_nat (Z.to_nat (16 * x + y))) (percent_decode rest)
            | _, _ => keep
            end
        | _ => keep
        end
      else keep
  end.

Fixpoint plus_to_space (s : string) : string :=
  match s with
  | EmptyString => EmptyString
  | String c s' =>
      String (if Ascii.eqb c "+" then " "%char else c) (plus_to_space s')
  end.

(** One [name=value] sequence: split at the first [=]; a sequence without
    [=] is a name with the empty value. *)
Definition parse_pair (seq : string) : string * string :=
  let '(n, v) :=
    match JS.indexOf "=" seq with
    | Some i => (JS.take i seq, JS.slice (S i) seq)
    | None => (seq, "")
    end in
  (percent_decode (plus_to_space n), percent_decode (plus_to_space v)).

(** [new URLSearchParams(init)]: one leading [?] is dropped, the rest is
    split at [&], empty sequences are skipped.  The octets that
    percent-decoding yields are kept as they are; the UTF-8 decoding that
    follows in the platform maps ASCII octets to themselves and every
    other octet to a character outside ASCII, so that comparisons with
    ASCII names are the same on both. *)
Definition URLSearchParams (init : string) : list (string * string) :=
  let q := match init with
           | String c rest => if Ascii.eqb c "?" then rest else init
           | EmptyString => init
           end in
  map parse_pair (filter (fun s => JS.truthy s = true) (split "&" q)).

(** [params.get(name)]: the value of the first pair of that name. *)
Fixpoint get (name : string) (ps : list (string * string)) : option string :=
  match ps with
  | [] => None
  | (n, v) :: ps' => if String.eqb n name then Some v else get name ps'
  end.

End Url.

(** ** The request classifier (the first part of [proxyHandler]) *)

Module Classifier.

(** [req.originalUrl || req.url] *)
Definition urlStr (originalUrl url : string) : string :=
  JS.or_else originalUrl url.

Definition is_tag (a : string) : bool :=
  String.eqb a "coder" || String.eqb a "tester" || String.eqb a "manager".

(** Lines 168-177 of [server.js]. *)
Definition classify (urlStr : string) : string :=
  match JS.indexOf "?" urlStr with
  | Some qIndex =>
      let params := Url.URLSearchParams (JS.slice qIndex urlStr) in
      let a := JS.toLowerCase
                 (JS.or_else (default "" (Url.get "agent" params)) "") in
      if is_tag a then JS.or_else a "manager" else "manager"
  | None => "manager"
  end.

End Classifier.


(** ** JavaScript numbers

    A number is NaN, an infinity, or a finite value, kept as an exact
    rational.  The doubles of the program agree with the rationals on the
    integers below 2^53, which is where every timestamp, byte count and
    whole number of minutes lies. *)

Module Num.

Inductive number :=
| NaN
| PosInf
| NegInf
| Fin (q : Q).

(** White space that [StringToNumber] strips (the ASCII part of it). *)
Definition is_space (c : ascii) : bool :=
  let n := JS.ascii_code c in
  ((9 <=? n) && (n <=? 13)) || (n =? 32).

Fixpoint trim_left (s : string) : string :=
  match s with
  | String c s' => if is_space c then trim_left s' else s
  | EmptyString => EmptyString
  end.

Definition trim (s : string) : string :=
  String.rev (trim_left (String.rev (trim_left s))).

Definition digit_val (radix : Z) (c : ascii) : option Z :=
  match Url.hex_digit c with
  | Some d => if d <? radix then Some d else None
  | None => None
  end.

(** The longest prefix of digits of [s]: its value on top of [acc], the
    number of digits read on top of [n], and the rest of [s]. *)
Fixpoint read_digits (radix : Z) (s : string) (acc : Z) (n : nat)
  : Z * nat * string :=
  match s with
  | String c s' =>
      match digit_val radix c with
      | Some d => read_digits radix s' (acc * radix + d) (S n)
      | None => (acc, n, s)
      end
  | EmptyString => (acc, n, s)
  end.

Definition pow10 (e : Z) : Q := Qpower (10 # 1) e.

(** [ExponentPart]: [e] or [E], an optional sign, at least one digit; the
    literal ends there. *)
Definition exponent (s : string) : option Z :=
  match s with
  | EmptyString => Some 0
  | String c r =>
      if Ascii.eqb c "e" || Ascii.eqb c "E" then
        let '(neg, r') :=
          match r with
          | String sg r1 =>
              if Ascii.eqb sg "-" then (true, r1)
              else if Ascii.eqb sg "+" then (false, r1)
              else (false, r)
          | EmptyString => (false, r)
          end in
        match read_digits 10 r' 0 0 with
        | (_, O, _) => None
        | (ev, _, EmptyString) => Some (if neg then - ev else ev)
        | _ => None
        end
      else None
  end.

(** [StrUnsignedDecimalLiteral] *)
Definition unsigned_decimal (s : string) : option number :=
  if String.eqb s "Infinity" then Some PosInf else
  let '(ip, n1, r1) := read_digits 10 s 0 0 in
  let '(fp, n2, r2) :=
    match r1 with
    | String c r => if Ascii.eqb c "." then read_digits 10 r 0 0 else (0, O, r1)
    | EmptyString => (0, O, r1)
    end in
  match (n1 + n2)%nat with
  | O => None
  | _ =>
      match exponent r2 with
      | Some e =>
          let scale := 10 ^ Z.of_nat n2 in
          Some (Fin (Qmult (Qmake (ip * scale + fp) (Z.to_pos scale)) (pow10 e)))
      | None => None
      end
  end.

Definition negate (x : number) : number :=
  match x with
  | NaN => NaN
  | PosInf => NegInf
  | NegInf => PosInf
  | Fin q => Fin (Qopp q)
  end.

(** [0x], [0o] and [0b] literals: no sign, at least one digit. *)
Definition non_decimal (s : string) : option number :=
  match s with
  | String z (String p r) =>
      if Ascii.eqb z "0" then
        let radix :=
          if Ascii.eqb p "x" || Ascii.eqb p "X" then Some 16
          else if Ascii.eqb p "o" || Ascii.eqb p "O" then Some 8
          else if Ascii.eqb p "b" || Ascii.eqb p "B" then Some 2
          else None in
        match radix with
        | Some rx =>
            match read_digits rx r 0 0 with
            | (_, O, _) => None
            | (v, _, EmptyString) => Some (Fin (inject_Z v))
            | _ => None
            end
        | None => None
        end
      else None
  | _ => None
  end.

(** [Number(s)] for a string [s]. *)
Definition of_string (s : string) : number :=
  let t := trim s in
  match t with
  | EmptyString => Fin 0
  | String c r =>
      match non_decimal t with
      | Some v => v
      | None =>
          let signed :=
            if Ascii.eqb c "-" then option_map negate (unsigned_decimal r)
            else if Ascii.eqb c "+" then unsigned_decimal r
            else unsigned_decimal t in
          default NaN signed
      end
  end.

(** [x > 0] *)
Definition is_pos (x : number) : bool :=
  match x with
  | Fin q => negb (Qle_bool q 0)
  | PosInf => true
  | _ => false
  end.

(** Truthiness of a number: neither zero nor NaN. *)
Definition truthy (x : number) : bool :=
  match x with
  | Fin q => negb (Qeq_bool q 0)
  | NaN => false
  | _ => true
  end.

(** [now - x * 60 * 1000] for an integer [now]. *)
Definition minutes_before (now : Z) (x : number) : number :=
  match x with
  | Fin q => Fin (Qminus (inject_Z now) (Qmult (Qmult q (60 # 1)) (1000 # 1)))
  | PosInf => NegInf
  | NegInf => PosInf
  | NaN => NaN
  end.

(** The comparison [ts >= x] of SQLite between an INTEGER column and a bound
    number; a NaN is bound as NULL, and a comparison with NULL selects
    nothing. *)
Definition int_ge (ts : Z) (x : number) : bool :=
  match x with
  | Fin q => Qle_bool q (inject_Z ts)
  | NegInf => true
  | PosInf => false
  | NaN => false
  end.

(** An integer in a template literal or in [String(n)]: its decimal digits. *)
Definition Z_to_string (z : Z) : string :=
  DecimalString.NilZero.string_of_int (Z.to_int z).

End Num.

(** ** UTF-8: [buf.toString('utf8')], [Buffer.byteLength(s, 'utf8')] and
       the octets that [write(s)] sends

    A buffer is a list of octets; a JavaScript string is the list of its
    UTF-16 code units. *)

Module Utf8.

Definition REPLACEMENT : Z := 65533.

Definition between (lo hi b : Z) : bool := (lo <=? b) && (b <=? hi).

(** A continuation octet, [10xxxxxx]. *)
Definition cont (b : Z) : bool := between 128 191 b.

(** The code units of a code point: itself in the basic plane, a surrogate
    pair above it. *)
Definition units (cp : Z) : list Z :=
  if cp <? 65536 then [cp]
  else [55296 + (cp - 65536) / 1024; 56320 + (cp - 65536) mod 1024].

(** The range of the second octet after the lead octet [b0] of a three- or
    four-octet sequence (no overlong forms, no surrogates, nothing above
    U+10FFFF). *)
Definition second_lo (b0 : Z) : Z :=
  if b0 =? 224 then 160 else if b0 =? 240 then 144 else 128.

Definition second_hi (b0 : Z) : Z :=
  if b0 =? 237 then 159 else if b0 =? 244 then 143 else 191.

(** [buf.toString('utf8')]: well-formed sequences are decoded; each maximal
    ill-formed part becomes one U+FFFD, and decoding goes on with the octet
    that ended it.  A byte order mark is kept. *)
Fixpoint decode (bs : list Z) : list Z :=
  match bs with
  | [] => []
  | b0 :: r0 =>
      if between 0 127 b0 then b0 :: decode r0
      else if between 194 223 b0 then
        match r0 with
        | b1 :: r1 =>
            if cont b1 then ((b0 - 192) * 64 + (b1 - 128)) :: decode r1
            else REPLACEMENT :: decode r0
        | [] => [REPLACEMENT]
        end
      else if between 224 239 b0 then
        match r0 with
        | b1 :: r1 =>
            if between (second_lo b0) (second_hi b0) b1 then
              match r1 with
              | b2 :: r2 =>
                  if cont b2 then
                    ((b0 - 224) * 4096 + (b1 - 128) * 64 + (b2 - 128)) :: decode r2
                  else REPLACEMENT :: decode r1
              | [] => [REPLACEMENT]
              end
            else REPLACEMENT :: decode r0
        | [] => [REPLACEMENT]
        end
      else if between 240 244 b0 then
        match r0 with
        | b1 :: r1 =>
            if between (second_lo b0) (second_hi b0) b1 then
              match r1 with
              | b2 :: r2 =>
                  if cont b2 then
                    match r2 with
                    | b3 :: r3 =>
                        if cont b3 then
                          units ((b0 - 240) * 262144 + (b1 - 128) * 4096
                                 + (b2 - 128) * 64 + (b3 - 128)) ++ decode r3
                        else REPLACEMENT :: decode r2
                    | [] => [REPLACEMENT]
                    end
                  else REPLACEMENT :: decode r1
              | [] => [REPLACEMENT]
              end
            else REPLACEMENT :: decode r0
        | [] => [REPLACEMENT]
        end
      else REPLACEMENT :: decode r0
  end.

(** The UTF-8 octets of one code point. *)
Definition octets (cp : Z) : list Z :=
  if cp <? 128 then [cp]
  else if cp <? 2048 then [192 + cp / 64; 128 + cp mod 64]
  else if cp <? 65536 then
    [224 + cp / 4096; 128 + (cp / 64) mod 64; 128 + cp mod 64]
  else
    [240 + cp / 262144; 128 + (cp / 4096) mod 64;
     128 + (cp / 64) mod 64; 128 + cp mod 64].

(** The octets of a string in UTF-8: a surrogate pair is one code point, a
    surrogate on its own is written as U+FFFD. *)
Fixpoint encode (us : list Z) : list Z :=
  match us with
  | [] => []
  | u :: r =>
      if between 55296 56319 u then
        match r with
        | v :: r' =>
            if between 56320 57343 v then
              octets (65536 + (u - 55296) * 1024 + (v - 56320)) ++ encode r'
            else octets REPLACEMENT ++ encode r
        | [] => octets REPLACEMENT
        end
      else if between 56320 57343 u then octets REPLACEMENT ++ encode r
      else octets u ++ encode r
  end.

(** [Buffer.byteLength(s, 'utf8')] *)
Definition byteLength (s : list Z) : Z := Z.of_nat (length (encode s)).

(** Well-formed UTF-8, as a check on the octets alone. *)
Fixpoint well_formed (bs : list Z) : bool :=
  match bs with
  | [] => true
  | b0 :: r0 =>
      if between 0 127 b0 then well_formed r0
      else if between 194 223 b0 then
        match r0 with
        | b1 :: r1 => cont b1 && well_formed r1
        | _ => false
        end
      else if between 224 239 b0 then
        match r0 with
        | b1 :: b2 :: r2 =>
            between (second_lo b0) (second_hi b0) b1 && cont b2 && well_formed r2
        | _ => false
        end
      else if between 240 244 b0 then
        match r0 with
        | b1 :: b2 :: b3 :: r3 =>
            between (second_lo b0) (second_hi b0) b1 && cont b2 && cont b3
            && well_formed r3
        | _ => false
        end
      else false
  end.

End Utf8.

(** ** The telemetry store: the table [stats] and its prepared statements *)

Module Store.

(** The columns that [insertStat] binds, under the names of its parameters. *)
Record Stat := mkStat {
  ts : Z;
  agent : string;
  in_bytes : Z;
  est_tokens : Z;
  out_bytes : Z;
  upstream_status : Z;
  duration_ms : Z
}.

(** A row of [stats]: the AUTOINCREMENT key and the bound columns. *)
Record Row := mkRow { id : Z; stat : Stat }.

(** The database: the rows in insertion order, the largest key that the
    table ever held ([sqlite_sequence]), and whether the next statement
    fails (disk full, file locked by another process). *)
Record DB := mkDB {
  table : list Row;
  sequence : Z;
  failing : bool
}.

Definition empty : DB := {| table := []; sequence := 0; failing := false |}.

Definition max_id (rows : list Row) : Z :=
  foldr (fun r m => Z.max (id r) m) 0 rows.

(** The key of the next row: one more than every key that has existed. *)
Definition next_id (db : DB) : Z :=
  Z.max (sequence db) (max_id (table db)) + 1.

(** [insertStat.run(params)]: [None] when the statement throws. *)
Definition insertStat_run (db : DB) (p : Stat) : option DB :=
  if failing db then None
  else
    let i := next_id db in
    Some {| table := table db ++ [{| id := i; stat := p |}];
            sequence := i;
            failing := false |}.

(** [WHERE ts >= ?] *)
Definition since_ok (since : Num.number) (r : Row) : bool :=
  Num.int_ge (ts (stat r)) since.

(** [WHERE agent = ?], the BINARY collation of a TEXT column. *)
Definition agent_ok (a : string) (r : Row) : bool :=
  String.eqb (agent (stat r)) a.

Definition id_le (r1 r2 : Row) : Prop := id r1 <= id r2.

#[global] Instance id_le_dec (r1 r2 : Row) : Decision (id_le r1 r2).
Proof. unfold id_le. apply _. Defined.

(** [ORDER BY id ASC] *)
Definition order_by_id (rows : list Row) : list Row :=
  merge_sort id_le rows.

Definition selectAllRows (db : DB) : list Row :=
  order_by_id (table db).

Definition selectRowsSince (db : DB) (since : Num.number) : list Row :=
  order_by_id (List.filter (since_ok since) (table db)).

Definition selectRowsByAgentAll (db : DB) (a : string) : list Row :=
  order_by_id (List.filter (agent_ok a) (table db)).

Definition selectRowsByAgentSince (db : DB) (since : Num.number) (a : string)
  : list Row :=
  order_by_id
    (List.filter (fun r => since_ok since r && agent_ok a r) (table db)).

(** The running aggregates of one group. *)
Record Acc := mkAcc {
  acc_requests : Z;
  acc_in : Z;
  acc_out : Z;
  acc_ms : Z
}.

Definition acc0 : Acc :=
  {| acc_requests := 0; acc_in := 0; acc_out := 0; acc_ms := 0 |}.

Definition acc_add (a : Acc) (r : Row) : Acc :=
  {| acc_requests := acc_requests a + 1;
     acc_in := acc_in a + in_bytes (stat r);
     acc_out := acc_out a + out_bytes (stat r);
     acc_ms := acc_ms a + duration_ms (stat r) |}.

(** One row of a summary: [COUNT( * )], [SUM(in_bytes)], [SUM(out_bytes)],
    [AVG(duration_ms)]. *)
Record Summary := mkSummary {
  requests : Z;
  sum_in : Z;
  sum_out : Z;
  avg_ms : Q
}.

Definition finish (a : Acc) : Summary :=
  {| requests := acc_requests a;
     sum_in := acc_in a;
     sum_out := acc_out a;
     avg_ms := Qdiv (inject_Z (acc_ms a)) (inject_Z (acc_requests a)) |}.

(** One step of [GROUP BY agent]: the row joins the group of its agent. *)
Definition group_step (m : gmap string Acc) (r : Row) : gmap string Acc :=
  <[agent (stat r) := acc_add (default acc0 (m !! agent (stat r))) r]> m.

(** [SELECT agent, COUNT( * ), SUM(..), SUM(..), AVG(..) ... GROUP BY agent]
    over the selected rows; the result set is keyed by agent, since SQL
    leaves the order of the groups open. *)
Definition group_by_agent (rows : list Row) : gmap string Summary :=
  finish <$> foldl group_step ∅ rows.

Definition selectSummaryAll (db : DB) : gmap string Summary :=
  group_by_agent (table db).

Definition selectSummarySince (db : DB) (since : Num.number)
  : gmap string Summary :=
  group_by_agent (List.filter (since_ok since) (table db)).

Definition selectSummaryByAgentAll (db : DB) (a : string)
  : gmap string Summary :=
  group_by_agent (List.filter (agent_ok a) (table db)).

Definition selectSummaryByAgentSince (db : DB) (since : Num.number)
  (a : string) : gmap string Summary :=
  group_by_agent
    (List.filter (fun r => since_ok since r && agent_ok a r) (table db)).

End Store.

(** ** HTTP responses as Express builds them, and [JSON.stringify] *)

Module Http.

Definition chr (n : nat) : string := String (ascii_of_nat n) EmptyString.

(** The double quote and the backslash. *)
Definition dq : string := chr 34.
Definition bs : string := chr 92.

Definition hex_char (d : Z) : string :=
  chr (Z.to_nat (if d <? 10 then 48 + d else 87 + d)).

(** The form of one character inside a JSON string literal. *)
Definition json_escape_char (c : ascii) : string :=
  let n := JS.ascii_code c in
  if n =? 34 then bs +:+ dq
  else if n =? 92 then bs +:+ bs
  else if n =? 8 then bs +:+ "b"
  else if n =? 9 then bs +:+ "t"
  else if n =? 10 then bs +:+ "n"
  else if n =? 12 then bs +:+ "f"
  else if n =? 13 then bs +:+ "r"
  else if n <? 32 then bs +:+ "u00" +:+ hex_char (n / 16) +:+ hex_char (n mod 16)
  else String c EmptyString.

Fixpoint json_escape (s : string) : string :=
  match s with
  | EmptyString => EmptyString
  | String c s' => json_escape_char c +:+ json_escape s'
  end.

Definition json_quote (s : string) : string := dq +:+ json_escape s +:+ dq.

(** The values of the flat objects that the program serialises. *)
Inductive JVal :=
| JNull
| JNum (z : Z)
| JStr (s : string).

Definition stringify_val (v : JVal) : string :=
  match v with
  | JNull => "null"
  | JNum z => Num.Z_to_string z
  | JStr s => json_quote s
  end.

(** [JSON.stringify] of an object of such values, keys in insertion
    order. *)
Definition stringify (fields : list (string * JVal)) : string :=
  "{" +:+ JS.join ","
            (map (fun kv => json_quote (fst kv) +:+ ":" +:+ stringify_val (snd kv))
                 fields)
      +:+ "}".

(** Reading a JSON string literal after its opening quote: the text up to
    the closing quote, with the escapes undone, and what follows the
    quote.  (A reader for the objects above; the program itself only
    writes them.)  A [\u] escape is read when it names one octet. *)
Fixpoint json_unescape (s : string) : option (string * string) :=
  match s with
  | EmptyString => None
  | String c s' =>
      let n := JS.ascii_code c in
      if n =? 34 then Some (EmptyString, s')
      else if n =? 92 then
        match s' with
        | String e s'' =>
            let k := JS.ascii_code e in
            let literal (x : nat) :=
              match json_unescape s'' with
              | Some (t, r) => Some (String (ascii_of_nat x) t, r)
              | None => None
              end in
            if k =? 34 then literal 34%nat
            else if k =? 92 then literal 92%nat
            else if k =? 47 then literal 47%nat
            else if k =? 98 then literal 8%nat
            else if k =? 116 then literal 9%nat
            else if k =? 110 then literal 10%nat
            else if k =? 102 then literal 12%nat
            else if k =? 114 then literal 13%nat
            else if k =? 117 then
              match s'' with
              | String h3 (String h2 (String h1 (String h0 s4))) =>
                  match Url.hex_digit h3, Url.hex_digit h2,
                        Url.hex_digit h1, Url.hex_digit h0 with
                  | Some 0, Some 0, Some x, Some y =>
                      match json_unescape s4 with
                      | Some (t, r) =>
                          Some (String (ascii_of_nat (Z.to_nat (16 * x + y))) t, r)
                      | None => None
                      end
                  | _, _, _, _ => None
                  end
              | _ => None
              end
            else None
        | EmptyString => None
        end
      else if n <? 32 then None
      else
        match json_unescape s' with
        | Some (t, r) => Some (String c t, r)
        | None => None
        end
  end.

(** A string literal at the head of [s]. *)
Definition json_string (s : string) : option (string * string) :=
  match s with
  | String c s' => if JS.ascii_code c =? 34 then json_unescape s' else None
  | EmptyString => None
  end.

Definition json_expect (c : ascii) (s : string) : option string :=
  match s with
  | String d s' => if Ascii.eqb c d then Some s' else None
  | EmptyString => None
  end.

(** An object of two members whose values are strings. *)
Definition parse_two_strings (s : string)
  : option ((string * string) * (string * string)) :=
  match json_expect "{" s with
  | Some s1 =>
      match json_string s1 with
      | Some (k1, s2) =>
          match json_expect ":" s2 with
          | Some s3 =>
              match json_string s3 with
              | Some (v1, s4) =>
                  match json_expect "," s4 with
                  | Some s5 =>
                      match json_string s5 with
                      | Some (k2, s6) =>
                          match json_expect ":" s6 with
                          | Some s7 =>
                              match json_string s7 with
                              | Some (v2, s8) =>
                                  if String.eqb s8 "}"
                                  then Some ((k1, v1), (k2, v2))
                                  else None
                              | None => None
                              end
                          | None => None
                          end
                      | None => None
                      end
                  | None => None
                  end
              | None => None
              end
          | None => None
          end
      | None => None
      end
  | None => None
  end.

(** What a response carries. *)
Inductive Body :=
| NoBody
| Json (fields : list (string * JVal))
| StatsReply (periodMinutes : option Num.number) (agent : option string)
             (summary : gmap string Store.Summary)
| Text (s : string)
| Relay (chunks : list (list Z))
| Document (doc : string).

(** The response object [res]. *)
Record Res := mkRes {
  statusCode : Z;
  headers : list (string * string);
  headersSent : bool;
  body : Body;
  ended : bool
}.

Definition fresh : Res :=
  {| statusCode := 200; headers := []; headersSent := false;
     body := NoBody; ended := false |}.

(** Header names are compared without regard to case. *)
Definition same_name (a b : string) : bool :=
  String.eqb (JS.toLowerCase a) (JS.toLowerCase b).

Fixpoint header (name : string) (hs : list (string * string)) : option string :=
  match hs with
  | [] => None
  | (k, v) :: hs' => if same_name k name then Some v else header name hs'
  end.

Definition put_header (k v : string) (hs : list (string * string))
  : list (string * string) :=
  List.filter (fun kv => negb (same_name (fst kv) k)) hs ++ [(k, v)].

(** [res.setHeader(k, v)]: throws ([None]) once the headers are sent. *)
Definition setHeader (k v : string) (r : Res) : option Res :=
  if headersSent r then None
  else Some {| statusCode := statusCode r; headers := put_header k v (headers r);
               headersSent := false; body := body r; ended := ended r |}.

(** [res.status(n)] only records the code. *)
Definition status (n : Z) (r : Res) : Res :=
  {| statusCode := n; headers := headers r; headersSent := headersSent r;
     body := body r; ended := ended r |}.

(** [res.type('application/json')]: Express completes the type with its
    charset. *)
Definition type_json (r : Res) : option Res :=
  setHeader "Content-Type" "application/json; charset=utf-8" r.

(** [res.end(b)] *)
Definition end_with (b : Body) (r : Res) : Res :=
  {| statusCode := statusCode r; headers := headers r; headersSent := true;
     body := b; ended := true |}.

(** [res.json(obj)]: the content type is set (which throws once the headers
    are sent), then the serialised object ends the response.  The
    [Content-Length] and [ETag] headers that Express adds are left out. *)
Definition send_json (b : Body) (r : Res) : option Res :=
  match type_json r with
  | Some r' => Some (end_with b r')
  | None => None
  end.

Definition json (fields : list (string * JVal)) (r : Res) : option Res :=
  send_json (Json fields) r.

(** [res.writeHead(code, hs)]: throws once the headers are sent. *)
Definition writeHead (code : Z) (hs : list (string * string)) (r : Res)
  : option Res :=
  if headersSent r then None
  else Some {| statusCode := code;
               headers := fold_left (fun acc kv => put_header (fst kv) (snd kv) acc)
                                    hs (headers r);
               headersSent := true; body := body r; ended := false |}.

(** One chunk piped into the response. *)
Definition relay (chunk : list Z) (r : Res) : Res :=
  {| statusCode := statusCode r; headers := headers r; headersSent := true;
     body := match body r with
             | Relay cs => Relay (cs ++ [chunk])
             | _ => Relay [chunk]
             end;
     ended := ended r |}.

(** [res.write(s)] for a string. *)
Definition write (s : string) (r : Res) : Res :=
  {| statusCode := statusCode r; headers := headers r; headersSent := true;
     body := match body r with
             | Text t => Text (t +:+ s)
             | _ => Text s
             end;
     ended := ended r |}.

(** [res.end()] *)
Definition finish (r : Res) : Res :=
  {| statusCode := statusCode r; headers := headers r; headersSent := true;
     body := body r; ended := true |}.

End Http.

(** ** Requests, configuration and the stats subsystem *)

Module Server.

(** What [express.json] makes of the payload.  The decisions of the body
    parser itself (content type, size limit, charset, JSON syntax) are taken
    as given:
    - [Skipped wire]: the parser leaves the request alone, because it has
      no body ([wire] is empty) or because its content type is not
      [application/json]; the [verify] hook is not called and the octets
      [wire] that the client sent stay unread;
    - [Rejected]: the parser passes an error on;
    - [Accepted buf]: the parser read [buf], called [verify] on it and
      parsed it. *)
Inductive Payload :=
| Skipped (wire : list Z)
| Rejected
| Accepted (buf : list Z).

(** A value of [req.query]: a string, or an array for a repeated name. *)
Inductive QVal :=
| QStr (s : string)
| QArr (l : list string).

Record Query := mkQuery {
  periodMinutes : option QVal;
  q_agent : option QVal
}.

Record Req := mkReq {
  method : string;
  originalUrl : string;
  url : string;
  headers : list (string * string);
  payload : Payload;
  query : Query;
  id : string;
  rawBody : option (list Z)
}.

Record Config := mkConfig {
  PORT : Z;
  OPENROUTER_API_KEY : string;
  UPSTREAM_TIMEOUT_MS : Z;
  CLIENT_TIMEOUT_MS : Z;
  openapiSpec : option string;
  swaggerUi : bool
}.

(** The stats subsystem after start-up: the database handle, if it was
    opened, and how many of the nine statements were prepared, in the order
    of the source, before initialisation stopped (nine when it
    completed). *)
Record Stats := mkStats {
  db : option Store.DB;
  prepared : nat
}.

Definition disabled : Stats := {| db := None; prepared := O |}.
Definition ready (d : Store.DB) : Stats := {| db := Some d; prepared := 9 |}.

(** Whether the [k]-th statement of the source is defined. *)
Definition has_stmt (k : nat) (s : Stats) : bool := Nat.leb k (prepared s).

Definition insertStat (s : Stats) : bool := has_stmt 1 s.
Definition selectSummaryAll (s : Stats) : bool := has_stmt 2 s.
Definition selectSummarySince (s : Stats) : bool := has_stmt 3 s.
Definition selectSummaryByAgentAll (s : Stats) : bool := has_stmt 4 s.
Definition selectSummaryByAgentSince (s : Stats) : bool := has_stmt 5 s.
Definition selectAllRows (s : Stats) : bool := has_stmt 6 s.
Definition selectRowsSince (s : Stats) : bool := has_stmt 7 s.
Definition selectRowsByAgentAll (s : Stats) : bool := has_stmt 8 s.
Definition selectRowsByAgentSince (s : Stats) : bool := has_stmt 9 s.

(** [req.rawBody = b] *)
Definition set_rawBody (b : list Z) (req : Req) : Req :=
  {| method := method req; originalUrl := originalUrl req; url := url req;
     headers := headers req; payload := payload req; query := query req;
     id := id req; rawBody := Some b |}.

(** The [verify] hook of [express.json]:
    [req.rawBody = buf && buf.length ? buf.toString('utf8') : ''] *)
Definition verify (buf : list Z) : list Z :=
  match buf with
  | [] => []
  | _ => Utf8.decode buf
  end.

End Server.

(** ** [proxyHandler] *)

Module Proxy.

Import Server.

(** [x || d] for a header value. *)
Definition header_or (name : string) (hs : list (string * string)) (d : string)
  : string :=
  JS.or_else (default "" (Http.header name hs)) d.

(** The [options] of the upstream request. *)
Record Options := mkOptions {
  hostname : string;
  port : Z;
  path : string;
  o_method : string;
  o_headers : list (string * string)
}.

Definition options (cfg : Config) (req : Req) : Options :=
  {| hostname := "openrouter.ai";
     port := 443;
     path := "/api/v1/chat/completions";
     o_method := "POST";
     o_headers :=
       [("Content-Type", header_or "content-type" (headers req) "application/json");
        ("Accept", header_or "accept" (headers req) "*/*");
        ("Authorization", "Bearer " +:+ OPENROUTER_API_KEY cfg);
        ("HTTP-Referer",
          JS.or_else (default "" (Http.header "http-referer" (headers req)))
                     (header_or "referer" (headers req) ""));
        ("X-Title", header_or "x-title" (headers req) "Express Proxy");
        ("X-Request-Id", id req)] |}.

(** The upstream request: what was written to it, whether it was ended, and
    the error it was destroyed with. *)
Record Upstream := mkUpstream {
  opts : Options;
  written : list (list Z);
  finished : bool;
  destroyed : option string
}.

(** Where the exchange with the upstream stands:
    - [Waiting]: the request is sent, no response yet;
    - [Streaming st n]: the response arrived with status [st]; [n] octets
      have passed the tee;
    - [Completed]: the tee has ended;
    - [Failed]: the request emitted its error. *)
Inductive Phase :=
| Waiting
| Streaming (status : option Z) (outBytes : Z)
| Completed
| Failed.

(** One request in flight: the response to the caller, the upstream
    request, the stats subsystem, an exception that escaped a callback, and
    the locals of [proxyHandler] that its callbacks close over. *)
Record State := mkState {
  res : Http.Res;
  upstream : Upstream;
  phase : Phase;
  stats : Stats;
  uncaught : option string;
  agent : string;
  inBytes : Z;
  estTokens : Z;
  startUpstream : Z
}.

(** [typeof req.rawBody === 'string' ? req.rawBody : ''] *)
Definition body_of (req : Req) : list Z := default [] (rawBody req).

(** [Math.floor(n / 4)] *)
Definition floor_div4 (n : Z) : Z := n / 4.

(** The synchronous part of [proxyHandler]: the locals, the upstream request
    with the body written to it, and [upstreamReq.end()].  [now] is the
    reading of the clock for [startUpstream]. *)
Definition proxyHandler (cfg : Config) (st : Stats) (now : Z) (req : Req)
  (res0 : Http.Res) : State :=
  let body := body_of req in
  let inBytes := Utf8.byteLength body in
  let estTokens := floor_div4 inBytes in
  let agent := Classifier.classify (Classifier.urlStr (originalUrl req) (url req)) in
  {| res := res0;
     upstream := {| opts := options cfg req;
                    written := match body with
                               | [] => []
                               | _ => [Utf8.encode body]
                               end;
                    finished := true;
                    destroyed := None |};
     phase := Waiting;
     stats := st;
     uncaught := None;
     agent := agent;
     inBytes := inBytes;
     estTokens := estTokens;
     startUpstream := now |}.

(** What Node delivers to the callbacks of one request. *)
Inductive Event :=
| UpstreamResponse (statusCode : option Z) (hs : list (string * string))
| UpstreamData (chunk : list Z)
| UpstreamEnd (now_ms now_ts : Z)
| UpstreamTimeout
| UpstreamError (message : string)
| ClientTimeout.

(** [code || d] for a status code that may be missing. *)
Definition code_or (code : option Z) (d : Z) : Z :=
  match code with
  | Some c => if c =? 0 then d else c
  | None => d
  end.

Definition set_res (r : Http.Res) (s : State) : State :=
  {| res := r; upstream := upstream s; phase := phase s; stats := stats s;
     uncaught := uncaught s; agent := agent s; inBytes := inBytes s;
     estTokens := estTokens s; startUpstream := startUpstream s |}.

Definition set_phase (p : Phase) (s : State) : State :=
  {| res := res s; upstream := upstream s; phase := p; stats := stats s;
     uncaught := uncaught s; agent := agent s; inBytes := inBytes s;
     estTokens := estTokens s; startUpstream := startUpstream s |}.

Definition set_stats (t : Stats) (s : State) : State :=
  {| res := res s; upstream := upstream s; phase := phase s; stats := t;
     uncaught := uncaught s; agent := agent s; inBytes := inBytes s;
     estTokens := estTokens s; startUpstream := startUpstream s |}.

Definition throw (msg : string) (s : State) : State :=
  {| res := res s; upstream := upstream s; phase := phase s; stats := stats s;
     uncaught := Some msg; agent := agent s; inBytes := inBytes s;
     estTokens := estTokens s; startUpstream := startUpstream s |}.

Definition destroy (msg : string) (s : State) : State :=
  {| res := res s;
     upstream := {| opts := opts (upstream s); written := written (upstream s);
                    finished := finished (upstream s); destroyed := Some msg |};
     phase := phase s; stats := stats s; uncaught := uncaught s;
     agent := agent s; inBytes := inBytes s; estTokens := estTokens s;
     startUpstream := startUpstream s |}.

Definition HEADERS_SENT : string :=
  "Cannot set headers after they are sent to the client".

(** The callback of [req.setTimeout]: [res.status(408).json(...)]; the
    upstream request is left as it is. *)
Definition on_client_timeout (cfg : Config) (s : State) : State :=
  let r1 := Http.status 408 (res s) in
  match Http.json
          [("error", Http.JStr "Client timeout");
           ("detail", Http.JStr ("Idle > " +:+ Num.Z_to_string (CLIENT_TIMEOUT_MS cfg)
                                 +:+ "ms"))] r1 with
  | Some r2 => set_res r2 s
  | None => throw HEADERS_SENT (set_res r1 s)
  end.

(** The callback of [https.request]: the status and the headers of the
    upstream go to the caller, and the tee starts at zero. *)
Definition on_response (status : option Z) (hs : list (string * string))
  (s : State) : State :=
  match Http.writeHead (code_or status 502) hs (res s) with
  | Some r => set_phase (Streaming status 0) (set_res r s)
  | None => throw HEADERS_SENT s
  end.

(** The ['data'] listener of the tee, and the pipe into [res]. *)
Definition on_data (chunk : list Z) (status : option Z) (outBytes : Z)
  (s : State) : State :=
  set_phase (Streaming status (outBytes + Z.of_nat (length chunk)))
            (set_res (Http.relay chunk (res s)) s).

(** The ['end'] listener of the tee: one row is inserted if [insertStat]
    exists (a failing insert is logged and dropped), then the pipe ends
    [res]. *)
Definition on_end (now_ms now_ts : Z) (status : option Z) (outBytes : Z)
  (s : State) : State :=
  let ms := now_ms - startUpstream s in
  let s1 :=
    if insertStat (stats s) then
      match db (stats s) with
      | Some d =>
          match Store.insertStat_run d
                  {| Store.ts := now_ts;
                     Store.agent := agent s;
                     Store.in_bytes := inBytes s;
                     Store.est_tokens := estTokens s;
                     Store.out_bytes := outBytes;
                     Store.upstream_status := code_or status 0;
                     Store.duration_ms := ms |} with
          | Some d' => set_stats {| db := Some d'; prepared := prepared (stats s) |} s
          | None => s
          end
      | None => s
      end
    else s in
  set_phase Completed (set_res (Http.finish (res s1)) s1).

(** [String(err && err.message ? err.message : err)] for an [Error]. *)
Definition detail_of (message : string) : string :=
  JS.or_else message "Error".

(** The ['error'] listener of the upstream request. *)
Definition on_error (message : string) (s : State) : State :=
  let r1 := if Http.headersSent (res s) then res s else Http.status 502 (res s) in
  match Http.type_json r1 with
  | Some r2 =>
      set_phase Failed
        (set_res
           (Http.end_with
              (Http.Text (Http.stringify [("error", Http.JStr "Bad Gateway");
                                          ("detail", Http.JStr (detail_of message))]))
              r2) s)
  | None => throw HEADERS_SENT (set_phase Failed (set_res r1 s))
  end.

Definition timeout_message (cfg : Config) : string :=
  "⏳ Upstream timeout after " +:+ Num.Z_to_string (UPSTREAM_TIMEOUT_MS cfg) +:+ "ms".

(** The callback of [upstreamReq.setTimeout]: the request is destroyed with
    the timeout error, which its ['error'] listener then receives. *)
Definition on_timeout (cfg : Config) (s : State) : State :=
  on_error (timeout_message cfg) (destroy (timeout_message cfg) s).

(** One event.  After an exception has escaped, nothing more is run; an
    event for which no listener is registered in the current phase changes
    nothing. *)
Definition step (cfg : Config) (s : State) (e : Event) : State :=
  match uncaught s with
  | Some _ => s
  | None =>
      match e, phase s with
      | UpstreamResponse st hs, Waiting => on_response st hs s
      | UpstreamData chunk, Streaming st n => on_data chunk st n s
      | UpstreamEnd t1 t2, Streaming st n => on_end t1 t2 st n s
      | UpstreamTimeout, Waiting => on_timeout cfg s
      | UpstreamTimeout, Streaming _ _ => on_timeout cfg s
      | UpstreamError m, Waiting => on_error m s
      | UpstreamError m, Streaming _ _ => on_error m s
      | ClientTimeout, _ => on_client_timeout cfg s
      | _, _ => s
      end
  end.

Definition run (cfg : Config) (s : State) (trace : list Event) : State :=
  fold_left (step cfg) trace s.

(** The rows of the store of a state. *)
Definition rows_of (s : State) : list Store.Row :=
  match db (stats s) with
  | Some d => Store.table d
  | None => []
  end.

End Proxy.

(** ** Dates: [new Date(ts).toISOString()] *)

Module Date.

Definition msPerDay : Z := 86400000.

(** The largest time value of a valid [Date]. *)
Definition MAX_TIME : Z := 8640000000000000.

(** The day number (days since the epoch) on which year [y] starts. *)
Definition DayFromYear (y : Z) : Z :=
  365 * (y - 1970) + (y - 1969) / 4 - (y - 1901) / 100 + (y - 1601) / 400.

Definition InLeapYear (y : Z) : bool :=
  (y mod 4 =? 0) && (negb (y mod 100 =? 0) || (y mod 400 =? 0)).

(** The year of a day number: the average year gives it within one, and
    the two neighbours are tried. *)
Definition YearFromDay (day : Z) : Z :=
  let y0 := 1970 + (400 * day) / 146097 in
  if day <? DayFromYear y0 then y0 - 1
  else if DayFromYear (y0 + 1) <=? day then y0 + 1
  else y0.

(** The day within the year on which month [m] (from 0) starts. *)
Definition month_start (leap : bool) (m : Z) : Z :=
  let l := if leap then 1 else 0 in
  if m <=? 0 then 0
  else if m =? 1 then 31
  else if m =? 2 then 59 + l
  else if m =? 3 then 90 + l
  else if m =? 4 then 120 + l
  else if m =? 5 then 151 + l
  else if m =? 6 then 181 + l
  else if m =? 7 then 212 + l
  else if m =? 8 then 243 + l
  else if m =? 9 then 273 + l
  else if m =? 10 then 304 + l
  else if m =? 11 then 334 + l
  else 365 + l.

(** The month (from 0) of a day within the year. *)
Definition MonthFromDay (leap : bool) (d : Z) : Z :=
  if d <? month_start leap 1 then 0
  else if d <? month_start leap 2 then 1
  else if d <? month_start leap 3 then 2
  else if d <? month_start leap 4 then 3
  else if d <? month_start leap 5 then 4
  else if d <? month_start leap 6 then 5
  else if d <? month_start leap 7 then 6
  else if d <? month_start leap 8 then 7
  else if d <? month_start leap 9 then 8
  else if d <? month_start leap 10 then 9
  else if d <? month_start leap 11 then 10
  else 11.

Definition digit (d : Z) : ascii := ascii_of_nat (Z.to_nat (48 + d)).

(** The last [n] decimal digits of [v], most significant first. *)
Fixpoint pad (n : nat) (v : Z) : string :=
  match n with
  | O => EmptyString
  | S n' => String (digit ((v / 10 ^ Z.of_nat n') mod 10)) (pad n' v)
  end.

(** Four digits for the years 0 to 9999, a sign and six digits outside. *)
Definition year_string (y : Z) : string :=
  if (0 <=? y) && (y <=? 9999) then pad 4 y
  else (if y <? 0 then "-" else "+") +:+ pad 6 (Z.abs y).

(** The calendar fields of a time value. *)
Record Fields := mkFields {
  year : Z; month : Z; date : Z;
  hours : Z; minutes : Z; seconds : Z; millis : Z
}.

Definition fields_of (t : Z) : Fields :=
  let day := t / msPerDay in
  let tod := t mod msPerDay in
  let y := YearFromDay day in
  let diy := day - DayFromYear y in
  let m := MonthFromDay (InLeapYear y) diy in
  {| year := y;
     month := m + 1;
     date := diy - month_start (InLeapYear y) m + 1;
     hours := tod / 3600000;
     minutes := (tod / 60000) mod 60;
     seconds := (tod / 1000) mod 60;
     millis := tod mod 1000 |}.

Definition format (f : Fields) : string :=
  year_string (year f) +:+ "-" +:+ pad 2 (month f) +:+ "-" +:+ pad 2 (date f)
  +:+ "T" +:+ pad 2 (hours f) +:+ ":" +:+ pad 2 (minutes f) +:+ ":"
  +:+ pad 2 (seconds f) +:+ "." +:+ pad 3 (millis f) +:+ "Z".

(** [new Date(t).toISOString()]: [None] is the [RangeError] of an invalid
    date. *)
Definition toISOString (t : Z) : option string :=
  if (- MAX_TIME <=? t) && (t <=? MAX_TIME) then Some (format (fields_of t))
  else None.

End Date.

(** ** The reporting routes: [GET /stats] and [GET /stats/export] *)

Module Reporter.

Import Server.

(** A synchronous handler either answers or throws, leaving the response
    as it is at that point. *)
Inductive Result :=
| Sent (r : Http.Res)
| Threw (r : Http.Res).

(** Truthiness of [req.query.x]: a missing value and the empty string are
    falsy, an array is truthy. *)
Definition qtruthy (v : option QVal) : bool :=
  match v with
  | Some (QStr s) => JS.truthy s
  | Some (QArr _) => true
  | None => false
  end.

(** [String(v)] *)
Definition qstring (v : option QVal) : string :=
  match v with
  | Some (QStr s) => s
  | Some (QArr l) => JS.join "," l
  | None => "undefined"
  end.

(** [req.query.periodMinutes ? Number(req.query.periodMinutes) : 0] *)
Definition mins_of (q : Query) : Num.number :=
  if qtruthy (periodMinutes q) then Num.of_string (qstring (periodMinutes q))
  else Num.Fin 0.

(** [req.query.agent ? String(req.query.agent).toLowerCase() : ''] *)
Definition agent_of (q : Query) : string :=
  if qtruthy (q_agent q) then JS.toLowerCase (qstring (q_agent q)) else "".

(** [mins && mins > 0] *)
Definition windowed (mins : Num.number) : bool :=
  Num.truthy mins && Num.is_pos mins.

(** A call of a prepared statement: it throws when the statement is
    undefined or when the database fails. *)
Definition call {A : Type} (defined : bool) (st : Stats) (f : Store.DB -> A)
  : option A :=
  if defined then
    match db st with
    | Some d => if Store.failing d then None else Some (f d)
    | None => None
    end
  else None.

Definition is_some {A : Type} (o : option A) : bool :=
  match o with Some _ => true | None => false end.

(** [x || null] *)
Definition or_null_num (x : Num.number) : option Num.number :=
  if Num.truthy x then Some x else None.

Definition or_null_str (s : string) : option string :=
  if JS.truthy s then Some s else None.

(** The summary rows that [GET /stats] selects. *)
Definition summary_rows (st : Stats) (now : Z) (q : Query)
  : option (gmap string Store.Summary) :=
  let mins := mins_of q in
  let agent := agent_of q in
  if windowed mins then
    let since := Num.minutes_before now mins in
    if JS.truthy agent
    then call (selectSummaryByAgentSince st) st
              (fun d => Store.selectSummaryByAgentSince d since agent)
    else call (selectSummarySince st) st
              (fun d => Store.selectSummarySince d since)
  else
    if JS.truthy agent
    then call (selectSummaryByAgentAll st) st
              (fun d => Store.selectSummaryByAgentAll d agent)
    else call (selectSummaryAll st) st Store.selectSummaryAll.

(** The [try] block of the [/stats] handler; [None] when it throws. *)
Definition stats_try (st : Stats) (now : Z) (req : Req) (res : Http.Res)
  : option Http.Res :=
  if negb (is_some (db st)) || negb (selectSummaryAll st) then
    Http.json [("error", Http.JStr "stats persistence disabled")] res
  else
    match summary_rows st now (query req) with
    | Some rows =>
        Http.send_json
          (Http.StatsReply (or_null_num (mins_of (query req)))
                           (or_null_str (agent_of (query req))) rows) res
    | None => None
    end.

(** The handler of [GET /stats]. *)
Definition statsHandler (st : Stats) (now : Z) (req : Req) (res : Http.Res)
  : Result :=
  match stats_try st now req res with
  | Some r => Sent r
  | None =>
      match Http.json [("error", Http.JStr "stats query failed")]
                      (Http.status 500 res) with
      | Some r => Sent r
      | None => Threw (Http.status 500 res)
      end
  end.

(** The raw rows that [GET /stats/export] selects. *)
Definition export_rows (st : Stats) (now : Z) (q : Query)
  : option (list Store.Row) :=
  let mins := mins_of q in
  let agent := agent_of q in
  if windowed mins then
    let since := Num.minutes_before now mins in
    if JS.truthy agent
    then call (selectRowsByAgentSince st) st
              (fun d => Store.selectRowsByAgentSince d since agent)
    else call (selectRowsSince st) st
              (fun d => Store.selectRowsSince d since)
  else
    if JS.truthy agent
    then call (selectRowsByAgentAll st) st
              (fun d => Store.selectRowsByAgentAll d agent)
    else call (selectAllRows st) st Store.selectAllRows.

Definition nl : string := Http.chr 10.

Definition CSV_HEADER : string :=
  "id,ts_iso,agent,in_bytes,est_tokens,out_bytes,upstream_status,duration_ms"
  +:+ nl.

(** One data row, given the ISO rendering of its timestamp. *)
Definition csv_line (r : Store.Row) (tsIso : string) : string :=
  Num.Z_to_string (Store.id r) +:+ "," +:+ tsIso +:+ ","
  +:+ Store.agent (Store.stat r) +:+ ","
  +:+ Num.Z_to_string (Store.in_bytes (Store.stat r)) +:+ ","
  +:+ Num.Z_to_string (Store.est_tokens (Store.stat r)) +:+ ","
  +:+ Num.Z_to_string (Store.out_bytes (Store.stat r)) +:+ ","
  +:+ Num.Z_to_string (Store.upstream_status (Store.stat r)) +:+ ","
  +:+ Num.Z_to_string (Store.duration_ms (Store.stat r)) +:+ nl.

(** The loop over the rows: each row is written as it is formatted; the loop
    stops ([false]) at a timestamp that [toISOString] rejects. *)
Fixpoint write_rows (rows : list Store.Row) (res : Http.Res) : Http.Res * bool :=
  match rows with
  | [] => (res, true)
  | r :: rows' =>
      match Date.toISOString (Store.ts (Store.stat r)) with
      | Some iso => write_rows rows' (Http.write (csv_line r iso) res)
      | None => (res, false)
      end
  end.

(** The [try] block of the [/stats/export] handler: the response as far as
    it got, and whether the block completed.  The [Content-Disposition]
    header, whose file name is built from the filter and the clock, is left
    out. *)
Definition export_try (st : Stats) (now : Z) (req : Req) (res : Http.Res)
  : Http.Res * bool :=
  if negb (is_some (db st)) || negb (selectAllRows st) then
    match Http.json [("error", Http.JStr "stats persistence disabled")]
                    (Http.status 400 res) with
    | Some r => (r, true)
    | None => (Http.status 400 res, false)
    end
  else
    match export_rows st now (query req) with
    | Some rows =>
        match Http.setHeader "Content-Type" "text/csv; charset=utf-8" res with
        | Some r1 =>
            let '(r2, ok) := write_rows rows (Http.write CSV_HEADER r1) in
            if ok then (Http.finish r2, true) else (r2, false)
        | None => (res, false)
        end
    | None => (res, false)
    end.

(** The handler of [GET /stats/export]. *)
Definition exportHandler (st : Stats) (now : Z) (req : Req) (res : Http.Res)
  : Result :=
  match export_try st now req res with
  | (r, true) => Sent r
  | (r, false) =>
      match Http.json [("error", Http.JStr "stats export failed")]
                      (Http.status 500 r) with
      | Some r' => Sent r'
      | None => Threw (Http.status 500 r)
      end
  end.

End Reporter.

(** ** The application: its layers in registration order, and the router *)

Module App.

Import Server.

(** What the process is at when a request arrives: configuration, the stats
    subsystem, the clock, and the uptime in whole seconds. *)
Record Env := mkEnv {
  cfg : Config;
  stats : Stats;
  now : Z;
  uptime : Z
}.

(** How the handling of a request comes out:
    - [Responded]: a handler ended the response;
    - [Forwarding]: [proxyHandler] took the request and waits for events;
    - [Delegated]: a handler of a library took the request;
    - [Unhandled]: no layer was left, with or without an error pending. *)
Inductive Outcome :=
| Responded (r : Http.Res)
| Forwarding (s : Proxy.State)
| Delegated (to : string) (r : Http.Res)
| Unhandled (err : bool) (r : Http.Res).

(** What a layer does: call [next()], call [next(err)] or throw, or keep
    the request. *)
Inductive Next :=
| Continue (req : Req) (res : Http.Res)
| Fail (res : Http.Res)
| Stop (o : Outcome).

Record Layer := mkLayer {
  name : string;
  error_handler : bool;
  applies : Req -> bool;
  handle : Req -> Http.Res -> Next
}.

(** The path of a request target: the part before the query string. *)
Definition path_of (u : string) : string :=
  match JS.indexOf "?" u with
  | Some i => JS.take i u
  | None => u
  end.

(** A route path of Express with its defaults: letter case is ignored and
    one trailing slash is allowed. *)
Definition path_match (pattern p : string) : bool :=
  let p' := JS.toLowerCase p in
  String.eqb p' pattern
  || (negb (String.eqb pattern "/") && String.eqb p' (pattern +:+ "/")).

(** The prefix match of [app.use(path, ...)]. *)
Definition prefix_match (pattern p : string) : bool :=
  let p' := JS.toLowerCase p in
  String.eqb p' pattern || String.prefix (pattern +:+ "/") p'.

(** A [GET] route also serves [HEAD]. *)
Definition method_match (m : string) (req : Req) : bool :=
  String.eqb (method req) m
  || (String.eqb m "GET" && String.eqb (method req) "HEAD").

(** [app.use(fn)] *)
Definition use (name : string) (h : Req -> Http.Res -> Next) : Layer :=
  {| name := name; error_handler := false; applies := fun _ => true; handle := h |}.

(** [app.get(path, fn)] and [app.post(path, fn)] *)
Definition route (m path : string) (h : Req -> Http.Res -> Next) : Layer :=
  {| name := m +:+ " " +:+ path;
     error_handler := false;
     applies := fun req => method_match m req && path_match path (path_of (url req));
     handle := h |}.

Definition of_option (o : option Http.Res) (res : Http.Res) : Next :=
  match o with
  | Some r => Stop (Responded r)
  | None => Fail res
  end.

Definition of_result (r : Reporter.Result) : Next :=
  match r with
  | Reporter.Sent r' => Stop (Responded r')
  | Reporter.Threw r' => Fail r'
  end.

(** [express.json({ limit, verify })] *)
Definition express_json (req : Req) (res : Http.Res) : Next :=
  match payload req with
  | Skipped _ => Continue req res
  | Rejected => Fail res
  | Accepted buf => Continue (set_rawBody (verify buf) req) res
  end.

(** The middleware that echoes the request id. *)
Definition echo_request_id (req : Req) (res : Http.Res) : Next :=
  if JS.truthy (id req) then
    match Http.setHeader "X-Request-Id" (id req) res with
    | Some r => Continue req r
    | None => Fail res
    end
  else Continue req res.

Definition health (e : Env) (req : Req) (res : Http.Res) : Next :=
  of_option (Http.json [("status", Http.JStr "ok");
                        ("uptime", Http.JNum (uptime e));
                        ("port", Http.JNum (PORT (cfg e)))] res) res.

Definition openapi_json (e : Env) (req : Req) (res : Http.Res) : Next :=
  match openapiSpec (cfg e) with
  | None =>
      of_option (Http.json [("error", Http.JStr "openapi spec not available")]
                           (Http.status 503 res)) (Http.status 503 res)
  | Some doc => of_option (Http.send_json (Http.Document doc) res) res
  end.

Definition not_found (req : Req) (res : Http.Res) : Next :=
  of_option (Http.json [("error", Http.JStr "Not Found")] (Http.status 404 res))
            (Http.status 404 res).

(** The central error handler. *)
Definition error_middleware (req : Req) (res : Http.Res) : Next :=
  let r := if Http.headersSent res then res else Http.status 500 res in
  of_option (Http.json [("error", Http.JStr "Internal Server Error")] r) r.

Definition proxy (e : Env) (req : Req) (res : Http.Res) : Next :=
  Stop (Forwarding (Proxy.proxyHandler (cfg e) (stats e) (now e) req res)).

(** The layers of the application, in the order in which [server.js]
    registers them: first the three middlewares, *)
Definition middleware : list Layer :=
  [ use "express.json" express_json;
    use "pino-http" Continue;
    use "X-Request-Id" echo_request_id ].

(** the Swagger UI under [/docs], when it is installed and the document was
    loaded, *)
Definition docs_routes (e : Env) : list Layer :=
  if swaggerUi (cfg e) && Reporter.is_some (openapiSpec (cfg e))
  then [ {| name := "/docs"; error_handler := false;
            applies := fun req => prefix_match "/docs" (path_of (url req));
            handle := fun _ res => Stop (Delegated "swagger-ui" res) |} ]
  else [].

(** around it the health check, the OpenAPI document and the three proxy
    routes, *)
Definition api_routes (e : Env) : list Layer :=
  [ route "GET" "/health" (health e);
    route "GET" "/openapi.json" (openapi_json e) ]
  ++ docs_routes e
  ++ [ route "POST" "/" (proxy e);
       route "POST" "/v1/chat/completions" (proxy e);
       route "POST" "/api/v1/chat/completions" (proxy e) ].

Definition routes_before_404 (e : Env) : list Layer :=
  middleware ++ api_routes e.

(** then the explicit 404 handler and the central error handler, *)
Definition catch_all : list Layer :=
  [ use "404" not_found;
    {| name := "error"; error_handler := true; applies := fun _ => true;
       handle := error_middleware |} ].

(** and after them the two reporting routes. *)
Definition reporting_routes (e : Env) : list Layer :=
  [ route "GET" "/stats"
          (fun req res => of_result (Reporter.statsHandler (stats e) (now e) req res));
    route "GET" "/stats/export"
          (fun req res => of_result (Reporter.exportHandler (stats e) (now e) req res)) ].

Definition stack (e : Env) : list Layer :=
  routes_before_404 e ++ catch_all ++ reporting_routes e.

(** The router: the layers are tried in order.  While no error is pending
    the error handlers are passed over; while one is pending, only they are
    run. *)
Fixpoint dispatch (ls : list Layer) (err : bool) (req : Req) (res : Http.Res)
  : Outcome :=
  match ls with
  | [] => Unhandled err res
  | l :: ls' =>
      if Bool.eqb (error_handler l) err && applies l req then
        match handle l req res with
        | Continue req' res' => dispatch ls' false req' res'
        | Fail res' => dispatch ls' true req res'
        | Stop o => o
        end
      else dispatch ls' err req res
  end.

(** The application on one request. *)
Definition app (e : Env) (req : Req) : Outcome :=
  dispatch (stack e) false req Http.fresh.

End App.

(** ** Reading an export back

    The functions of this module are not part of the program: they read the
    text that [GET /stats/export] writes, to state that the export loses
    nothing.  [Date.parse] is the platform's, for the format that
    [toISOString] produces. *)

Module Csv.

Definition digit_of (c : ascii) : option Z :=
  let n := JS.ascii_code c in
  if (48 <=? n) && (n <=? 57) then Some (n - 48) else None.

(** Exactly [n] decimal digits, on top of [acc]. *)
Fixpoint read_fixed (n : nat) (s : string) (acc : Z) : option (Z * string) :=
  match n with
  | O => Some (acc, s)
  | S n' =>
      match s with
      | String c s' =>
          match digit_of c with
          | Some d => read_fixed n' s' (acc * 10 + d)
          | None => None
          end
      | EmptyString => None
      end
  end.

Definition expect (c : ascii) (s : string) : option string :=
  match s with
  | String d s' => if Ascii.eqb c d then Some s' else None
  | EmptyString => None
  end.

(** Four digits, or a sign and six digits. *)
Definition read_year (s : string) : option (Z * string) :=
  match s with
  | String c s' =>
      if Ascii.eqb c "+" then read_fixed 6 s' 0
      else if Ascii.eqb c "-" then
        match read_fixed 6 s' 0 with
        | Some (y, r) => Some (- y, r)
        | None => None
        end
      else read_fixed 4 s 0
  | EmptyString => None
  end.

Definition DaysInMonth (y m : Z) : Z :=
  Date.month_start (Date.InLeapYear y) m
  - Date.month_start (Date.InLeapYear y) (m - 1).

(** The time value of calendar fields, when they name a date. *)
Definition time_of (f : Date.Fields) : option Z :=
  if (1 <=? Date.month f) && (Date.month f <=? 12)
     && (1 <=? Date.date f) && (Date.date f <=? DaysInMonth (Date.year f) (Date.month f))
     && (Date.hours f <=? 23) && (Date.minutes f <=? 59) && (Date.seconds f <=? 59)
  then
    let day := Date.DayFromYear (Date.year f)
               + Date.month_start (Date.InLeapYear (Date.year f)) (Date.month f - 1)
               + Date.date f - 1 in
    let t := day * Date.msPerDay + Date.hours f * 3600000 + Date.minutes f * 60000
             + Date.seconds f * 1000 + Date.millis f in
    if (- Date.MAX_TIME <=? t) && (t <=? Date.MAX_TIME) then Some t else None
  else None.

(** [Date.parse(s)] for [YYYY-MM-DDTHH:mm:ss.sssZ] and its form with an
    expanded year. *)
Definition parse_iso (s : string) : option Z :=
  '(y, s) ← read_year s;
  s ← expect "-" s;
  '(mo, s) ← read_fixed 2 s 0;
  s ← expect "-" s;
  '(d, s) ← read_fixed 2 s 0;
  s ← expect "T" s;
  '(h, s) ← read_fixed 2 s 0;
  s ← expect ":" s;
  '(mi, s) ← read_fixed 2 s 0;
  s ← expect ":" s;
  '(sec, s) ← read_fixed 2 s 0;
  s ← expect "." s;
  '(ms, s) ← read_fixed 3 s 0;
  s ← expect "Z" s;
  match s with
  | EmptyString =>
      time_of {| Date.year := y; Date.month := mo; Date.date := d;
                 Date.hours := h; Date.minutes := mi; Date.seconds := sec;
                 Date.millis := ms |}
  | _ => None
  end.

(** The character [c] does not occur in [s]. *)
Fixpoint lacks (c : ascii) (s : string) : bool :=
  match s with
  | EmptyString => true
  | String d s' => negb (Ascii.eqb d c) && lacks c s'
  end.

(** A field of an export: free of commas and of line feeds. *)
Definition field (s : string) : bool :=
  lacks "," s && lacks (ascii_of_nat 10) s.

(** A decimal integer, as a template literal prints it. *)
Definition parse_int (s : string) : option Z :=
  option_map Z.of_int (NilZero.int_of_string s).

(** One data row, without its line end: eight fields between commas. *)
Definition parse_row (line : string) : option Store.Row :=
  match Url.split "," line with
  | [i; t; a; inb; est; outb; st; ms] =>
      i ← parse_int i;
      t ← parse_iso t;
      inb ← parse_int inb;
      est ← parse_int est;
      outb ← parse_int outb;
      st ← parse_int st;
      ms ← parse_int ms;
      Some {| Store.id := i;
              Store.stat := {| Store.ts := t; Store.agent := a;
                               Store.in_bytes := inb; Store.est_tokens := est;
                               Store.out_bytes := outb;
                               Store.upstream_status := st;
                               Store.duration_ms := ms |} |}
  | _ => None
  end.

Fixpoint parse_rows (lines : list string) : option (list Store.Row) :=
  match lines with
  | [] => None
  | [last] => if JS.truthy last then None else Some []
  | l :: ls =>
      r ← parse_row l;
      rs ← parse_rows ls;
      Some (r :: rs)
  end.

(** A whole export: the header row, then the data rows, each ended by a
    line feed. *)
Definition parse (text : string) : option (list Store.Row) :=
  match Url.split (ascii_of_nat 10) text with
  | h :: ls =>
      if String.eqb (h +:+ Reporter.nl) Reporter.CSV_HEADER then parse_rows ls
      else None
  | [] => None
  end.

End Csv.

(** ** Notions used to state the properties *)

Module Spec.

Import Server Proxy.

(** A request whose exchange with the upstream is over: its stream ended,
    its request failed, or an exception escaped one of its callbacks. *)
Definition settled (s : State) : Prop :=
  uncaught s <> None \/ phase s = Completed \/ phase s = Failed.

(** The number of octets in a list of chunks. *)
Definition total_length (chunks : list (list Z)) : Z :=
  foldr (fun c n => Z.of_nat (length c) + n) 0 chunks.

(** The row that the ['end'] listener of state [s] inserts into [d]. *)
Definition record_of (s : State) (d : Store.DB) (status : option Z)
  (outBytes now_ms now_ts : Z) : Store.Row :=
  {| Store.id := Store.next_id d;
     Store.stat := {| Store.ts := now_ts;
                      Store.agent := agent s;
                      Store.in_bytes := inBytes s;
                      Store.est_tokens := estTokens s;
                      Store.out_bytes := outBytes;
                      Store.upstream_status := code_or status 0;
                      Store.duration_ms := now_ms - startUpstream s |} |}.

(** The sum of one column over a list of rows. *)
Definition total (f : Store.Stat -> Z) (g : list Store.Row) : Z :=
  foldr (fun r acc => f (Store.stat r) + acc) 0 g.

(** The summary row of a group of rows: a count, two sums and an average;
    an empty group has no row. *)
Definition summary_of (g : list Store.Row) : option Store.Summary :=
  match g with
  | [] => None
  | _ =>
      Some {| Store.requests := Z.of_nat (length g);
              Store.sum_in := total Store.in_bytes g;
              Store.sum_out := total Store.out_bytes g;
              Store.avg_ms := Qdiv (inject_Z (total Store.duration_ms g))
                                   (inject_Z (Z.of_nat (length g))) |}
  end.

(** [summarize(sinceTimestamp?, agentFilter?)]: the four summary statements
    as one operation with two optional arguments. *)
Definition summarize (since : option Num.number) (agentFilter : option string)
  (d : Store.DB) : gmap string Store.Summary :=
  match since, agentFilter with
  | None, None => Store.selectSummaryAll d
  | Some t, None => Store.selectSummarySince d t
  | None, Some a => Store.selectSummaryByAgentAll d a
  | Some t, Some a => Store.selectSummaryByAgentSince d t a
  end.

(** [listRaw(sinceTimestamp?, agentFilter?)]: the four row statements. *)
Definition listRaw (since : option Num.number) (agentFilter : option string)
  (d : Store.DB) : list Store.Row :=
  match since, agentFilter with
  | None, None => Store.selectAllRows d
  | Some t, None => Store.selectRowsSince d t
  | None, Some a => Store.selectRowsByAgentAll d a
  | Some t, Some a => Store.selectRowsByAgentSince d t a
  end.

(** Whether a row passes the optional filters. *)
Definition selected (since : option Num.number) (agentFilter : option string)
  (r : Store.Row) : bool :=
  match since with Some t => Store.since_ok t r | None => true end
  && match agentFilter with Some a => Store.agent_ok a r | None => true end.

(** The time window of a reporting query: the instant [periodMinutes]
    before [now] when that is a positive number, none otherwise. *)
Definition window (now : Z) (q : Query) : option Num.number :=
  if Reporter.windowed (Reporter.mins_of q)
  then Some (Num.minutes_before now (Reporter.mins_of q))
  else None.

(** The agent filter of a reporting query. *)
Definition agent_filter (q : Query) : option string :=
  Reporter.or_null_str (Reporter.agent_of q).

(** The answer of the explicit 404 handler to a request. *)
Definition not_found_reply (req : Req) : Http.Res :=
  {| Http.statusCode := 404;
     Http.headers := (if JS.truthy (id req) then [("X-Request-Id", id req)] else [])
                     ++ [("Content-Type", "application/json; charset=utf-8")];
     Http.headersSent := true;
     Http.body := Http.Json [("error", Http.JStr "Not Found")];
     Http.ended := true |}.

(** One data row of an export without its line end. *)
Definition row_text (r : Store.Row) (tsIso : string) : string :=
  Num.Z_to_string (Store.id r) +:+ "," +:+ tsIso +:+ ","
  +:+ Store.agent (Store.stat r) +:+ ","
  +:+ Num.Z_to_string (Store.in_bytes (Store.stat r)) +:+ ","
  +:+ Num.Z_to_string (Store.est_tokens (Store.stat r)) +:+ ","
  +:+ Num.Z_to_string (Store.out_bytes (Store.stat r)) +:+ ","
  +:+ Num.Z_to_string (Store.upstream_status (Store.stat r)) +:+ ","
  +:+ Num.Z_to_string (Store.duration_ms (Store.stat r)).

(** The data rows of an export, one line per row. *)
Fixpoint csv_rows (rows : list Store.Row) : string :=
  match rows with
  | [] => ""
  | r :: rows' =>
      row_text r (default "" (Date.toISOString (Store.ts (Store.stat r))))
      +:+ Reporter.nl +:+ csv_rows rows'
  end.

(** The clock of an event is a valid time value. *)
Definition valid_clock (e : Event) : Prop :=
  match e with
  | UpstreamEnd _ t => - Date.MAX_TIME <= t <= Date.MAX_TIME
  | _ => True
  end.

(** A store as this program fills it: every agent is one of the three
    tags and every timestamp is a valid time value. *)
Definition well_kept (rows : list Store.Row) : Prop :=
  Forall (fun r => Classifier.is_tag (Store.agent (Store.stat r)) = true
                   /\ - Date.MAX_TIME <= Store.ts (Store.stat r) <= Date.MAX_TIME)
         rows.

End Spec.

(** ** Sample configuration and requests *)

Module Sample.

Import Server.

Definition cfg0 : Config :=
  {| PORT := 3003; OPENROUTER_API_KEY := "sk-or-test";
     UPSTREAM_TIMEOUT_MS := 60000; CLIENT_TIMEOUT_MS := 15000;
     openapiSpec := None; swaggerUi := false |}.

Definition no_query : Query := {| periodMinutes := None; q_agent := None |}.

(** A [POST] with a JSON content type whose payload the body parser took. *)
Definition post (u : string) (buf : list Z) : Req :=
  {| method := "POST"; originalUrl := u; url := u;
     headers := [("content-type", "application/json")];
     payload := Accepted buf; query := no_query; id := "req-1";
     rawBody := None |}.

(** A [GET] without a body. *)
Definition get (u : string) (q : Query) : Req :=
  {| method := "GET"; originalUrl := u; url := u; headers := [];
     payload := Skipped []; query := q; id := "req-2"; rawBody := None |}.

(** A [POST] without a content type: the body parser leaves its body
    unread. *)
Definition post_untyped (u : string) (wire : list Z) : Req :=
  {| method := "POST"; originalUrl := u; url := u; headers := [];
     payload := Skipped wire; query := no_query; id := "req-3";
     rawBody := None |}.

(** The octets of [{"a":1}]. *)
Definition json_body : list Z := [123; 34; 97; 34; 58; 49; 125].

(** The octets of [{"a":"?"}] with the single octet FF in place of [?]. *)
Definition latin1_body : list Z := [123; 34; 97; 34; 58; 34; 255; 34; 125].

Definition row (i t : Z) (a : string) (inb outb status ms : Z) : Store.Row :=
  {| Store.id := i;
     Store.stat := {| Store.ts := t; Store.agent := a; Store.in_bytes := inb;
                      Store.est_tokens := inb / 4; Store.out_bytes := outb;
                      Store.upstream_status := status; Store.duration_ms := ms |} |}.

(** A store with three rows of one agent and one of another. *)
Definition db4 : Store.DB :=
  {| Store.table := [ row 1 1000 "coder" 100 10 200 5;
                      row 2 120000 "coder" 200 20 200 7;
                      row 3 400000 "tester" 50 5 200 2;
                      row 4 590000 "coder" 300 30 502 9 ];
     Store.sequence := 4;
     Store.failing := false |}.

(** [?periodMinutes=5] and [?agent=unknown] as Express parses them. *)
Definition q5 : Query := {| periodMinutes := Some (QStr "5"); q_agent := None |}.
Definition q_unknown : Query :=
  {| periodMinutes := None; q_agent := Some (QStr "unknown") |}.

Definition env (st : Stats) (t : Z) : App.Env :=
  {| App.cfg := cfg0; App.stats := st; App.now := t; App.uptime := 12 |}.

End Sample.

(** ** Header values *)

Module Wire.

Fixpoint octets_of (s : string) : list Z :=
  match s with
  | EmptyString => []
  | String c s' => JS.ascii_code c :: octets_of s'
  end.

(** Whether Node accepts [v] as the value of a header: its characters are
    the tab and the characters U+0020..U+007E and U+0080..U+00FF; with
    another value [setHeader] and [https.request] throw.  ([v] holds the
    UTF-8 octets of the value.) *)
Definition header_ok (v : string) : bool :=
  forallb (fun u => (u =? 9) || Utf8.between 32 126 u || Utf8.between 128 255 u)
          (Utf8.decode (octets_of v)).

End Wire.

(** ** The route table of the application *)

Module Routes.

Import Server Proxy Spec.

(** The request as the layers after [express.json] see it: with the raw
    body that the [verify] hook stored, if the parser read a body. *)
Definition parsed (req : Req) : Req :=
  match payload req with
  | Accepted buf => set_rawBody (verify buf) req
  | _ => req
  end.

(** The response as the layers after the request-id middleware find it. *)
Definition greeted (req : Req) : Http.Res :=
  if JS.truthy (id req)
  then {| Http.statusCode := 200;
          Http.headers := [("X-Request-Id", id req)];
          Http.headersSent := false;
          Http.body := Http.NoBody;
          Http.ended := false |}
  else Http.fresh.

(** Whether the route [m path] takes the request. *)
Definition serves (m path : string) (req : Req) : bool :=
  App.method_match m req && App.path_match path (App.path_of (url req)).

Definition proxy_route (req : Req) : bool :=
  serves "POST" "/" req || serves "POST" "/v1/chat/completions" req
  || serves "POST" "/api/v1/chat/completions" req.

(** Whether the Swagger UI is mounted and the request is under [/docs]. *)
Definition docs_route (e : App.Env) (req : Req) : bool :=
  swaggerUi (App.cfg e) && Reporter.is_some (openapiSpec (App.cfg e))
  && App.prefix_match "/docs" (App.path_of (url req)).

(** [res.json(obj)] on a response whose headers are not sent. *)
Definition json_reply (code : Z) (fields : list (string * Http.JVal))
  (res : Http.Res) : Http.Res :=
  {| Http.statusCode := code;
     Http.headers := Http.put_header "Content-Type"
                       "application/json; charset=utf-8" (Http.headers res);
     Http.headersSent := true;
     Http.body := Http.Json fields;
     Http.ended := true |}.

(** The answer of [GET /openapi.json]. *)
Definition openapi_reply (e : App.Env) (res : Http.Res) : Http.Res :=
  match openapiSpec (App.cfg e) with
  | None => json_reply 503 [("error", Http.JStr "openapi spec not available")] res
  | Some doc =>
      {| Http.statusCode := Http.statusCode res;
         Http.headers := Http.put_header "Content-Type"
                           "application/json; charset=utf-8" (Http.headers res);
         Http.headersSent := true;
         Http.body := Http.Document doc;
         Http.ended := true |}
  end.

(** The fields of the health check. *)
Definition health_fields (e : App.Env) : list (string * Http.JVal) :=
  [("status", Http.JStr "ok"); ("uptime", Http.JNum (App.uptime e));
   ("port", Http.JNum (PORT (App.cfg e)))].

(** The route table: what the application does with a request that the
    body parser lets pass. *)
Definition route_table (e : App.Env) (req : Req) : App.Outcome :=
  if serves "GET" "/health" req then
    App.Responded (json_reply 200 (health_fields e) (greeted req))
  else if serves "GET" "/openapi.json" req then
    App.Responded (openapi_reply e (greeted req))
  else if docs_route e req then App.Delegated "swagger-ui" (greeted req)
  else if proxy_route req then
    App.Forwarding (proxyHandler (App.cfg e) (App.stats e) (App.now e)
                                 (parsed req) (greeted req))
  else App.Responded (not_found_reply req).

End Routes.

(** ** The relay of an upstream response *)

Module Relay.

Import Server Proxy.

(** The headers of the caller's response after [res.writeHead(code, hs)]. *)
Definition merged (hs : list (string * string)) (own : list (string * string))
  : list (string * string) :=
  fold_left (fun acc kv => Http.put_header (fst kv) (snd kv) acc) hs own.

(** The events of an upstream response that streams to its end. *)
Definition streamed (st : option Z) (hs : list (string * string))
  (chunks : list (list Z)) (t1 t2 : Z) : list Event :=
  UpstreamResponse st hs :: map UpstreamData chunks ++ [UpstreamEnd t1 t2].

(** The body of a response into which [chunks] were piped. *)
Definition piped (chunks : list (list Z)) (b : Http.Body) : Http.Body :=
  match chunks with
  | [] => b
  | _ => Http.Relay (match b with Http.Relay cs => cs | _ => [] end ++ chunks)
  end.

End Relay.

(** ** The keys of the store *)

Module Ledger.

(** A table as the [INSERT] statement of this program fills it: the keys
    ascend strictly in the order of insertion, they are positive, and none
    is above the sequence. *)
Definition consistent (d : Store.DB) : Prop :=
  StronglySorted (fun r1 r2 => Store.id r1 < Store.id r2) (Store.table d)
  /\ Forall (fun r => 0 < Store.id r <= Store.sequence d) (Store.table d)
  /\ 0 <= Store.sequence d.

(** [insertStat.run] once for each element of [ps], in order. *)
Fixpoint insert_all (d : Store.DB) (ps : list Store.Stat) : option Store.DB :=
  match ps with
  | [] => Some d
  | p :: ps' =>
      match Store.insertStat_run d p with
      | Some d' => insert_all d' ps'
      | None => None
      end
  end.

(** The rows with the keys [k+1], [k+2], ... for the records [ps]. *)
Fixpoint numbered (k : Z) (ps : list Store.Stat) : list Store.Row :=
  match ps with
  | [] => []
  | p :: ps' => {| Store.id := k + 1; Store.stat := p |} :: numbered (k + 1) ps'
  end.

End Ledger.

(** ** Sums over a summary *)

Module Tally.

(** The sum of one column of a summary over its groups. *)
Definition sum_over (g : Store.Summary -> Z) (m : gmap string Store.Summary) : Z :=
  map_fold (fun _ s n => g s + n) 0 m.

End Tally.

(** ** JavaScript values, as the second program of [server.js] handles them

    The second program of the file (the configurable proxy, from line 316)
    works on the value that [JSON.parse] makes of a request body, with the
    dynamic typing of the language.  A string is the list of its UTF-16
    code units; an object is the list of its own properties in the order
    in which the language enumerates them, each name once. *)

Module Js.

Definition str : Type := list Z.

(** A string literal of the program (ASCII). *)
Fixpoint lit (s : string) : str :=
  match s with
  | EmptyString => []
  | String c s' => JS.ascii_code c :: lit s'
  end.

(** A number value carries the text that [Number::toString] gives it;
    [JSON.parse] yields finite numbers and, for a literal out of range, an
    infinity. *)
#[warnings="-register-all"]
Inductive Val :=
| VUndef
| VNull
| VBool (b : bool)
| VNum (n : Num.number) (text : str)
| VStr (s : str)
| VArr (l : list Val)
| VObj (fields : list (str * Val)).

(** The result of an expression that may throw. *)
Inductive Exc (A : Type) :=
| Ok (a : A)
| Throw.

Arguments Ok {A} a.
Arguments Throw {A}.

Definition bind {A B : Type} (e : Exc A) (k : A -> Exc B) : Exc B :=
  match e with
  | Ok a => k a
  | Throw => Throw
  end.

(** The number value of an integer that the program computes (a length). *)
Definition num (z : Z) : Val :=
  VNum (Num.Fin (inject_Z z)) (lit (Num.Z_to_string z)).

Definition truthy (v : Val) : bool :=
  match v with
  | VUndef | VNull => false
  | VBool b => b
  | VNum n _ => Num.truthy n
  | VStr s => match s with [] => false | _ => true end
  | VArr _ | VObj _ => true
  end.

Definition nullish (v : Val) : bool :=
  match v with
  | VUndef | VNull => true
  | _ => false
  end.

Fixpoint lookup (k : str) (fs : list (str * Val)) : option Val :=
  match fs with
  | [] => None
  | (k', v) :: fs' => if bool_decide (k' = k) then Some v else lookup k fs'
  end.

(** [v.k] for the property names that the program reads ([messages],
    [role], [content], [type], [text], [model], [tools], [function],
    [name], [description], [length]): reading a property of [undefined] or
    [null] throws; an object has its own properties; a string and an array
    have [length]; nothing else has any of these names. *)
Definition get (v : Val) (k : str) : Exc Val :=
  match v with
  | VUndef | VNull => Throw
  | VObj fs => Ok (default VUndef (lookup k fs))
  | VStr s =>
      Ok (if bool_decide (k = lit "length") then num (Z.of_nat (length s)) else VUndef)
  | VArr l =>
      Ok (if bool_decide (k = lit "length") then num (Z.of_nat (length l)) else VUndef)
  | VBool _ | VNum _ _ => Ok VUndef
  end.

(** [v?.k] *)
Definition opt_get (v : Val) (k : str) : Val :=
  match get v k with
  | Ok x => x
  | Throw => VUndef
  end.

(** [a[0]] for an array. *)
Definition first (l : list Val) : Val := default VUndef (head l).

(** [obj.k = v] for an object (a property that exists keeps its place in
    the enumeration). *)
Fixpoint put (k : str) (v : Val) (fs : list (str * Val)) : list (str * Val) :=
  match fs with
  | [] => [(k, v)]
  | (k', v') :: fs' =>
      if bool_decide (k' = k) then (k', v) :: fs' else (k', v') :: put k v fs'
  end.

Definition set (k : str) (v : Val) (obj : Val) : Val :=
  match obj with
  | VObj fs => VObj (put k v fs)
  | _ => obj
  end.

Fixpoint join_strs (sep : str) (l : list str) : str :=
  match l with
  | [] => []
  | [x] => x
  | x :: l' => x ++ sep ++ join_strs sep l'
  end.

(** [String(v)]; inside [Array.prototype.join], [undefined] and [null] are
    the empty string. *)
Fixpoint to_string (v : Val) : str :=
  match v with
  | VUndef => lit "undefined"
  | VNull => lit "null"
  | VBool b => lit (if b then "true" else "false")
  | VNum n t =>
      match n with
      | Num.Fin _ => t
      | Num.PosInf => lit "Infinity"
      | Num.NegInf => lit "-Infinity"
      | Num.NaN => lit "NaN"
      end
  | VStr s => s
  | VArr l =>
      join_strs (lit ",")
        ((fix items (l : list Val) : list str :=
            match l with
            | [] => []
            | x :: l' =>
                match x with
                | VUndef | VNull => []
                | _ => to_string x
                end :: items l'
            end) l)
  | VObj _ => lit "[object Object]"
  end.

Definition join_item (x : Val) : str :=
  match x with
  | VUndef | VNull => []
  | _ => to_string x
  end.

(** [l.join(sep)] *)
Definition join (sep : str) (l : list Val) : str :=
  join_strs sep (map join_item l).

(** White space and line terminators, which [trim] and the conversion of a
    string to a number strip. *)
Definition is_ws (u : Z) : bool :=
  ((9 <=? u) && (u <=? 13)) || (u =? 32) || (u =? 160) || (u =? 5760)
  || ((8192 <=? u) && (u <=? 8202)) || (u =? 8232) || (u =? 8233)
  || (u =? 8239) || (u =? 8287) || (u =? 12288) || (u =? 65279).

Fixpoint trim_start (s : str) : str :=
  match s with
  | u :: s' => if is_ws u then trim_start s' else s
  | [] => []
  end.

(** [s.trim()] *)
Definition trim (s : str) : str :=
  rev (trim_start (rev (trim_start s))).

Fixpoint starts_with (p s : str) : bool :=
  match p, s with
  | [], _ => true
  | a :: p', b :: s' => (a =? b) && starts_with p' s'
  | _ :: _, [] => false
  end.

(** [hay.includes(needle)] on strings. *)
Fixpoint includes (needle hay : str) : bool :=
  starts_with needle hay
  || match hay with
     | [] => false
     | _ :: hay' => includes needle hay'
     end.

Definition num_eq (x y : Num.number) : bool :=
  match x, y with
  | Num.Fin p, Num.Fin q => Qeq_bool p q
  | Num.PosInf, Num.PosInf | Num.NegInf, Num.NegInf | Num.NaN, Num.NaN => true
  | _, _ => false
  end.

(** SameValueZero, the comparison of [Array.prototype.includes].  An object
    or array is the same value only as itself; the values compared here
    come from two different calls of [JSON.parse]. *)
Definition same_value_zero (a b : Val) : bool :=
  match a, b with
  | VUndef, VUndef | VNull, VNull => true
  | VBool x, VBool y => Bool.eqb x y
  | VNum x _, VNum y _ => num_eq x y
  | VStr x, VStr y => bool_decide (x = y)
  | _, _ => false
  end.

(** [recv.includes(arg)]: the method of arrays and of strings; on anything
    else the call throws. *)
Definition includes_call (recv arg : Val) : Exc bool :=
  match recv with
  | VArr l => Ok (existsb (same_value_zero arg) l)
  | VStr s => Ok (includes (to_string arg) s)
  | _ => Throw
  end.

(** [x > thr] for a number. *)
Definition num_gt (n : Num.number) (thr : Q) : bool :=
  match n with
  | Num.Fin q => negb (Qle_bool q thr)
  | Num.PosInf => true
  | _ => false
  end.

Fixpoint ascii_text (s : str) : option string :=
  match s with
  | [] => Some EmptyString
  | u :: s' =>
      if (0 <=? u) && (u <? 128) then
        match ascii_text s' with
        | Some t => Some (String (ascii_of_nat (Z.to_nat u)) t)
        | None => None
        end
      else None
  end.

(** [Number(s) > c] for a string [s] and a number [c] with the next number
    above it at [c + 2 * half]: the value of the literal is rounded to the
    nearest number, a tie to the even one, so the comparison holds exactly
    when the value is above [c + half].  A string with a character outside
    ASCII after trimming is no numeric literal. *)
Definition string_gt (s : str) (c half : Q) : bool :=
  match ascii_text (trim s) with
  | Some t => num_gt (Num.of_string t) (c + half)
  | None => false
  end.

(** [v > c] for a non-negative integer [c], with the conversion of [v] to a
    number. *)
Definition gt (v : Val) (c : Z) (half : Q) : bool :=
  match v with
  | VUndef => false
  | VNull => false
  | VBool b => if b then c <? 1 else false
  | VNum n _ => num_gt n (inject_Z c)
  | VStr s => string_gt s (inject_Z c) half
  | VArr _ => string_gt (to_string v) (inject_Z c) half
  | VObj _ => false
  end.

(** Half the distance from 0 and from 200 to the next number above. *)
Definition HALF_0 : Q := Qpower (1 # 2) 1075.
Definition HALF_200 : Q := Qpower (1 # 2) 46.

Definition hex4 (u : Z) : str :=
  let d (k : Z) := let x := (u / 16 ^ k) mod 16 in if x <? 10 then 48 + x else 87 + x in
  [d 3; d 2; d 1; d 0].

(** [\uXXXX] *)
Definition escape (u : Z) : str := [92; 117] ++ hex4 u.

Definition quote_unit (u : Z) : str :=
  if u =? 8 then [92; 98]
  else if u =? 9 then [92; 116]
  else if u =? 10 then [92; 110]
  else if u =? 12 then [92; 102]
  else if u =? 13 then [92; 114]
  else if u =? 34 then [92; 34]
  else if u =? 92 then [92; 92]
  else if u <? 32 then escape u
  else [u].

(** The inside of a JSON string literal: a surrogate on its own is
    escaped, a pair is kept. *)
Fixpoint quote_units (s : str) : str :=
  match s with
  | [] => []
  | u :: r =>
      if Utf8.between 55296 56319 u then
        match r with
        | v :: r' =>
            if Utf8.between 56320 57343 v then u :: v :: quote_units r'
            else escape u ++ quote_units r
        | [] => escape u
        end
      else if Utf8.between 56320 57343 u then escape u ++ quote_units r
      else quote_unit u ++ quote_units r
  end.

Definition quote (s : str) : str := [34] ++ quote_units s ++ [34].

(** [JSON.stringify(v)]; [None] is [undefined].  In an array [undefined]
    is written [null]; in an object a property with that value is left
    out. *)
Fixpoint stringify (v : Val) : option str :=
  match v with
  | VUndef => None
  | VNull => Some (lit "null")
  | VBool b => Some (lit (if b then "true" else "false"))
  | VNum n t =>
      Some match n with
           | Num.Fin _ => t
           | _ => lit "null"
           end
  | VStr s => Some (quote s)
  | VArr l =>
      Some (lit "[" ++
            join_strs (lit ",")
              ((fix items (l : list Val) : list str :=
                  match l with
                  | [] => []
                  | x :: l' => default (lit "null") (stringify x) :: items l'
                  end) l)
            ++ lit "]")
  | VObj fs =>
      Some (lit "{" ++
            join_strs (lit ",")
              ((fix members (fs : list (str * Val)) : list str :=
                  match fs with
                  | [] => []
                  | (k, x) :: fs' =>
                      match stringify x with
                      | Some t => (quote k ++ lit ":" ++ t) :: members fs'
                      | None => members fs'
                      end
                  end) fs)
            ++ lit "}")
  end.

(** [JSON.stringify(v).length]; reading [length] of [undefined] throws. *)
Definition json_length (v : Val) : Exc Z :=
  match stringify v with
  | Some t => Ok (Z.of_nat (length t))
  | None => Throw
  end.

(** [Math.floor(n / 4)] *)
Definition tokens (n : Z) : Z := n / 4.

End Js.

(** ** The configurable proxy (the second program of [server.js])

    Logging is left out.  [JSON.parse] is taken as given: a request comes
    with what the parser makes of its body.  The case mapping of
    [String.prototype.toLowerCase] is a parameter of the definitions that
    use it. *)

Module Configurable.

Import Js.

(** The five settings that the program reads from [config]. *)
Record Config := mkConfig {
  allowedTools : Val;
  mcpServers : Val;
  compactSystemPrompt : Val;
  blockTitleGeneration : Val;
  blockWarmup : Val
}.

Definition strings (l : list string) : Val := VArr (map (fun s => VStr (lit s)) l).

(** The initial value of [config]. *)
Definition default_config : Config :=
  {| allowedTools := strings ["Read"; "Edit"; "Bash"];
     mcpServers := VArr [];
     compactSystemPrompt := VBool true;
     blockTitleGeneration := VBool true;
     blockWarmup := VBool true |}.

(** The object that is written to [whitelist.json] when the file does not
    exist. *)
Definition example_config : Val :=
  VObj [ (lit "allowedTools", strings ["Read"; "Edit"; "Bash"; "Glob"; "Grep"]);
         (lit "mcpServers", strings ["filesystem"; "github"]);
         (lit "compactSystemPrompt", VBool true);
         (lit "blockTitleGeneration", VBool true);
         (lit "blockWarmup", VBool true);
         (lit "_comment",
           VStr (lit "Add tool names or MCP server names you want to allow. Restart proxy after changes.")) ].

(** One setting of [{ ...config, ...parsed }]: an object overrides the
    settings that it has; spreading anything else adds none of the five
    names. *)
Definition override (k : string) (old : Val) (parsed : Val) : Val :=
  match parsed with
  | VObj fs => default old (lookup (lit k) fs)
  | _ => old
  end.

Definition merge (cfg : Config) (parsed : Val) : Config :=
  {| allowedTools := override "allowedTools" (allowedTools cfg) parsed;
     mcpServers := override "mcpServers" (mcpServers cfg) parsed;
     compactSystemPrompt := override "compactSystemPrompt" (compactSystemPrompt cfg) parsed;
     blockTitleGeneration := override "blockTitleGeneration" (blockTitleGeneration cfg) parsed;
     blockWarmup := override "blockWarmup" (blockWarmup cfg) parsed |}.

(** The file [whitelist.json]: absent, or present with what [JSON.parse]
    makes of its content ([None] when reading or parsing it throws). *)
Inductive File :=
| Absent
| Present (content : option Val).

(** [loadConfig()]: the settings and the file afterwards.  [writable] tells
    whether [fs.writeFileSync] succeeds. *)
Definition loadConfig (writable : bool) (cfg : Config) (f : File) : Config * File :=
  match f with
  | Present (Some parsed) => (merge cfg parsed, f)
  | Present None => (cfg, f)
  | Absent => (cfg, if writable then Present (Some example_config) else Absent)
  end.

(** [`${process.env.OPENROUTER_API_KEY}`] *)
Definition OPENROUTER_KEY (env : option string) : string := default "undefined" env.

Definition MINIMAL_SYSTEM : str :=
  lit "You are Claude Code, a helpful coding assistant. Provide concise, working code solutions.".

(** The counters of [stats]. *)
Record Stats := mkStats {
  blocked : Z;
  allowed : Z;
  savedTokens : Z
}.

(** A request: its method, the chunks of its body, what [JSON.parse] makes
    of the body ([None] when it throws), and its [http-referer] header. *)
Record Request := mkRequest {
  method : string;
  chunks : list (list Z);
  parsed : option Val;
  http_referer : option string
}.

(** [body += chunk] for every chunk: each buffer is converted to a string
    on its own. *)
Definition body_of (req : Request) : str :=
  concat (map Utf8.decode (chunks req)).

(** The upstream request. *)
Record Options := mkOptions {
  hostname : string;
  port : Z;
  path : string;
  o_method : string;
  o_headers : list (string * string)
}.

Definition options (env : option string) (req : Request) : Options :=
  {| hostname := "openrouter.ai";
     port := 443;
     path := "/api/v1/chat/completions";
     o_method := "POST";
     o_headers :=
       [("Content-Type", "application/json");
        ("Authorization", "Bearer " +:+ OPENROUTER_KEY env);
        ("HTTP-Referer",
          JS.or_else (default "" (http_referer req))
                     "https://github.com/saoudrizwan/claude-code-router");
        ("X-Title", "Ultimate Configurable Proxy")] |}.

(** What the handler does with a request: it answers with a status and a
    text, it answers with the mock completion of [sendMock] (status 200 and
    a JSON content type), or it sends [body] to the upstream. *)
Inductive Outcome :=
| Answered (status : Z) (text : string)
| Mocked (body : str)
| Forwarded (opts : Options) (body : str).

(** The object that [sendMock] serialises; [t1] and [t2] are its two
    readings of the clock. *)
Definition mock (t1 t2 : Z) (model : Val) (content : string) : Val :=
  VObj [ (lit "id", VStr (lit "blocked-" ++ lit (Num.Z_to_string t1)));
         (lit "object", VStr (lit "chat.completion"));
         (lit "created", num (t2 / 1000));
         (lit "model", model);
         (lit "choices",
           VArr [ VObj [ (lit "index", num 0);
                         (lit "message",
                           VObj [ (lit "role", VStr (lit "assistant"));
                                  (lit "content", VStr (lit content)) ]);
                         (lit "finish_reason", VStr (lit "stop")) ] ]);
         (lit "usage",
           VObj [ (lit "prompt_tokens", num 0);
                  (lit "completion_tokens", num 2);
                  (lit "total_tokens", num 2) ]) ].

(** [sendMock(res, model, content)]: status 200, a JSON content type and
    the serialised mock. *)
Definition sendMock (t1 t2 : Z) (model : Val) (content : string) : Outcome :=
  Mocked (default [] (stringify (mock t1 t2 model content))).

(** [v === "s"] *)
Definition is_str (s : string) (v : Val) : bool :=
  match v with
  | VStr t => bool_decide (t = lit s)
  | _ => false
  end.

(** [messages.find((m) => m.role === "user")] *)
Fixpoint find_user (l : list Val) : Exc Val :=
  match l with
  | [] => Ok VUndef
  | m :: l' =>
      bind (get m (lit "role")) (fun role =>
      if is_str "user" role then Ok m else find_user l')
  end.

(** [content.filter((item) => item.type === "text")] *)
Fixpoint text_items (l : list Val) : Exc (list Val) :=
  match l with
  | [] => Ok []
  | item :: l' =>
      bind (get item (lit "type")) (fun type =>
      bind (text_items l') (fun rest =>
      Ok (if is_str "text" type then item :: rest else rest)))
  end.

(** [items.map((item) => item.text)] *)
Fixpoint texts (l : list Val) : Exc (list Val) :=
  match l with
  | [] => Ok []
  | item :: l' =>
      bind (get item (lit "text")) (fun t =>
      bind (texts l') (fun rest => Ok (t :: rest)))
  end.

(** Lines 403-414: the text of the first message of the user. *)
Definition user_content (payload : Val) : Exc str :=
  bind (get payload (lit "messages")) (fun messages =>
  bind (match messages with
        | VUndef | VNull => Ok VUndef
        | VArr l => find_user l
        | _ => Throw
        end) (fun userMessage =>
  if truthy userMessage then
    bind (get userMessage (lit "content")) (fun content =>
    match content with
    | VStr s => Ok s
    | VArr items =>
        bind (text_items items) (fun kept =>
        bind (texts kept) (fun ts => Ok (join (lit " ") ts)))
    | _ => Ok []
    end)
  else Ok [])).

(** The two filters: the content of the mock that answers the request, if
    one of them blocks it. *)
Definition blocks (cfg : Config) (userContent : str) : option string :=
  if truthy (blockTitleGeneration cfg)
     && (includes (lit "5-10 word title") userContent
         || includes (lit "Please write a") userContent)
  then Some "Coding Session"
  else if truthy (blockWarmup cfg)
          && bool_decide (trim userContent = lit "Warmup")
  then Some "Ready"
  else None.

(** Lines 438-447: the system prompt.  The payload afterwards and the
    tokens counted as saved. *)
Definition compact_system (cfg : Config) (payload : Val) : Exc (Val * Z) :=
  bind (get payload (lit "messages")) (fun messages =>
  if truthy (compactSystemPrompt cfg) && truthy messages then
    match messages with
    | VArr l =>
        if is_str "system" (opt_get (first l) (lit "role")) then
          bind (get (first l) (lit "content")) (fun content =>
          bind (json_length content) (fun origSize =>
          Ok (set (lit "messages")
                  (VArr (VObj [(lit "role", VStr (lit "system"));
                               (lit "content", VStr MINIMAL_SYSTEM)] :: tail l))
                  payload,
              tokens (origSize - Z.of_nat (length MINIMAL_SYSTEM)))))
        else Ok (payload, 0)
    | _ => Ok (payload, 0)
    end
  else Ok (payload, 0)).

Section case_mapping.

(** [String.prototype.toLowerCase] *)
Variable toLowerCase : str -> str.

(** [tool.function?.name || tool.name] *)
Definition tool_name (tool : Val) : Exc Val :=
  bind (get tool (lit "function")) (fun f =>
  let n := opt_get f (lit "name") in
  if truthy n then Ok n else get tool (lit "name")).

(** [servers.some((server) => toolLower.includes(server.toLowerCase()))] *)
Fixpoint some_server (toolLower : str) (servers : list Val) : Exc bool :=
  match servers with
  | [] => Ok false
  | VStr s :: servers' =>
      if includes (toLowerCase s) toolLower then Ok true
      else some_server toolLower servers'
  | _ :: _ => Throw
  end.

(** The callback of [payload.tools.filter]. *)
Definition keeps (cfg : Config) (tool : Val) : Exc bool :=
  bind (tool_name tool) (fun toolName =>
  bind (includes_call (allowedTools cfg) toolName) (fun listed =>
  if listed then Ok true
  else
    bind (get (mcpServers cfg) (lit "length")) (fun n =>
    if gt n 0 HALF_0 then
      match toolName with
      | VStr name =>
          match mcpServers cfg with
          | VArr servers => some_server (toLowerCase name) servers
          | _ => Throw
          end
      | _ => Throw
      end
    else Ok false))).

Fixpoint filter_tools (cfg : Config) (l : list Val) : Exc (list Val) :=
  match l with
  | [] => Ok []
  | tool :: l' =>
      bind (keeps cfg tool) (fun keep =>
      bind (filter_tools cfg l') (fun rest =>
      Ok (if keep then tool :: rest else rest)))
  end.

(** The callback of [payload.tools.map]: a description of more than 200
    characters is cut to 150 and three dots. *)
Definition shorten (tool : Val) : Exc Val :=
  bind (get tool (lit "function")) (fun f =>
  let description := opt_get f (lit "description") in
  if truthy description then
    bind (get description (lit "length")) (fun n =>
    if gt n 200 HALF_200 then
      match description with
      | VStr s =>
          Ok (set (lit "function")
                  (set (lit "description") (VStr (take 150 s ++ lit "...")) f) tool)
      | VArr l =>
          Ok (set (lit "function")
                  (set (lit "description")
                       (VStr (to_string (VArr (take 150 l)) ++ lit "...")) f) tool)
      | _ => Throw
      end
    else Ok tool)
  else Ok tool).

Fixpoint shorten_all (l : list Val) : Exc (list Val) :=
  match l with
  | [] => Ok []
  | tool :: l' =>
      bind (shorten tool) (fun t =>
      bind (shorten_all l') (fun rest => Ok (t :: rest)))
  end.

(** Lines 449-499: the tools.  The payload afterwards and the tokens
    counted as saved. *)
Definition whitelist_tools (cfg : Config) (payload : Val) : Exc (Val * Z) :=
  bind (get payload (lit "tools")) (fun tools =>
  if truthy tools then
    bind (get tools (lit "length")) (fun n =>
    if gt n 0 HALF_0 then
      match tools with
      | VArr l =>
          bind (json_length tools) (fun originalToolsSize =>
          bind (filter_tools cfg l) (fun kept =>
          bind (match kept with
                | [] => Ok []
                | _ => shorten_all kept
                end) (fun final =>
          bind (json_length (VArr final)) (fun newToolsSize =>
          Ok (set (lit "tools") (VArr final) payload,
              tokens (originalToolsSize - newToolsSize))))))
      | _ => Throw
      end
    else Ok (payload, 0))
  else Ok (payload, 0)).

(** The [try] block of the ['end'] listener: the counters and the outcome,
    unless it throws before it has changed a counter.  [https.request]
    throws, after the counters were changed, when the key is no header
    value; the [catch] block answers that too.  [t1] and [t2] are the two
    readings of the clock in [sendMock]. *)
Definition try_end (cfg : Config) (env : option string) (t1 t2 : Z) (st : Stats)
  (req : Request) : Exc (Stats * Outcome) :=
  match parsed req with
  | None => Throw
  | Some payload =>
      let originalTokens := tokens (Z.of_nat (length (body_of req))) in
      bind (user_content payload) (fun userContent =>
      match blocks cfg userContent with
      | Some content =>
          bind (get payload (lit "model")) (fun model =>
          Ok ({| blocked := blocked st + 1;
                 allowed := allowed st;
                 savedTokens := savedTokens st + originalTokens |},
              sendMock t1 t2 model content))
      | None =>
          bind (compact_system cfg payload) (fun '(p1, saved1) =>
          bind (whitelist_tools cfg p1) (fun '(p2, saved2) =>
          bind (json_length p2) (fun _ =>
          Ok ({| blocked := blocked st;
                 allowed := allowed st + 1;
                 savedTokens := savedTokens st + (saved1 + saved2) |},
              if Wire.header_ok ("Bearer " +:+ OPENROUTER_KEY env)
              then Forwarded (options env req) (default [] (stringify p2))
              else Answered 400 "Bad Request"))))
      end)
  end.

(** The request listener of [http.createServer], up to the end of the
    ['end'] listener. *)
Definition handle (cfg : Config) (env : option string) (t1 t2 : Z) (st : Stats)
  (req : Request) : Stats * Outcome :=
  if negb (String.eqb (method req) "POST") then
    (st, Answered 405 "Method Not Allowed")
  else
    match try_end cfg env t1 t2 st req with
    | Ok r => r
    | Throw => (st, Answered 400 "Bad Request")
    end.

End case_mapping.

(** The case mapping on ASCII letters. *)
Definition lower_ascii (s : str) : str :=
  map (fun u => if (65 <=? u) && (u <=? 90) then u + 32 else u) s.

End Configurable.

(** ** Sample values for the configurable proxy *)

Module Sample2.

Import Js Configurable.

Definition S (s : string) : Val := VStr (lit s).

Definition O (l : list (string * Val)) : Val :=
  VObj (map (fun kv => (lit (fst kv), snd kv)) l).

(** A description of 300 characters. *)
Definition long : str := repeat 120 300%nat.

(** A chat request with a system prompt, one message of the user, three
    tools and a temperature. *)
Definition chat : Val :=
  O [("model", S "m");
     ("messages", VArr [O [("role", S "system"); ("content", S "Hi")];
                        O [("role", S "user"); ("content", S "Hello")]]);
     ("tools", VArr [O [("name", S "Read"); ("description", VStr long)];
                     O [("type", S "function");
                        ("function", O [("name", S "mcp__GitHub__x");
                                        ("description", VStr long)])];
                     O [("name", S "Write")]]);
     ("temperature", VNum (Num.Fin (1 # 2)) (lit "0.5"))].

(** A [POST] with a body of 100 octets in one chunk that parses to [p]. *)
Definition post (p : Val) : Request :=
  {| method := "POST"; chunks := [repeat 32 100%nat]; parsed := Some p;
     http_referer := None |}.

Definition st0 : Stats := {| blocked := 0; allowed := 0; savedTokens := 0 |}.

(** The settings after the example file was loaded. *)
Definition cfg2 : Config := merge default_config example_config.

End Sample2.

(** ** Notions for the properties of the configurable proxy *)

Module Whitelist.

Import Js Configurable.

(** An array of strings. *)
Definition strs (l : list str) : Val := VArr (map VStr l).

(** Whether a tool with the string [name] passes a whitelist of names and
    of MCP servers: the name is on the list as it is, or it contains, in
    lower case, the lower-case name of a server. *)
Definition listed (lower : str -> str) (names servers : list str) (name : str)
  : bool :=
  bool_decide (name ∈ names)
  || existsb (fun s => includes (lower s) (lower name)) servers.


(** The message that replaces a system prompt. *)
Definition minimal_message : Val :=
  VObj [(lit "role", VStr (lit "system")); (lit "content", VStr MINIMAL_SYSTEM)].

(** A message whose [role] is not ["user"]. *)
Definition not_user (m : Val) : Prop :=
  exists role, get m (lit "role") = Ok role /\ is_str "user" role = false.

(** The description after [shorten]. *)
Definition cut (s : str) : str :=
  if (200 <? Z.of_nat (length s)) then take 150 s ++ lit "..." else s.

End Whitelist.

(** * Properties *)

Import Server Proxy Spec.

(** ** Strings *)

(** Appending to a string, one character at a time. *)
Lemma append_cons x (a b : string) : String x a +:+ b = String x (a +:+ b).
Proof. reflexivity. Qed.

(** Appending to the empty string. *)
Lemma append_nil (b : string) : "" +:+ b = b.
Proof. reflexivity. Qed.

Ltac norm_app := repeat (rewrite append_cons || rewrite append_nil).

(** Appending is associative. *)
Lemma append_assoc (a b c : string) : (a +:+ b) +:+ c = a +:+ (b +:+ c).
Proof. induction a as [|x a IH]; [done|]. rewrite !append_cons. by f_equal. Qed.

(** ** The JSON error body *)

(** One escaped character is read back. *)
Lemma json_unescape_char c t s rest :
  Http.json_unescape t = Some (s, rest) ->
  Http.json_unescape (Http.json_escape_char c +:+ t) = Some (String c s, rest).
Proof.
  intros Ht.
  destruct c as [[] [] [] [] [] [] [] []];
    match goal with
    | |- context [Http.json_escape_char ?x] =>
        let e := eval vm_compute in (Http.json_escape_char x) in
        change (Http.json_escape_char x) with e
    end;
    norm_app; simpl; rewrite Ht; reflexivity.
Qed.

(** A quoted string is read back, whatever its characters. *)
Lemma json_string_quote s rest :
  Http.json_string (Http.json_quote s +:+ rest) = Some (s, rest).
Proof.
  unfold Http.json_quote, Http.dq, Http.chr. rewrite !append_assoc. norm_app.
  cbn [Http.json_string]. change (JS.ascii_code (ascii_of_nat 34) =? 34) with true.
  cbv iota.
  induction s as [|c s IH].
  - reflexivity.
  - cbn [Http.json_escape]. rewrite append_assoc.
    by apply json_unescape_char.
Qed.

(** The error body of the gateway parses as an object with the members
    [error] and [detail]. *)
Lemma error_body_parses msg :
  Http.parse_two_strings
    (Http.stringify [("error", Http.JStr "Bad Gateway"); ("detail", Http.JStr msg)])
  = Some (("error", "Bad Gateway"), ("detail", msg)).
Proof.
  unfold Http.stringify. cbn [map JS.join fst snd Http.stringify_val].
  rewrite !append_assoc. norm_app. unfold Http.parse_two_strings.
  cbn [Http.json_expect Ascii.eqb Bool.eqb].
  rewrite json_string_quote. norm_app. cbn [Http.json_expect Ascii.eqb Bool.eqb].
  rewrite json_string_quote. norm_app. cbn [Http.json_expect Ascii.eqb Bool.eqb].
  rewrite json_string_quote. norm_app. cbn [Http.json_expect Ascii.eqb Bool.eqb].
  rewrite json_string_quote. reflexivity.
Qed.

(** ** The classifier *)


Lemma is_tag_cases a :
  Classifier.is_tag a = true <-> a = "coder" \/ a = "tester" \/ a = "manager".
Proof.
  unfold Classifier.is_tag. rewrite !orb_true_iff, !String.eqb_eq. tauto.
Qed.


(** ** The callbacks of [proxyHandler] *)

Ltac callbacks :=
  unfold on_client_timeout, on_response, on_data, on_timeout, on_error;
  repeat match goal with
    | |- context [match Http.json ?a ?b with _ => _ end] => destruct (Http.json a b)
    | |- context [match Http.writeHead ?a ?b ?c with _ => _ end] =>
        destruct (Http.writeHead a b c)
    | |- context [match Http.type_json ?a with _ => _ end] => destruct (Http.type_json a)
    end;
  simpl.

(** Every callback but the ['end'] listener leaves the store alone. *)
Lemma step_stats cfg s e :
  (forall t1 t2, e <> UpstreamEnd t1 t2) ->
  stats (step cfg s e) = stats s.
Proof.
  intros He. unfold step. destruct (uncaught s); [done|].
  destruct e, (phase s); try done; callbacks; try done.
  all: by exfalso; eapply He.
Qed.

(** No callback changes the locals of the handler. *)
Lemma step_locals cfg s e :
  agent (step cfg s e) = agent s /\ inBytes (step cfg s e) = inBytes s
  /\ estTokens (step cfg s e) = estTokens s
  /\ startUpstream (step cfg s e) = startUpstream s.
Proof.
  unfold step. destruct (uncaught s); [done|].
  destruct e, (phase s); try done; callbacks; try done.
  all: unfold on_end; repeat case_match; done.
Qed.

Lemma settled_step cfg s e :
  settled s -> settled (step cfg s e) /\ stats (step cfg s e) = stats s.
Proof.
  unfold settled, step. intros H.
  destruct (uncaught s) eqn:Hu; [by rewrite Hu; auto|].
  destruct H as [H | [H | H]]; [done| |];
    rewrite H; destruct e; try (by rewrite ?Hu, ?H; auto);
    callbacks; rewrite ?H; auto.
Qed.

Lemma run_cons cfg s e trace :
  run cfg s (e :: trace) = run cfg (step cfg s e) trace.
Proof. reflexivity. Qed.

Lemma run_app cfg s t1 t2 :
  run cfg s (t1 ++ t2) = run cfg (run cfg s t1) t2.
Proof. apply fold_left_app. Qed.

(** Once a request is settled, its store stays as it is. *)
Lemma settled_run cfg trace : forall s,
  settled s -> stats (run cfg s trace) = stats s.
Proof.
  induction trace as [|e trace IH]; intros s Hs; [done|].
  rewrite run_cons. destruct (settled_step cfg s e Hs) as [Hs' Hr].
  by rewrite IH.
Qed.

(** What the ['end'] listener does to the store: nothing, or one row, after
    which the request is settled. *)
Lemma end_rows cfg s t1 t2 :
  rows_of (step cfg s (UpstreamEnd t1 t2)) = rows_of s
  \/ (exists st n d,
        uncaught s = None /\ phase s = Streaming st n
        /\ insertStat (stats s) = true /\ db (stats s) = Some d
        /\ Store.failing d = false
        /\ settled (step cfg s (UpstreamEnd t1 t2))
        /\ rows_of (step cfg s (UpstreamEnd t1 t2))
           = rows_of s ++ [record_of s d st n t1 t2]).
Proof.
  unfold step. destruct (uncaught s) eqn:Hu; [by left|].
  destruct (phase s) as [|st n| |] eqn:Hp; try by left.
  unfold on_end.
  destruct (insertStat (stats s)) eqn:Hi; [|by left].
  destruct (db (stats s)) as [d|] eqn:Hd; [|by left].
  unfold Store.insertStat_run.
  destruct (Store.failing d) eqn:Hf; [by left|].
  right. exists st, n, d. repeat split; try done.
  - right; left. done.
  - unfold rows_of. simpl. by rewrite Hd.
Qed.

(** Over any sequence of events a request appends at most one row, and that
    row carries the locals of the handler. *)
Lemma run_rows cfg trace : forall s,
  exists l, rows_of (run cfg s trace) = rows_of s ++ l
            /\ (length l <= 1)%nat
            /\ Forall (fun r => Store.agent (Store.stat r) = agent s
                                /\ Store.in_bytes (Store.stat r) = inBytes s
                                /\ Store.est_tokens (Store.stat r) = estTokens s) l.
Proof.
  induction trace as [|e trace IH]; intros s.
  { exists []. simpl. rewrite app_nil_r. auto. }
  rewrite run_cons.
  assert (Hsame : rows_of (step cfg s e) = rows_of s ->
          exists l, rows_of (run cfg (step cfg s e) trace) = rows_of s ++ l
            /\ (length l <= 1)%nat
            /\ Forall (fun r => Store.agent (Store.stat r) = agent s
                                /\ Store.in_bytes (Store.stat r) = inBytes s
                                /\ Store.est_tokens (Store.stat r) = estTokens s) l).
  { intros Hr. destruct (IH (step cfg s e)) as (l & Hl & Hn & Hf).
    exists l. rewrite Hl, Hr.
    destruct (step_locals cfg s e) as (-> & -> & -> & _) in Hf. auto. }
  destruct e as [st hs|c|t1 t2| |m|];
    try (apply Hsame; unfold rows_of; by rewrite step_stats).
  destruct (end_rows cfg s t1 t2) as [Hr | (st & n & d & _ & _ & _ & _ & _ & Hs & Hr)];
    [by apply Hsame|].
  exists [record_of s d st n t1 t2]. split; [|split].
  - unfold rows_of at 1. rewrite (settled_run _ _ _ Hs). exact Hr.
  - simpl; lia.
  - constructor; [|constructor]. simpl. auto.
Qed.


(** The store of a fresh handler state is the store it was given. *)
Lemma handler_rows cfg d now req res0 :
  rows_of (proxyHandler cfg (ready d) now req res0) = Store.table d.
Proof. reflexivity. Qed.




(** A header that was just put is the one that is read back. *)
Lemma header_put k v hs : Http.header k (Http.put_header k v hs) = Some v.
Proof.
  unfold Http.put_header.
  induction hs as [|[k' v'] hs IH]; simpl.
  - unfold Http.same_name. by rewrite String.eqb_refl.
  - destruct (Http.same_name k' k) eqn:Hk; simpl; [done|]. by rewrite Hk.
Qed.

(** C5 (as amended): while no response has arrived and nothing has been sent
    to the caller, an error of the upstream request, and likewise the
    upstream timeout (which destroys the request with its own message),
    makes the caller's response a 502 whose body is the JSON object
    [{error: "Bad Gateway", detail: message}], typed as JSON, and ended; the
    body parses back to those two members whatever the message holds. *)
Theorem gateway_failure_before_headers (cfg : Config) (s : State) :
  uncaught s = None -> phase s = Waiting -> Http.headersSent (res s) = false ->
  (forall msg,
      let s' := step cfg s (UpstreamError msg) in
      Http.statusCode (res s') = 502
      /\ Http.header "Content-Type" (Http.headers (res s'))
         = Some "application/json; charset=utf-8"
      /\ Http.body (res s')
         = Http.Text (Http.stringify [("error", Http.JStr "Bad Gateway");
                                      ("detail", Http.JStr (detail_of msg))])
      /\ Http.parse_two_strings
           (Http.stringify [("error", Http.JStr "Bad Gateway");
                            ("detail", Http.JStr (detail_of msg))])
         = Some (("error", "Bad Gateway"), ("detail", detail_of msg))
      /\ Http.ended (res s') = true
      /\ uncaught s' = None)
  /\ (let s' := step cfg s UpstreamTimeout in
      destroyed (upstream s') = Some (timeout_message cfg)
      /\ Http.statusCode (res s') = 502
      /\ Http.header "Content-Type" (Http.headers (res s'))
         = Some "application/json; charset=utf-8"
      /\ Http.body (res s')
         = Http.Text (Http.stringify [("error", Http.JStr "Bad Gateway");
                                      ("detail", Http.JStr (timeout_message cfg))])
      /\ Http.parse_two_strings
           (Http.stringify [("error", Http.JStr "Bad Gateway");
                            ("detail", Http.JStr (timeout_message cfg))])
         = Some (("error", "Bad Gateway"), ("detail", timeout_message cfg))
      /\ Http.ended (res s') = true
      /\ uncaught s' = None).
Proof.
  intros Hu Hp Hh. split.
  - intros msg. unfold step. rewrite Hu, Hp. unfold on_error.
    rewrite Hh. unfold Http.type_json, Http.setHeader. simpl. rewrite Hh. simpl.
    rewrite header_put. repeat split; try done. apply error_body_parses.
  - unfold step. rewrite Hu, Hp. unfold on_timeout, on_error. simpl.
    rewrite Hh. unfold Http.type_json, Http.setHeader. simpl. rewrite Hh. simpl.
    rewrite header_put. repeat split; try done. apply error_body_parses.
Qed.

(** The amended C5 at a request that the application just forwarded. *)
Lemma gateway_failure_witness :
  exists s,
    App.app (Sample.env (ready Store.empty) 1000) (Sample.post "/" [123; 125])
    = App.Forwarding s
    /\ uncaught s = None /\ phase s = Waiting /\ Http.headersSent (res s) = false
    /\ Http.statusCode (res (step Sample.cfg0 s (UpstreamError "ECONNRESET"))) = 502
    /\ Http.statusCode (res (step Sample.cfg0 s UpstreamTimeout)) = 502.
Proof.
  eexists. split; [reflexivity|].
  split; [reflexivity|]. split; [reflexivity|]. split; [reflexivity|].
  match goal with
  | |- context [step _ ?s _] =>
      pose proof (gateway_failure_before_headers Sample.cfg0 s eq_refl eq_refl eq_refl)
        as [H1 H2]
  end.
  split.
  - exact (proj1 (H1 "ECONNRESET")).
  - exact (proj1 (proj2 H2)).
Defined.

(** C5 as stated fails: when the upstream timeout fires after the upstream's
    headers were relayed with status 200, the request is destroyed, but the
    caller's status stays 200 and no error body is written. *)
Lemma timeout_after_headers_keeps_status :
  exists s,
    App.app (Sample.env (ready Store.empty) 1000) (Sample.post "/" [123; 125])
    = App.Forwarding s
    /\ let s' := run Sample.cfg0 s [UpstreamResponse (Some 200) []; UpstreamTimeout] in
       destroyed (upstream s') = Some (timeout_message Sample.cfg0)
       /\ Http.statusCode (res s') = 200
       /\ Http.body (res s') = Http.NoBody
       /\ Http.ended (res s') = false.
Proof. eexists. split; [reflexivity|]. repeat split. Qed.

(** ** The token estimate *)

(** A body of [n] letters [a] is [n] octets long. *)
Lemma byteLength_repeat_a (n : nat) : Utf8.byteLength (repeat 97 n) = Z.of_nat n.
Proof.
  unfold Utf8.byteLength. f_equal.
  induction n as [|n IH]; [done|]. simpl. by rewrite IH.
Qed.

(** The body that the handler reads is the one that was set. *)
Lemma body_of_set b req : body_of (set_rawBody b req) = b.
Proof. reflexivity. Qed.

(** C3: in every request the handler's [estTokens] is the floor of a quarter
    of its [inBytes], which is the UTF-8 length of the body; so it is in
    every row the request appends; a body of [n] letters has [inBytes = n];
    and the six values of the specification divide as it says. *)
Theorem estimated_tokens_floor_quarter :
  (forall cfg st now req res0,
      let s := proxyHandler cfg st now req res0 in
      inBytes s = Utf8.byteLength (body_of req)
      /\ estTokens s = inBytes s / 4
      /\ 4 * estTokens s <= inBytes s < 4 * estTokens s + 4)
  /\ (forall cfg st now req res0 trace,
        let s := proxyHandler cfg st now req res0 in
        exists l,
          rows_of (run cfg s trace) = rows_of s ++ l
          /\ Forall (fun r =>
                       Store.in_bytes (Store.stat r) = Utf8.byteLength (body_of req)
                       /\ 4 * Store.est_tokens (Store.stat r)
                          <= Store.in_bytes (Store.stat r)
                          < 4 * Store.est_tokens (Store.stat r) + 4) l)
  /\ (forall cfg st now req res0 (n : nat),
        let s := proxyHandler cfg st now (set_rawBody (repeat 97 n) req) res0 in
        inBytes s = Z.of_nat n /\ estTokens s = Z.of_nat n / 4)
  /\ floor_div4 0 = 0 /\ floor_div4 1 = 0 /\ floor_div4 2 = 0
  /\ floor_div4 3 = 0 /\ floor_div4 4 = 1 /\ floor_div4 400000 = 100000.
Proof.
  split; [|split; [|split]].
  - intros cfg st now req res0. cbn [proxyHandler inBytes estTokens].
    unfold floor_div4. repeat split; Z.to_euclidean_division_equations; lia.
  - intros cfg st now req res0 trace s.
    destruct (run_rows cfg trace s) as (l & Hl & _ & Hf).
    exists l. split; [done|].
    eapply Forall_impl; [exact Hf|].
    intros r (_ & Hi & He). rewrite Hi, He. subst s.
    cbn [proxyHandler inBytes estTokens]. unfold floor_div4.
    split; [done|Z.to_euclidean_division_equations; lia].
  - intros cfg st now req res0 n.
    cbn [proxyHandler inBytes estTokens]. rewrite body_of_set.
    unfold floor_div4. by rewrite byteLength_repeat_a.
  - repeat split; reflexivity.
Qed.

(** ** The summary statements *)

(** The agent filter is equality of the agent column. *)
Lemma agent_ok_iff a r : Store.agent_ok a r = true <-> Store.agent (Store.stat r) = a.
Proof. unfold Store.agent_ok. apply String.eqb_eq. Qed.

(** The sum of a column, one row at a time. *)
Lemma total_cons f r g : total f (r :: g) = f (Store.stat r) + total f g.
Proof. reflexivity. Qed.

(** The accumulator of a group after its rows were added one by one. *)
Lemma fold_acc_add g : forall a,
  fold_left Store.acc_add g a
  = {| Store.acc_requests := Store.acc_requests a + Z.of_nat (length g);
       Store.acc_in := Store.acc_in a + total Store.in_bytes g;
       Store.acc_out := Store.acc_out a + total Store.out_bytes g;
       Store.acc_ms := Store.acc_ms a + total Store.duration_ms g |}.
Proof.
  induction g as [|r g IH]; intros a.
  - destruct a; simpl. f_equal; lia.
  - cbn [fold_left]. rewrite IH. unfold Store.acc_add.
    cbn [Store.acc_requests Store.acc_in Store.acc_out Store.acc_ms].
    rewrite !total_cons, length_cons. f_equal; lia.
Qed.

(** The group of agent [a] after a pass over [rows], starting from [m]. *)
Lemma group_lookup rows : forall (m : gmap string Store.Acc) a,
  foldl Store.group_step m rows !! a
  = match List.filter (Store.agent_ok a) rows with
    | [] => m !! a
    | g => Some (fold_left Store.acc_add g (default Store.acc0 (m !! a)))
    end.
Proof.
  induction rows as [|r rows IH]; intros m a; [done|].
  cbn [foldl List.filter]. rewrite IH. unfold Store.group_step.
  destruct (Store.agent_ok a r) eqn:Hr.
  - apply agent_ok_iff in Hr. rewrite Hr, lookup_insert_eq. simpl.
    by destruct (List.filter _ rows).
  - rewrite lookup_insert_ne; [done|].
    intros Heq. apply agent_ok_iff in Heq. congruence.
Qed.

(** [GROUP BY agent] gives each agent the summary of its rows. *)
Lemma group_by_agent_lookup rows a :
  Store.group_by_agent rows !! a = summary_of (List.filter (Store.agent_ok a) rows).
Proof.
  unfold Store.group_by_agent. rewrite lookup_fmap, group_lookup, lookup_empty.
  destruct (List.filter _ rows) as [|r g] eqn:Hg; [done|].
  cbn [fmap option_fmap option_map default summary_of].
  rewrite fold_acc_add. unfold Store.finish. cbn. reflexivity.
Qed.

(** Two filters in a row are the filter of their conjunction. *)
Lemma filter_filter {A} (p q : A -> bool) l :
  List.filter q (List.filter p l) = List.filter (fun x => p x && q x) l.
Proof.
  induction l as [|x l IH]; [done|]. simpl.
  destruct (p x); simpl; [|done]. destruct (q x); by rewrite IH.
Qed.

(** The filter that keeps everything. *)
Lemma filter_true {A} (l : list A) : List.filter (fun _ => true) l = l.
Proof. induction l; simpl; congruence. Qed.

(** The summary of an agent under the optional filters. *)
Lemma summarize_lookup since agentFilter d a :
  summarize since agentFilter d !! a
  = summary_of (List.filter (fun r => selected since agentFilter r
                                      && Store.agent_ok a r)
                            (Store.table d)).
Proof.
  destruct since as [t|], agentFilter as [b|]; unfold summarize, selected,
    Store.selectSummaryAll, Store.selectSummarySince,
    Store.selectSummaryByAgentAll, Store.selectSummaryByAgentSince;
    rewrite group_by_agent_lookup, ?filter_filter; f_equal;
    apply filter_ext; intros r; by rewrite ?andb_true_r.
Qed.


(** ** The router and the reporting routes *)

(** While an error is pending, layers that are not error handlers are
    passed over. *)
Lemma dispatch_error_skips ls req res :
  Forall (fun l => App.error_handler l = false) ls ->
  App.dispatch ls true req res = App.Unhandled true res.
Proof.
  induction 1 as [|l ls Hl _ IH]; [done|].
  simpl. by rewrite Hl.
Qed.

(** The two catch-all layers never call [next()]: whatever follows them is
    reached only with an error pending. *)
Lemma catch_all_final rest err req res :
  Forall (fun l => App.error_handler l = false) rest ->
  App.dispatch (App.catch_all ++ rest) err req res
  = App.dispatch App.catch_all err req res.
Proof.
  intros Hrest. unfold App.catch_all. cbn [app App.dispatch App.error_handler
    App.applies App.handle App.use].
  destruct err; cbn [Bool.eqb andb].
  - unfold App.error_middleware, App.of_option.
    destruct (Http.json _ _); [done|]. by rewrite dispatch_error_skips.
  - unfold App.not_found, App.of_option.
    destruct (Http.json _ _); [done|].
    unfold App.error_middleware, App.of_option.
    destruct (Http.json _ _); [done|]. by rewrite dispatch_error_skips.
Qed.

(** So the layers after the catch-all pair do not matter to the router. *)
Lemma dispatch_prefix front : forall rest err req res,
  Forall (fun l => App.error_handler l = false) rest ->
  App.dispatch (front ++ App.catch_all ++ rest) err req res
  = App.dispatch (front ++ App.catch_all) err req res.
Proof.
  induction front as [|l front IH]; intros rest err req res Hrest.
  { rewrite app_nil_l. by apply catch_all_final. }
  cbn [app App.dispatch].
  destruct (_ && _); [|by apply IH].
  destruct (App.handle l req res); [by apply IH|by apply IH|done].
Qed.

(** The reporting routes are never run: the application answers every
    request as it would without them. *)
Lemma reporting_routes_unreachable e req :
  App.app e req
  = App.dispatch (App.routes_before_404 e ++ App.catch_all) false req Http.fresh.
Proof.
  unfold App.app, App.stack. apply dispatch_prefix.
  repeat constructor.
Qed.

(** A path that matches a route is the route path, up to letter case and a
    trailing slash. *)
Lemma path_match_cases pattern p :
  App.path_match pattern p = true ->
  JS.toLowerCase p = pattern \/ JS.toLowerCase p = pattern +:+ "/".
Proof.
  unfold App.path_match. rewrite orb_true_iff, andb_true_iff, !String.eqb_eq.
  tauto.
Qed.

(** A layer that does not apply is passed over. *)
Lemma dispatch_skip l ls err req res :
  Bool.eqb (App.error_handler l) err && App.applies l req = false ->
  App.dispatch (l :: ls) err req res = App.dispatch ls err req res.
Proof. intros H. cbn [App.dispatch]. by rewrite H. Qed.

(** A layer that applies is run. *)
Lemma dispatch_run l ls err req res :
  Bool.eqb (App.error_handler l) err && App.applies l req = true ->
  App.dispatch (l :: ls) err req res
  = match App.handle l req res with
    | App.Continue req' res' => App.dispatch ls false req' res'
    | App.Fail res' => App.dispatch ls true req res'
    | App.Stop o => o
    end.
Proof. intros H. cbn [App.dispatch]. by rewrite H. Qed.

(** The answer of the 404 handler on a response whose headers are not
    sent. *)
Lemma not_found_answer req res :
  Http.headersSent res = false ->
  App.dispatch App.catch_all false req res
  = App.Responded
      {| Http.statusCode := 404;
         Http.headers := Http.put_header "Content-Type"
                           "application/json; charset=utf-8" (Http.headers res);
         Http.headersSent := true;
         Http.body := Http.Json [("error", Http.JStr "Not Found")];
         Http.ended := true |}.
Proof.
  intros Hs. unfold App.catch_all. rewrite dispatch_run by done.
  cbn [App.handle App.use]. unfold App.not_found, App.of_option, Http.json,
    Http.send_json, Http.type_json, Http.setHeader.
  cbn [Http.status Http.headersSent]. by rewrite Hs.
Qed.

(** None of the routes before the 404 handler has the path [/stats] or
    [/stats/export]. *)
Lemma api_routes_pass e req res :
  App.path_match "/stats" (App.path_of (url req)) = true
  \/ App.path_match "/stats/export" (App.path_of (url req)) = true ->
  App.dispatch (App.api_routes e ++ App.catch_all) false req res
  = App.dispatch App.catch_all false req res.
Proof.
  intros Hpath.
  assert (Hp : exists p', JS.toLowerCase (App.path_of (url req)) = p'
                /\ (p' = "/stats" \/ p' = "/stats/" \/ p' = "/stats/export"
                    \/ p' = "/stats/export/")).
  { eexists; split; [done|].
    destruct Hpath as [H|H]; apply path_match_cases in H; simpl in H; tauto. }
  destruct Hp as (p' & Hp' & Hcases).
  assert (Hroute : forall m pat h,
            pat <> p' -> pat +:+ "/" <> p' ->
            Bool.eqb (App.error_handler (App.route m pat h)) false
            && App.applies (App.route m pat h) req = false).
  { intros m pat h Hn1 Hn2. cbn [App.applies App.route App.error_handler Bool.eqb].
    unfold App.path_match. rewrite Hp'.
    apply andb_false_iff. right.
    apply andb_false_iff. right. apply orb_false_iff. split.
    - apply String.eqb_neq. congruence.
    - apply andb_false_iff. right. apply String.eqb_neq. congruence. }
  assert (Hdocs : App.dispatch (App.docs_routes e ++
                    [App.route "POST" "/" (App.proxy e);
                     App.route "POST" "/v1/chat/completions" (App.proxy e);
                     App.route "POST" "/api/v1/chat/completions" (App.proxy e)]
                    ++ App.catch_all) false req res
                  = App.dispatch App.catch_all false req res).
  { unfold App.docs_routes. destruct (_ && _); cbn [app].
    - rewrite dispatch_skip.
      + rewrite !dispatch_skip; [done|..]; apply Hroute;
          destruct Hcases as [-> | [-> | [-> | ->]]]; done.
      + cbn [App.error_handler App.applies Bool.eqb andb].
        unfold App.prefix_match. rewrite Hp'.
        destruct Hcases as [-> | [-> | [-> | ->]]]; reflexivity.
    - rewrite !dispatch_skip; [done|..]; apply Hroute;
        destruct Hcases as [-> | [-> | [-> | ->]]]; done. }
  unfold App.api_routes. rewrite <- !app_assoc. cbn [app].
  rewrite !dispatch_skip; [exact Hdocs|..]; apply Hroute;
    destruct Hcases as [-> | [-> | [-> | ->]]]; done.
Qed.

(** A request for [/stats] or [/stats/export], whatever its method and its
    query, is answered by the 404 handler (unless the body parser rejected
    its body, which the error handler answers). *)
Lemma reporting_paths_not_found e req :
  payload req <> Rejected ->
  App.path_match "/stats" (App.path_of (url req)) = true
  \/ App.path_match "/stats/export" (App.path_of (url req)) = true ->
  App.app e req = App.Responded (not_found_reply req).
Proof.
  intros Hpay Hpath.
  rewrite reporting_routes_unreachable.
  unfold App.routes_before_404, App.middleware. rewrite <- app_assoc. cbn [app].
  rewrite dispatch_run by done. cbn [App.handle App.use].
  assert (Hrest : forall r, url r = url req -> id r = id req ->
            App.dispatch
              (App.use "pino-http" App.Continue
               :: App.use "X-Request-Id" App.echo_request_id
               :: App.api_routes e ++ App.catch_all) false r Http.fresh
            = App.Responded (not_found_reply req)).
  { intros r Hu Hi. rewrite dispatch_run by done. cbn [App.handle App.use].
    rewrite dispatch_run by done. cbn [App.handle App.use].
    unfold App.echo_request_id, not_found_reply. rewrite Hi.
    destruct (JS.truthy (id req)); cbn [Http.setHeader Http.fresh Http.headersSent];
      rewrite api_routes_pass by (by rewrite Hu);
      by rewrite not_found_answer. }
  unfold App.express_json. destruct (payload req); [|done|]; by apply Hrest.
Qed.

(** ** The reporting handlers, run on their own *)

(** With the store ready, both handlers select what [summarize] and
    [listRaw] give for the window and the agent filter of the query. *)
Lemma handler_selection d now q :
  Store.failing d = false ->
  Reporter.summary_rows (ready d) now q
  = Some (summarize (window now q) (agent_filter q) d)
  /\ Reporter.export_rows (ready d) now q
     = Some (listRaw (window now q) (agent_filter q) d).
Proof.
  intros Hf.
  unfold Reporter.summary_rows, Reporter.export_rows, window, agent_filter,
    Reporter.or_null_str, Reporter.call.
  destruct (Reporter.windowed _), (JS.truthy _); simpl; rewrite Hf; done.
Qed.

(** The rows of [listRaw] are the selected rows of the table. *)
Lemma listRaw_selected since af d :
  listRaw since af d
  = Store.order_by_id (List.filter (selected since af) (Store.table d)).
Proof.
  destruct since, af; unfold listRaw, selected, Store.selectAllRows,
    Store.selectRowsSince, Store.selectRowsByAgentAll,
    Store.selectRowsByAgentSince; f_equal;
    try (apply filter_ext; intros r; by rewrite ?andb_true_r).
  by rewrite filter_true.
Qed.

(** Membership in [listRaw]. *)
Lemma elem_of_listRaw since af d r :
  r ∈ listRaw since af d <-> r ∈ Store.table d /\ selected since af r = true.
Proof.
  rewrite listRaw_selected. unfold Store.order_by_id.
  rewrite merge_sort_Permutation, !list_elem_of_In, filter_In. done.
Qed.

(** An omitted [periodMinutes], and one that is zero or negative, opens no
    window; a positive number of minutes puts the start of the window that
    many minutes before [now]. *)
Lemma window_cases now q :
  (periodMinutes q = None -> window now q = None)
  /\ (forall x, Reporter.mins_of q = Num.Fin x -> (x <= 0)%Q -> window now q = None)
  /\ (forall x, Reporter.mins_of q = Num.Fin x -> (0 < x)%Q ->
        window now q
        = Some (Num.Fin (inject_Z now - x * (60 # 1) * (1000 # 1))%Q)).
Proof.
  unfold window, Reporter.windowed. split; [|split].
  - intros Hq. unfold Reporter.mins_of. by rewrite Hq.
  - intros x -> Hx. simpl.
    destruct (Qle_bool x 0) eqn:Hle; [by rewrite andb_false_r|].
    apply Qle_bool_iff in Hx. congruence.
  - intros x -> Hx. simpl.
    assert (Hz : Qeq_bool x 0 = false).
    { destruct (Qeq_bool x 0) eqn:He; [|done].
      apply Qeq_bool_iff in He. rewrite He in Hx. by apply Qlt_irrefl in Hx. }
    assert (Hl : Qle_bool x 0 = false).
    { destruct (Qle_bool x 0) eqn:He; [|done].
      apply Qle_bool_iff in He. by apply Qle_not_lt in He. }
    by rewrite Hz, Hl.
Qed.

(** A row passes the window exactly when its timestamp is not before the
    start of the window. *)
Lemma since_ok_iff t r :
  Store.since_ok (Num.Fin t) r = true
  <-> (t <= inject_Z (Store.ts (Store.stat r)))%Q.
Proof. unfold Store.since_ok. simpl. apply Qle_bool_iff. Qed.

(** In a store whose agents are the three tags, an agent filter that is
    not one of them selects nothing. *)
Lemma foreign_agent_selects_nothing since a d :
  well_kept (Store.table d) -> Classifier.is_tag a = false ->
  listRaw since (Some a) d = [] /\ summarize since (Some a) d = ∅.
Proof.
  intros Hk Ha.
  assert (Hnone : forall p, List.filter (fun r => p r && Store.agent_ok a r)
                              (Store.table d) = []).
  { intros p. induction Hk as [|r rows [Hr _] _ IH]; [done|]. simpl.
    destruct (Store.agent_ok a r) eqn:Hra; [|by rewrite andb_false_r].
    apply agent_ok_iff in Hra. congruence. }
  split.
  - rewrite listRaw_selected. unfold selected. by rewrite Hnone.
  - apply map_eq. intros b.
    rewrite summarize_lookup, lookup_empty.
    unfold selected. rewrite <- filter_filter, Hnone. done.
Qed.

(** ** Dates *)

(** Four hundred times the first day of a year is its distance from 1970 in
    days of the average year, within a year and a half. *)
Lemma DayFromYear_bounds y :
  146097 * (y - 1970) - 506 <= 400 * Date.DayFromYear y
  <= 146097 * (y - 1970) + 589.
Proof. unfold Date.DayFromYear. Z.to_euclidean_division_equations. lia. Qed.

(** A year has 365 days, and one more when it is a leap year. *)
Lemma DayFromYear_succ y :
  Date.DayFromYear (y + 1)
  = Date.DayFromYear y + 365 + (if Date.InLeapYear y then 1 else 0).
Proof.
  unfold Date.DayFromYear, Date.InLeapYear.
  replace (y + 1 - 1970) with (y - 1969) by lia.
  replace (y + 1 - 1969) with (y - 1968) by lia.
  replace (y + 1 - 1901) with (y - 1900) by lia.
  replace (y + 1 - 1601) with (y - 1600) by lia.
  destruct (Z.eqb_spec (y mod 4) 0) as [H4|H4];
    destruct (Z.eqb_spec (y mod 100) 0) as [H100|H100];
    destruct (Z.eqb_spec (y mod 400) 0) as [H400|H400]; cbn [andb orb negb];
    Z.to_euclidean_division_equations; lia.
Qed.

(** The year of a day is the year in which the day lies. *)
Lemma YearFromDay_spec day :
  Date.DayFromYear (Date.YearFromDay day) <= day
  < Date.DayFromYear (Date.YearFromDay day + 1).
Proof.
  unfold Date.YearFromDay.
  set (y0 := 1970 + 400 * day / 146097).
  assert (H0 : 146097 * (y0 - 1970) <= 400 * day < 146097 * (y0 - 1970) + 146097).
  { unfold y0. Z.to_euclidean_division_equations. lia. }
  pose proof (DayFromYear_bounds (y0 - 1)).
  pose proof (DayFromYear_bounds (y0 + 1 + 1)).
  destruct (Z.ltb_spec day (Date.DayFromYear y0)).
  - replace (y0 - 1 + 1) with y0 by lia. lia.
  - destruct (Z.leb_spec (Date.DayFromYear (y0 + 1)) day); lia.
Qed.

(** The month of a day within the year is the month in which it lies. *)
Lemma MonthFromDay_spec (leap : bool) (d : Z) :
  0 <= d < 365 + (if leap then 1 else 0) ->
  0 <= Date.MonthFromDay leap d <= 11
  /\ Date.month_start leap (Date.MonthFromDay leap d) <= d
     < Date.month_start leap (Date.MonthFromDay leap d + 1).
Proof.
  intros Hd. unfold Date.MonthFromDay.
  repeat match goal with
         | |- context [if ?a <? ?b then _ else _] =>
             destruct (Z.ltb_spec a b)
         end;
    (split; [lia|]); destruct leap;
    repeat match goal with
      | H : context [Date.month_start ?l ?k] |- _ =>
          let v := eval vm_compute in (Date.month_start l k) in
          change (Date.month_start l k) with v in H
      | |- context [Date.month_start ?l ?k] =>
          let v := eval vm_compute in (Date.month_start l k) in
          change (Date.month_start l k) with v
      end; lia.
Qed.

(** The calendar fields of a time value name that time value. *)
Lemma time_of_fields t :
  - Date.MAX_TIME <= t <= Date.MAX_TIME ->
  Csv.time_of (Date.fields_of t) = Some t.
Proof.
  intros Ht. unfold Csv.time_of, Date.fields_of.
  cbn [Date.year Date.month Date.date Date.hours Date.minutes Date.seconds
       Date.millis].
  set (day := t / Date.msPerDay).
  set (tod := t mod Date.msPerDay).
  set (y := Date.YearFromDay day).
  set (leap := Date.InLeapYear y).
  set (diy := day - Date.DayFromYear y).
  set (m := Date.MonthFromDay leap diy).
  assert (Htod : 0 <= tod < 86400000 /\ t = day * 86400000 + tod).
  { unfold tod, day, Date.msPerDay. Z.to_euclidean_division_equations. lia. }
  pose proof (YearFromDay_spec day) as Hy. fold y in Hy.
  rewrite DayFromYear_succ in Hy. fold leap in Hy.
  assert (Hdiy : 0 <= diy < 365 + (if leap then 1 else 0)) by (unfold diy; lia).
  destruct (MonthFromDay_spec leap diy Hdiy) as [Hm Hms]. fold m in Hm, Hms.
  replace (m + 1 - 1) with m by lia.
  assert (Hdim : Csv.DaysInMonth y (m + 1)
                 = Date.month_start leap (m + 1) - Date.month_start leap m).
  { unfold Csv.DaysInMonth. fold leap. by replace (m + 1 - 1) with m by lia. }
  rewrite Hdim.
  assert (Hc : (1 <=? m + 1) && (m + 1 <=? 12)
               && (1 <=? diy - Date.month_start leap m + 1)
               && (diy - Date.month_start leap m + 1
                   <=? Date.month_start leap (m + 1) - Date.month_start leap m)
               && (tod / 3600000 <=? 23) && ((tod / 60000) mod 60 <=? 59)
               && ((tod / 1000) mod 60 <=? 59) = true).
  { repeat (apply andb_true_iff; split); apply Z.leb_le; try lia;
      Z.to_euclidean_division_equations; lia. }
  rewrite Hc.
  assert (Hv : (Date.DayFromYear y + Date.month_start leap m
                + (diy - Date.month_start leap m + 1) - 1) * Date.msPerDay
               + tod / 3600000 * 3600000 + (tod / 60000) mod 60 * 60000
               + (tod / 1000) mod 60 * 1000 + tod mod 1000 = t).
  { replace (Date.DayFromYear y + Date.month_start leap m
             + (diy - Date.month_start leap m + 1) - 1) with day by (unfold diy; lia).
    unfold Date.msPerDay. destruct Htod as [Hb Heq].
    transitivity (day * 86400000 + tod); [|lia].
    clearbody tod day. clear -Hb. Z.to_euclidean_division_equations. lia. }
  cbv zeta. rewrite Hv.
  assert (Hr : (- Date.MAX_TIME <=? t) && (t <=? Date.MAX_TIME) = true).
  { apply andb_true_iff; split; apply Z.leb_le; lia. }
  by rewrite Hr.
Qed.

(** No month is longer than 31 days. *)
Lemma month_length (leap : bool) (m : Z) :
  0 <= m <= 11 ->
  Date.month_start leap (m + 1) - Date.month_start leap m <= 31.
Proof.
  intros Hm.
  assert (Hc : m = 0 \/ m = 1 \/ m = 2 \/ m = 3 \/ m = 4 \/ m = 5 \/ m = 6
               \/ m = 7 \/ m = 8 \/ m = 9 \/ m = 10 \/ m = 11) by lia.
  destruct leap; repeat (destruct Hc as [-> | Hc]; [vm_compute; discriminate|]);
    subst; vm_compute; discriminate.
Qed.

(** The ranges of the calendar fields of a valid time value. *)
Lemma fields_ranges t :
  - Date.MAX_TIME <= t <= Date.MAX_TIME ->
  let f := Date.fields_of t in
  -999999 <= Date.year f <= 999999
  /\ 1 <= Date.month f <= 12 /\ 1 <= Date.date f <= 31
  /\ 0 <= Date.hours f <= 23 /\ 0 <= Date.minutes f <= 59
  /\ 0 <= Date.seconds f <= 59 /\ 0 <= Date.millis f <= 999.
Proof.
  intros Ht. unfold Date.fields_of.
  cbn [Date.year Date.month Date.date Date.hours Date.minutes Date.seconds
       Date.millis].
  set (day := t / Date.msPerDay).
  set (tod := t mod Date.msPerDay).
  set (y := Date.YearFromDay day).
  set (leap := Date.InLeapYear y).
  set (diy := day - Date.DayFromYear y).
  set (m := Date.MonthFromDay leap diy).
  assert (Htod : 0 <= tod < 86400000 /\ -100000000 <= day <= 100000000).
  { unfold tod, day, Date.msPerDay, Date.MAX_TIME in *.
    Z.to_euclidean_division_equations. lia. }
  pose proof (YearFromDay_spec day) as Hy. fold y in Hy.
  pose proof (DayFromYear_bounds y) as Hb1.
  pose proof (DayFromYear_bounds (y + 1)) as Hb2.
  rewrite DayFromYear_succ in Hy, Hb2. fold leap in Hy, Hb2.
  assert (Hdiy : 0 <= diy < 365 + (if leap then 1 else 0)) by (unfold diy; lia).
  destruct (MonthFromDay_spec leap diy Hdiy) as [Hm Hms]. fold m in Hm, Hms.
  pose proof (month_length leap m Hm) as Hl.
  repeat split; try lia; try (Z.to_euclidean_division_equations; lia).
  all: destruct leap; lia.
Qed.

(** ** The text of an export *)

(** A printed digit is read back. *)
Lemma digit_of_digit d : 0 <= d <= 9 -> Csv.digit_of (Date.digit d) = Some d.
Proof.
  intros Hd.
  assert (Hc : d = 0 \/ d = 1 \/ d = 2 \/ d = 3 \/ d = 4 \/ d = 5 \/ d = 6
               \/ d = 7 \/ d = 8 \/ d = 9) by lia.
  repeat (destruct Hc as [-> | Hc]; [reflexivity|]). by subst.
Qed.

(** Fixed-width digits are read back as the number they print. *)
Lemma read_fixed_pad n : forall v rest acc,
  0 <= v ->
  Csv.read_fixed n (Date.pad n v +:+ rest) acc
  = Some (acc * 10 ^ Z.of_nat n + v mod 10 ^ Z.of_nat n, rest).
Proof.
  induction n as [|n IH]; intros v rest acc Hv.
  { simpl. rewrite Z.mod_1_r. do 2 f_equal. lia. }
  cbn [Date.pad]. rewrite append_cons. cbn [Csv.read_fixed].
  assert (Hp : 0 < 10 ^ Z.of_nat n) by (apply Z.pow_pos_nonneg; lia).
  rewrite digit_of_digit by (Z.to_euclidean_division_equations; lia).
  rewrite IH by done. do 2 f_equal.
  rewrite Nat2Z.inj_succ, Z.pow_succ_r by lia.
  rewrite (Z.mul_comm 10), Z.rem_mul_r by lia. lia.
Qed.

(** The same for a number that fits the width. *)
Lemma read_fixed_pad_small n v rest :
  0 <= v < 10 ^ Z.of_nat n ->
  Csv.read_fixed n (Date.pad n v +:+ rest) 0 = Some (v, rest).
Proof.
  intros Hv. rewrite read_fixed_pad by lia.
  by rewrite Z.mod_small by lia.
Qed.

(** A year is read back from its four or six digits. *)
Lemma read_year_string y rest :
  -999999 <= y <= 999999 ->
  Csv.read_year (Date.year_string y +:+ rest) = Some (y, rest).
Proof.
  intros Hy. unfold Date.year_string.
  destruct ((0 <=? y) && (y <=? 9999)) eqn:Hr.
  - apply andb_true_iff in Hr. destruct Hr as [H0 H1].
    apply Z.leb_le in H0, H1.
    rewrite <- (read_fixed_pad_small 4 y rest) by (simpl; lia).
    unfold Csv.read_year. cbn [Date.pad]. rewrite !append_cons.
    set (d := (y / 10 ^ Z.of_nat 3) mod 10).
    assert (Hd : 0 <= d <= 9) by (unfold d; Z.to_euclidean_division_equations; lia).
    assert (Hc : d = 0 \/ d = 1 \/ d = 2 \/ d = 3 \/ d = 4 \/ d = 5 \/ d = 6
                 \/ d = 7 \/ d = 8 \/ d = 9) by lia.
    clearbody d.
    repeat (destruct Hc as [-> | Hc]; [reflexivity|]). by subst.
  - apply andb_false_iff in Hr.
    destruct (Z.ltb_spec y 0) as [Hn|Hn].
    + norm_app. cbn [Csv.read_year Ascii.eqb Bool.eqb].
      rewrite read_fixed_pad_small by (simpl; lia).
      do 2 f_equal. lia.
    + norm_app. cbn [Csv.read_year Ascii.eqb Bool.eqb].
      rewrite read_fixed_pad_small by (simpl; lia).
      do 2 f_equal. lia.
Qed.

(** A step of the option monad. *)
Lemma bind_some {A B} (f : A -> option B) (x : A) : Some x ≫= f = f x.
Proof. reflexivity. Qed.

(** The expected character is accepted. *)
Lemma expect_cons c rest : Csv.expect c (String c rest) = Some rest.
Proof. unfold Csv.expect. by rewrite Ascii.eqb_refl. Qed.

(** A formatted date is parsed to the time value of its fields. *)
Lemma parse_iso_format f :
  -999999 <= Date.year f <= 999999 ->
  0 <= Date.month f <= 99 -> 0 <= Date.date f <= 99 ->
  0 <= Date.hours f <= 99 -> 0 <= Date.minutes f <= 99 ->
  0 <= Date.seconds f <= 99 -> 0 <= Date.millis f <= 999 ->
  Csv.parse_iso (Date.format f) = Csv.time_of f.
Proof.
  intros Hy Hmo Hd Hh Hmi Hs Hms. unfold Csv.parse_iso, Date.format.
  rewrite read_year_string by done.
  rewrite bind_some. cbv beta iota. norm_app.
  repeat (rewrite expect_cons, bind_some;
          rewrite read_fixed_pad_small by (simpl; lia);
          rewrite bind_some; cbv beta iota; norm_app).
  rewrite expect_cons, bind_some. by destruct f.
Qed.

(** The ISO rendering of a valid timestamp parses back to the same
    millisecond. *)
Lemma parse_iso_round_trip t iso :
  Date.toISOString t = Some iso -> Csv.parse_iso iso = Some t.
Proof.
  unfold Date.toISOString.
  destruct ((- Date.MAX_TIME <=? t) && (t <=? Date.MAX_TIME)) eqn:Hr; [|done].
  intros [= <-]. apply andb_true_iff in Hr. destruct Hr as [H0 H1].
  apply Z.leb_le in H0, H1.
  destruct (fields_ranges t) as (A & B & C & D & E & F & G); [lia|].
  rewrite parse_iso_format by lia. apply time_of_fields. lia.
Qed.

(** A character that both parts lack. *)
Lemma lacks_app c a b : Csv.lacks c (a +:+ b) = Csv.lacks c a && Csv.lacks c b.
Proof.
  induction a as [|x a IH]; [done|]. rewrite append_cons. simpl.
  rewrite IH. by rewrite andb_assoc.
Qed.

(** A field made of two fields. *)
Lemma field_app a b : Csv.field (a +:+ b) = Csv.field a && Csv.field b.
Proof.
  unfold Csv.field. rewrite !lacks_app.
  destruct (Csv.lacks "," a), (Csv.lacks "," b), (Csv.lacks _ a); done.
Qed.

(** Splitting at a character that the first field lacks. *)
Lemma split_field c a rest :
  Csv.lacks c a = true ->
  Url.split c (a +:+ String c rest) = a :: Url.split c rest.
Proof.
  induction a as [|x a IH]; intros Ha.
  - rewrite append_nil. simpl. by rewrite Ascii.eqb_refl.
  - rewrite append_cons. simpl in *.
    apply andb_true_iff in Ha. destruct Ha as [Hx Ha].
    apply negb_true_iff in Hx. rewrite Hx, (IH Ha). done.
Qed.

(** A string that lacks the separator is one field. *)
Lemma split_last c a : Csv.lacks c a = true -> Url.split c a = [a].
Proof.
  induction a as [|x a IH]; intros Ha; [done|]. simpl in *.
  apply andb_true_iff in Ha. destruct Ha as [Hx Ha].
  apply negb_true_iff in Hx. by rewrite Hx, (IH Ha).
Qed.

(** Decimal digits hold neither commas nor line feeds. *)
Lemma field_uint d : Csv.field (NilEmpty.string_of_uint d) = true.
Proof. induction d; simpl; try done; by rewrite ?IHd. Qed.

(** The same for the digits of zero. *)
Lemma field_nz_uint d : Csv.field (NilZero.string_of_uint d) = true.
Proof. destruct d; [done|..]; apply (field_uint (_ d)). Qed.

(** A printed integer is a field. *)
Lemma field_Z_to_string z : Csv.field (Num.Z_to_string z) = true.
Proof.
  unfold Num.Z_to_string, NilZero.string_of_int.
  destruct (Z.to_int z) as [d|d]; [apply field_nz_uint|].
  change (String "-" (NilZero.string_of_uint d))
    with ("-" +:+ NilZero.string_of_uint d).
  by rewrite field_app, field_nz_uint.
Qed.

(** A printed integer is read back. *)
Lemma parse_int_Z_to_string z : Csv.parse_int (Num.Z_to_string z) = Some z.
Proof.
  unfold Csv.parse_int, Num.Z_to_string.
  rewrite NilZero.isi.
  - simpl. by rewrite DecimalZ.of_to.
  - destruct z; simpl; try discriminate.
    intros [= H]. by apply Unsigned.to_uint_nonnil in H.
  - destruct z; simpl; try discriminate.
    intros [= H]. by apply Unsigned.to_uint_nonnil in H.
Qed.

(** Fixed-width digits, and so a formatted date, hold neither commas nor
    line feeds. *)
Lemma field_digit d : 0 <= d <= 9 -> Csv.field (String (Date.digit d) "") = true.
Proof.
  intros Hd.
  assert (Hc : d = 0 \/ d = 1 \/ d = 2 \/ d = 3 \/ d = 4 \/ d = 5 \/ d = 6
               \/ d = 7 \/ d = 8 \/ d = 9) by lia.
  repeat (destruct Hc as [-> | Hc]; [reflexivity|]). by subst.
Qed.

(** A field, one character at a time. *)
Lemma field_cons c s : Csv.field (String c s) = Csv.field (String c "") && Csv.field s.
Proof. change (String c s) with (String c "" +:+ s). apply field_app. Qed.

(** Padded digits are a field. *)
Lemma field_pad n v : Csv.field (Date.pad n v) = true.
Proof.
  induction n as [|n IH]; [done|]. cbn [Date.pad].
  rewrite field_cons, IH, field_digit; [done|].
  assert (0 < 10 ^ Z.of_nat n) by (apply Z.pow_pos_nonneg; lia).
  Z.to_euclidean_division_equations; lia.
Qed.

(** A formatted date is a field. *)
Lemma field_format f : Csv.field (Date.format f) = true.
Proof.
  unfold Date.format, Date.year_string.
  rewrite !field_app, !field_pad.
  destruct ((0 <=? Date.year f) && (Date.year f <=? 9999));
    [by rewrite field_pad|].
  rewrite field_app, field_pad. by destruct (_ <? _).
Qed.

(** A tag is a field. *)
Lemma field_tag a : Classifier.is_tag a = true -> Csv.field a = true.
Proof. intros H. apply is_tag_cases in H. by destruct H as [-> | [-> | ->]]. Qed.


(** A row of the export is its text and a line feed. *)
Lemma csv_line_text r iso : Reporter.csv_line r iso = row_text r iso +:+ Reporter.nl.
Proof. unfold Reporter.csv_line, row_text. by rewrite !append_assoc. Qed.

(** The text of a row is a line: it holds no line feed. *)
Lemma row_text_line r iso :
  Csv.field iso = true -> Csv.field (Store.agent (Store.stat r)) = true ->
  Csv.lacks (ascii_of_nat 10) (row_text r iso) = true.
Proof.
  intros Hi Ha. unfold row_text. rewrite !lacks_app.
  unfold Csv.field in *.
  apply andb_true_iff in Hi. destruct Hi as [_ Hi].
  apply andb_true_iff in Ha. destruct Ha as [_ Ha].
  repeat match goal with
         | |- context [Csv.lacks _ (Num.Z_to_string ?z)] =>
             let H := fresh in
             pose proof (field_Z_to_string z) as H; unfold Csv.field in H;
             apply andb_true_iff in H; destruct H as [_ H]; rewrite H; clear H
         end.
  by rewrite Hi, Ha.
Qed.

(** A row is read back from its text. *)
Lemma parse_row_text r iso :
  Date.toISOString (Store.ts (Store.stat r)) = Some iso ->
  Csv.field (Store.agent (Store.stat r)) = true ->
  Csv.parse_row (row_text r iso) = Some r.
Proof.
  intros Hiso Ha.
  assert (Hfi : Csv.field iso = true).
  { unfold Date.toISOString in Hiso. destruct (_ && _); [|done].
    injection Hiso as <-. apply field_format. }
  assert (Hc : forall s, Csv.field s = true -> Csv.lacks "," s = true).
  { intros s H. unfold Csv.field in H. by apply andb_true_iff in H as [H _]. }
  unfold Csv.parse_row, row_text. norm_app.
  rewrite !split_field by (apply Hc; auto using field_Z_to_string).
  rewrite split_last by (apply Hc; auto using field_Z_to_string).
  rewrite !parse_int_Z_to_string, (parse_iso_round_trip _ _ Hiso).
  rewrite !bind_some. by destruct r as [i []].
Qed.

(** Splitting always yields a first part. *)
Lemma split_cons c s : exists l ls, Url.split c s = l :: ls.
Proof.
  induction s as [|x s (l & ls & IH)]; simpl; [by eauto|].
  destruct (Ascii.eqb x c); [by eauto|]. rewrite IH. eauto.
Qed.

(** Reading the rows, one line at a time. *)
Lemma parse_rows_cons x y ys :
  Csv.parse_rows (x :: y :: ys)
  = Csv.parse_row x ≫= fun r => Csv.parse_rows (y :: ys) ≫= fun rs => Some (r :: rs).
Proof. reflexivity. Qed.

(** The data rows of an export are read back. *)
Lemma parse_csv_rows rows :
  well_kept rows ->
  Csv.parse_rows (Url.split (ascii_of_nat 10) (csv_rows rows)) = Some rows.
Proof.
  induction 1 as [|r rows [Ha Ht] _ IH]; [done|].
  cbn [csv_rows].
  assert (Hiso : exists iso, Date.toISOString (Store.ts (Store.stat r)) = Some iso).
  { unfold Date.toISOString.
    destruct (Z.leb_spec (- Date.MAX_TIME) (Store.ts (Store.stat r))); [|lia].
    destruct (Z.leb_spec (Store.ts (Store.stat r)) Date.MAX_TIME); [|lia].
    by eexists. }
  destruct Hiso as [iso Hiso]. rewrite Hiso. cbn [default from_option id].
  unfold Reporter.nl, Http.chr. norm_app.
  assert (Hfi : Csv.field iso = true).
  { unfold Date.toISOString in Hiso. destruct (_ && _); [|done].
    injection Hiso as <-. apply field_format. }
  rewrite split_field by (apply row_text_line; auto using field_tag).
  destruct (split_cons (ascii_of_nat 10) (csv_rows rows)) as (l & ls & Hs).
  rewrite Hs in *. rewrite parse_rows_cons.
  rewrite parse_row_text by auto using field_tag.
  rewrite bind_some, IH, bind_some. done.
Qed.

(** The loop of the export writes the rows after what is already written. *)
Lemma write_rows_text rows : forall res t,
  well_kept rows -> Http.body res = Http.Text t ->
  exists res',
    Reporter.write_rows rows res = (res', true)
    /\ Http.body res' = Http.Text (t +:+ csv_rows rows)
    /\ Http.statusCode res' = Http.statusCode res
    /\ Http.headers res' = Http.headers res.
Proof.
  induction rows as [|r rows IH]; intros res t Hk Hb.
  { exists res. simpl. rewrite Hb.
    replace (t +:+ "") with t; [done|]. clear. induction t; [done|].
    rewrite append_cons. by f_equal. }
  inversion Hk as [|? ? [Ha Ht] Hk']; subst.
  cbn [Reporter.write_rows csv_rows].
  unfold Date.toISOString at 1.
  destruct (Z.leb_spec (- Date.MAX_TIME) (Store.ts (Store.stat r))); [|lia].
  destruct (Z.leb_spec (Store.ts (Store.stat r)) Date.MAX_TIME); [|lia].
  cbn [andb].
  destruct (IH (Http.write (Reporter.csv_line r
              (Date.format (Date.fields_of (Store.ts (Store.stat r))))) res)
              (t +:+ Reporter.csv_line r
                 (Date.format (Date.fields_of (Store.ts (Store.stat r))))))
    as (res' & Hw & Hb' & Hs & Hh); [done|by simpl; rewrite Hb|].
  exists res'. split; [done|]. split; [|done].
  rewrite Hb'. f_equal. rewrite csv_line_text, !append_assoc. do 2 f_equal.
  unfold Date.toISOString.
  destruct (Z.leb_spec (- Date.MAX_TIME) (Store.ts (Store.stat r))); [|lia].
  destruct (Z.leb_spec (Store.ts (Store.stat r)) Date.MAX_TIME); [|lia].
  done.
Qed.

(** A whole export is read back. *)
Lemma parse_export rows :
  well_kept rows ->
  Csv.parse (Reporter.CSV_HEADER +:+ csv_rows rows) = Some rows.
Proof.
  intros Hk. unfold Csv.parse, Reporter.CSV_HEADER.
  set (h := "id,ts_iso,agent,in_bytes,est_tokens,out_bytes,upstream_status,duration_ms").
  rewrite append_assoc. unfold Reporter.nl at 1, Http.chr. norm_app.
  rewrite split_field by (by vm_compute).
  rewrite String.eqb_refl. by apply parse_csv_rows.
Qed.

(** The order of the keys is total. *)
#[local] Instance id_le_total : Total Store.id_le.
Proof. intros r1 r2. unfold Store.id_le. lia. Qed.

(** The rows of [listRaw] are in ascending order of [id], and they are as
    well kept as the table. *)
Lemma listRaw_sorted since af d : Sorted Store.id_le (listRaw since af d).
Proof. rewrite listRaw_selected. apply Sorted_merge_sort, _. Qed.

(** The selected rows are as well kept as the table. *)
Lemma listRaw_well_kept since af d :
  well_kept (Store.table d) -> well_kept (listRaw since af d).
Proof.
  unfold well_kept. rewrite !Forall_forall. intros H r Hr.
  apply elem_of_listRaw in Hr. apply H, Hr.
Qed.

(** The handler of [/stats/export], run on its own over a well-kept store:
    it answers 200 with the header row followed by the selected rows in
    ascending order of [id], and the text reads back as those rows, each
    timestamp to the millisecond. *)
Lemma export_handler_round_trip d now req :
  Store.failing d = false -> well_kept (Store.table d) ->
  let rows := listRaw (window now (query req)) (agent_filter (query req)) d in
  exists r,
    Reporter.exportHandler (ready d) now req Http.fresh = Reporter.Sent r
    /\ Http.statusCode r = 200
    /\ Http.header "Content-Type" (Http.headers r) = Some "text/csv; charset=utf-8"
    /\ Http.body r = Http.Text (Reporter.CSV_HEADER +:+ csv_rows rows)
    /\ Http.ended r = true
    /\ Sorted Store.id_le rows
    /\ Csv.parse (Reporter.CSV_HEADER +:+ csv_rows rows) = Some rows.
Proof.
  intros Hf Hk rows.
  pose proof (listRaw_well_kept (window now (query req))
                (agent_filter (query req)) d Hk) as Hk'. fold rows in Hk'.
  unfold Reporter.exportHandler, Reporter.export_try.
  cbn [ready db Reporter.is_some negb orb selectAllRows has_stmt prepared Nat.leb].
  rewrite (proj2 (handler_selection d now (query req) Hf)). fold rows.
  set (r1 := {| Http.statusCode := 200;
                Http.headers := [("Content-Type", "text/csv; charset=utf-8")];
                Http.headersSent := false; Http.body := Http.NoBody;
                Http.ended := false |}).
  change (Http.setHeader "Content-Type" "text/csv; charset=utf-8" Http.fresh)
    with (Some r1).
  destruct (write_rows_text rows (Http.write Reporter.CSV_HEADER r1)
              Reporter.CSV_HEADER Hk' eq_refl) as (res' & Hw & Hb & Hs & Hh).
  cbn [Http.statusCode Http.headers Http.body Http.ended] in *.
  rewrite Hw. eexists. split; [reflexivity|].
  cbn [Http.finish Http.statusCode Http.headers Http.body Http.ended].
  rewrite Hs, Hh, Hb. repeat split; try done.
  - apply listRaw_sorted.
  - by apply parse_export.
Qed.

(** The classifier yields a tag. *)
Lemma classify_is_tag u : Classifier.is_tag (Classifier.classify u) = true.
Proof.
  unfold Classifier.classify. destruct (JS.indexOf "?" u); [|reflexivity].
  cbv zeta.
  destruct (Classifier.is_tag (JS.toLowerCase _)) eqn:Ht; [|reflexivity].
  apply is_tag_cases in Ht. destruct Ht as [-> | [-> | ->]]; reflexivity.
Qed.

(** A request keeps the store well kept: the row it appends carries the tag
    of the classifier and the reading of the clock. *)
Lemma run_well_kept cfg trace : forall s,
  Forall valid_clock trace -> Classifier.is_tag (agent s) = true ->
  well_kept (rows_of s) -> well_kept (rows_of (run cfg s trace)).
Proof.
  induction trace as [|e trace IH]; intros s Hc Ha Hk; [done|].
  inversion Hc as [|? ? He Hc']; subst.
  rewrite run_cons. apply IH; [done|by rewrite (proj1 (step_locals cfg s e))|].
  destruct e as [st hs|c|t1 t2| |m|];
    try (unfold rows_of; by rewrite step_stats).
  destruct (end_rows cfg s t1 t2)
    as [Hr | (st & n & d & _ & _ & _ & _ & _ & _ & Hr)]; rewrite Hr; [done|].
  apply Forall_app. split; [done|]. constructor; [|constructor].
  simpl. split; [done|]. exact He.
Qed.

(** What [res.json] makes of a response whose headers are not sent. *)
Lemma json_unsent fields res :
  Http.headersSent res = false ->
  Http.json fields res
  = Some {| Http.statusCode := Http.statusCode res;
            Http.headers := Http.put_header "Content-Type"
                              "application/json; charset=utf-8" (Http.headers res);
            Http.headersSent := true;
            Http.body := Http.Json fields;
            Http.ended := true |}.
Proof.
  intros H. unfold Http.json, Http.send_json, Http.type_json, Http.setHeader.
  by rewrite H.
Qed.

(** With persistence disabled, the handler of [/stats], run on its own,
    answers with the status it was given (200) and the handler of
    [/stats/export] with 400, both with the same error object. *)
Lemma disabled_handlers st now req res :
  db st = None \/ prepared st = O ->
  Http.headersSent res = false ->
  (exists r, Reporter.statsHandler st now req res = Reporter.Sent r
             /\ Http.statusCode r = Http.statusCode res
             /\ Http.body r = Http.Json [("error", Http.JStr "stats persistence disabled")])
  /\ (exists r, Reporter.exportHandler st now req res = Reporter.Sent r
                /\ Http.statusCode r = 400
                /\ Http.body r = Http.Json [("error", Http.JStr "stats persistence disabled")]).
Proof.
  intros Hd Hs.
  assert (Hoff1 : negb (Reporter.is_some (db st)) || negb (selectSummaryAll st) = true).
  { destruct Hd as [H|H]; unfold selectSummaryAll, has_stmt; rewrite H; simpl;
      [done|by rewrite orb_true_r]. }
  assert (Hoff2 : negb (Reporter.is_some (db st)) || negb (selectAllRows st) = true).
  { destruct Hd as [H|H]; unfold selectAllRows, has_stmt; rewrite H; simpl;
      [done|by rewrite orb_true_r]. }
  split.
  - unfold Reporter.statsHandler, Reporter.stats_try. rewrite Hoff1.
    rewrite json_unsent by done. eexists. split; [done|]. done.
  - unfold Reporter.exportHandler, Reporter.export_try. rewrite Hoff2.
    rewrite json_unsent by done. eexists. split; [done|]. done.
Qed.

(** C6 (a defect of the code): a request for [/stats?periodMinutes=5], and
    one for [/stats/export?periodMinutes=5], is answered by the 404 handler,
    which is registered before the two routes.  No window is applied: the
    answer is the same 404 whatever the store holds and whatever the clock
    reads.  Run on their own, the
    handlers do apply the window: of the four rows, the two at or after
    [now] minus five minutes are summarised and exported. *)
Theorem stats_window_answers_not_found :
  let req := Sample.get "/stats?periodMinutes=5" Sample.q5 in
  let reqx := Sample.get "/stats/export?periodMinutes=5" Sample.q5 in
  (forall e, App.app e req = App.Responded (not_found_reply req))
  /\ (forall e, App.app e reqx = App.Responded (not_found_reply reqx))
  /\ Http.statusCode (not_found_reply req) = 404
  /\ Http.body (not_found_reply req) = Http.Json [("error", Http.JStr "Not Found")]
  /\ Reporter.statsHandler (ready Sample.db4) 600000 req Http.fresh
     = Reporter.Sent
         {| Http.statusCode := 200;
            Http.headers := [("Content-Type", "application/json; charset=utf-8")];
            Http.headersSent := true;
            Http.body :=
              Http.StatsReply (Some (Num.Fin (5 # 1))) None
                {[ "tester" := {| Store.requests := 1; Store.sum_in := 50;
                                  Store.sum_out := 5; Store.avg_ms := 2 # 1 |};
                   "coder" := {| Store.requests := 1; Store.sum_in := 300;
                                 Store.sum_out := 30; Store.avg_ms := 9 # 1 |} ]};
            Http.ended := true |}
  /\ Reporter.export_rows (ready Sample.db4) 600000 Sample.q5
     = Some [Sample.row 3 400000 "tester" 50 5 200 2;
             Sample.row 4 590000 "coder" 300 30 502 9].
Proof.
  cbv zeta. split; [|split].
  - intros e. by apply reporting_paths_not_found; [|left].
  - intros e. by apply reporting_paths_not_found; [|right].
  - repeat split; vm_compute; reflexivity.
Qed.

(** C8 (a defect of the code): a request for [/stats/export] is answered by
    the 404 handler with a JSON object, not with the CSV file, whatever the
    store holds.  Run on its own, the handler writes the header row and one
    row per record in ascending order of [id] (and that text reads back as
    the records: [export_handler_round_trip]). *)
Theorem export_answers_not_found :
  let req := Sample.get "/stats/export" Sample.no_query in
  (forall e, App.app e req = App.Responded (not_found_reply req))
  /\ Http.statusCode (not_found_reply req) = 404
  /\ Http.body (not_found_reply req) = Http.Json [("error", Http.JStr "Not Found")]
  /\ Reporter.exportHandler (ready Sample.db4) 600000 req Http.fresh
     = Reporter.Sent
         {| Http.statusCode := 200;
            Http.headers := [("Content-Type", "text/csv; charset=utf-8")];
            Http.headersSent := true;
            Http.body :=
              Http.Text
                ("id,ts_iso,agent,in_bytes,est_tokens,out_bytes,upstream_status,duration_ms"
                 +:+ Reporter.nl
                 +:+ "1,1970-01-01T00:00:01.000Z,coder,100,25,10,200,5" +:+ Reporter.nl
                 +:+ "2,1970-01-01T00:02:00.000Z,coder,200,50,20,200,7" +:+ Reporter.nl
                 +:+ "3,1970-01-01T00:06:40.000Z,tester,50,12,5,200,2" +:+ Reporter.nl
                 +:+ "4,1970-01-01T00:09:50.000Z,coder,300,75,30,502,9" +:+ Reporter.nl);
            Http.ended := true |}.
Proof.
  cbv zeta. split.
  - intros e. by apply reporting_paths_not_found; [|right].
  - repeat split; vm_compute; reflexivity.
Qed.

(** C9 (a defect of the code): a request for [/stats?agent=unknown], and one
    for [/stats/export?agent=unknown], is answered by the 404 handler; no
    filter is applied.  Run on their own, the handlers filter on the literal
    [unknown] and select nothing, where the classifier would have fallen
    back to [manager]. *)
Theorem unknown_agent_answers_not_found :
  let req := Sample.get "/stats?agent=unknown" Sample.q_unknown in
  let reqx := Sample.get "/stats/export?agent=unknown" Sample.q_unknown in
  (forall e, App.app e req = App.Responded (not_found_reply req))
  /\ (forall e, App.app e reqx = App.Responded (not_found_reply reqx))
  /\ Http.statusCode (not_found_reply req) = 404
  /\ Reporter.summary_rows (ready Sample.db4) 600000 Sample.q_unknown = Some ∅
  /\ Reporter.export_rows (ready Sample.db4) 600000 Sample.q_unknown = Some []
  /\ Classifier.classify "/?agent=unknown" = "manager".
Proof.
  cbv zeta. split; [|split].
  - intros e. by apply reporting_paths_not_found; [|left].
  - intros e. by apply reporting_paths_not_found; [|right].
  - repeat split; vm_compute; reflexivity.
Qed.

(** C10 (a defect of the code): with persistence disabled, a request for
    [/stats] and one for [/stats/export] are both answered by the 404
    handler, with the body [{error: "Not Found"}].  Run on their own, the
    handlers answer with 200 and with 400, both with the body
    [{error: "stats persistence disabled"}]. *)
Theorem disabled_stats_answer_not_found :
  let req := Sample.get "/stats" Sample.no_query in
  let reqx := Sample.get "/stats/export" Sample.no_query in
  (forall cfg now uptime,
      App.app {| App.cfg := cfg; App.stats := disabled; App.now := now;
                 App.uptime := uptime |} req
      = App.Responded (not_found_reply req))
  /\ (forall cfg now uptime,
        App.app {| App.cfg := cfg; App.stats := disabled; App.now := now;
                   App.uptime := uptime |} reqx
        = App.Responded (not_found_reply reqx))
  /\ Http.statusCode (not_found_reply req) = 404
  /\ Http.statusCode (not_found_reply reqx) = 404
  /\ Http.body (not_found_reply req) = Http.Json [("error", Http.JStr "Not Found")]
  /\ Reporter.statsHandler disabled 600000 req Http.fresh
     = Reporter.Sent
         {| Http.statusCode := 200;
            Http.headers := [("Content-Type", "application/json; charset=utf-8")];
            Http.headersSent := true;
            Http.body := Http.Json [("error", Http.JStr "stats persistence disabled")];
            Http.ended := true |}
  /\ Reporter.exportHandler disabled 600000 reqx Http.fresh
     = Reporter.Sent
         {| Http.statusCode := 400;
            Http.headers := [("Content-Type", "application/json; charset=utf-8")];
            Http.headersSent := true;
            Http.body := Http.Json [("error", Http.JStr "stats persistence disabled")];
            Http.ended := true |}.
Proof.
  cbv zeta. split; [|split].
  - intros cfg now uptime. by apply reporting_paths_not_found; [|left].
  - intros cfg now uptime. by apply reporting_paths_not_found; [|right].
  - repeat split; vm_compute; reflexivity.
Qed.

(** ** The request body on its way to the upstream *)

(** The range test, as bounds. *)
Lemma between_iff lo hi b : Utf8.between lo hi b = true <-> lo <= b <= hi.
Proof. unfold Utf8.between. rewrite andb_true_iff, !Z.leb_le. done. Qed.

(** The failed range test, as bounds. *)
Lemma between_false lo hi b : Utf8.between lo hi b = false <-> b < lo \/ hi < b.
Proof. unfold Utf8.between. rewrite andb_false_iff, !Z.leb_gt. done. Qed.

Ltac ranges :=
  unfold Utf8.cont, Utf8.second_lo, Utf8.second_hi in *;
  repeat match goal with
    | H : Utf8.between _ _ _ = true |- _ => apply between_iff in H
    | H : Utf8.between _ _ _ = false |- _ => apply between_false in H
    | H : _ && _ = true |- _ => apply andb_true_iff in H; destruct H
    end.

(** The octets of a code point that is not a surrogate stand alone. *)
Lemma encode_scalar cp us :
  cp < 55296 \/ 57343 < cp -> cp < 65536 ->
  Utf8.encode (cp :: us) = Utf8.octets cp ++ Utf8.encode us.
Proof.
  intros H1 H2. cbn [Utf8.encode].
  destruct (Utf8.between 55296 56319 cp) eqn:Ha; [ranges; lia|].
  destruct (Utf8.between 56320 57343 cp) eqn:Hb; [ranges; lia|]. done.
Qed.

(** The two code units of a code point above the basic plane are read back
    as that code point. *)
Lemma encode_pair cp us :
  65536 <= cp <= 1114111 ->
  Utf8.encode (Utf8.units cp ++ us) = Utf8.octets cp ++ Utf8.encode us.
Proof.
  intros H. unfold Utf8.units.
  destruct (cp <? 65536) eqn:Hlt; [apply Z.ltb_lt in Hlt; lia|].
  cbn [app Utf8.encode].
  destruct (Utf8.between 55296 56319 _) eqn:Ha;
    [|apply between_false in Ha; Z.to_euclidean_division_equations; lia].
  destruct (Utf8.between 56320 57343 _) eqn:Hb;
    [|apply between_false in Hb; Z.to_euclidean_division_equations; lia].
  f_equal. f_equal. Z.to_euclidean_division_equations; lia.
Qed.

(** The octets of a decoded two-, three- and four-octet sequence are the
    sequence. *)
Lemma octets2 b0 b1 :
  194 <= b0 <= 223 -> 128 <= b1 <= 191 ->
  Utf8.octets ((b0 - 192) * 64 + (b1 - 128)) = [b0; b1].
Proof.
  intros H0 H1. unfold Utf8.octets.
  destruct (_ <? 128) eqn:Ha; [apply Z.ltb_lt in Ha; lia|].
  destruct (_ <? 2048) eqn:Hb; [|apply Z.ltb_ge in Hb; lia].
  f_equal; [|f_equal]; Z.to_euclidean_division_equations; lia.
Qed.

Lemma octets3 b0 b1 b2 :
  224 <= b0 <= 239 -> 128 <= b1 <= 191 -> 128 <= b2 <= 191 ->
  2048 <= (b0 - 224) * 4096 + (b1 - 128) * 64 + (b2 - 128) ->
  Utf8.octets ((b0 - 224) * 4096 + (b1 - 128) * 64 + (b2 - 128)) = [b0; b1; b2].
Proof.
  intros H0 H1 H2 Hlo. unfold Utf8.octets.
  destruct (_ <? 128) eqn:Ha; [apply Z.ltb_lt in Ha; lia|].
  destruct (_ <? 2048) eqn:Hb; [apply Z.ltb_lt in Hb; lia|].
  destruct (_ <? 65536) eqn:Hc; [|apply Z.ltb_ge in Hc; lia].
  f_equal; [|f_equal; [|f_equal]]; Z.to_euclidean_division_equations; lia.
Qed.

Lemma octets4 b0 b1 b2 b3 :
  240 <= b0 <= 244 -> 128 <= b1 <= 191 -> 128 <= b2 <= 191 -> 128 <= b3 <= 191 ->
  65536 <= (b0 - 240) * 262144 + (b1 - 128) * 4096 + (b2 - 128) * 64 + (b3 - 128) ->
  Utf8.octets ((b0 - 240) * 262144 + (b1 - 128) * 4096 + (b2 - 128) * 64 + (b3 - 128))
  = [b0; b1; b2; b3].
Proof.
  intros H0 H1 H2 H3 Hlo. unfold Utf8.octets.
  destruct (_ <? 128) eqn:Ha; [apply Z.ltb_lt in Ha; lia|].
  destruct (_ <? 2048) eqn:Hb; [apply Z.ltb_lt in Hb; lia|].
  destruct (_ <? 65536) eqn:Hc; [apply Z.ltb_lt in Hc; lia|].
  f_equal; [|f_equal; [|f_equal; [|f_equal]]]; Z.to_euclidean_division_equations; lia.
Qed.

(** The range of the second octet, as bounds. *)
Lemma second_range b0 b1 :
  Utf8.between (Utf8.second_lo b0) (Utf8.second_hi b0) b1 = true ->
  128 <= b1 <= 191
  /\ (b0 = 224 -> 160 <= b1) /\ (b0 = 237 -> b1 <= 159)
  /\ (b0 = 240 -> 144 <= b1) /\ (b0 = 244 -> b1 <= 143).
Proof.
  intros H. apply between_iff in H. unfold Utf8.second_lo, Utf8.second_hi in H.
  repeat match type of H with
         | context [?a =? ?b] => destruct (Z.eqb_spec a b)
         end; lia.
Qed.

(** Decoding a well-formed buffer and encoding the string again gives the
    buffer back. *)
Lemma encode_decode_fuel (n : nat) : forall bs,
  (length bs <= n)%nat -> Utf8.well_formed bs = true ->
  Utf8.encode (Utf8.decode bs) = bs.
Proof.
  induction n as [|n IH]; intros bs Hn Hwf.
  { destruct bs; [done|simpl in Hn; lia]. }
  destruct bs as [|b0 r0]; [done|].
  cbn [Utf8.well_formed Utf8.decode] in *.
  destruct (Utf8.between 0 127 b0) eqn:H1.
  { ranges. rewrite encode_scalar by lia.
    unfold Utf8.octets. destruct (b0 <? 128) eqn:E; [|apply Z.ltb_ge in E; lia].
    cbn [app]. f_equal. apply IH; [simpl in Hn; lia|done]. }
  destruct (Utf8.between 194 223 b0) eqn:H2.
  { destruct r0 as [|b1 r1]; [done|].
    apply andb_true_iff in Hwf. destruct Hwf as [Hc Hwf]. rewrite Hc.
    ranges. rewrite encode_scalar by lia. rewrite octets2 by lia.
    cbn [app]. do 2 f_equal. apply IH; [simpl in Hn; lia|done]. }
  destruct (Utf8.between 224 239 b0) eqn:H3.
  { destruct r0 as [|b1 [|b2 r2]]; [done|done|].
    apply andb_true_iff in Hwf. destruct Hwf as [Hwf Hr].
    apply andb_true_iff in Hwf. destruct Hwf as [Hs Hc]. rewrite Hs, Hc.
    apply second_range in Hs. ranges.
    rewrite encode_scalar by lia. rewrite octets3 by lia.
    cbn [app]. do 3 f_equal. apply IH; [simpl in Hn; lia|done]. }
  destruct (Utf8.between 240 244 b0) eqn:H4; [|done].
  destruct r0 as [|b1 [|b2 [|b3 r3]]]; [done|done|done|].
  apply andb_true_iff in Hwf. destruct Hwf as [Hwf Hr].
  apply andb_true_iff in Hwf. destruct Hwf as [Hwf Hc3].
  apply andb_true_iff in Hwf. destruct Hwf as [Hs Hc2]. rewrite Hs, Hc2, Hc3.
  apply second_range in Hs. ranges.
  rewrite encode_pair by lia. rewrite octets4 by lia.
  cbn [app]. do 4 f_equal. apply IH; [simpl in Hn; lia|done].
Qed.

(** The same without the bound on the length. *)
Lemma encode_decode bs :
  Utf8.well_formed bs = true -> Utf8.encode (Utf8.decode bs) = bs.
Proof. apply (encode_decode_fuel (length bs)). done. Qed.

(** A body that is well-formed UTF-8 reaches the upstream octet for octet,
    and [inBytes] is its length. *)
Lemma well_formed_body_forwarded cfg st now req buf res0 :
  Utf8.well_formed buf = true ->
  let s := proxyHandler cfg st now (set_rawBody (verify buf) req) res0 in
  written (upstream s) = match buf with [] => [] | _ => [buf] end
  /\ inBytes s = Z.of_nat (length buf).
Proof.
  intros Hwf. cbn [proxyHandler upstream written inBytes]. rewrite body_of_set.
  unfold Utf8.byteLength.
  destruct buf as [|b bs]; [done|].
  unfold verify. rewrite (encode_decode _ Hwf).
  split; [|done].
  destruct (Utf8.decode (b :: bs)) eqn:Hd; [|done].
  pose proof (encode_decode _ Hwf) as H. rewrite Hd in H. done.
Qed.

(** C2 (a defect of the code): a JSON body with the single octet FF inside
    a string, which the body parser accepts, is handed to [proxyHandler]
    and written to the upstream with the three octets EF BF BD in place of
    FF; [inBytes] is 11 for the 9 octets received.  And a [POST] without a
    content type, whose body the parser leaves unread, is forwarded with
    no body at all and [inBytes = 0]. *)
Theorem non_utf8_body_is_rewritten :
  (exists s,
      App.app (Sample.env (ready Store.empty) 1000)
              (Sample.post "/" Sample.latin1_body)
      = App.Forwarding s
      /\ written (upstream s) = [[123; 34; 97; 34; 58; 34; 239; 191; 189; 34; 125]]
      /\ inBytes s = 11)
  /\ Sample.latin1_body = [123; 34; 97; 34; 58; 34; 255; 34; 125]
  /\ Z.of_nat (length Sample.latin1_body) = 9
  /\ Utf8.well_formed Sample.latin1_body = false
  /\ (exists s,
        App.app (Sample.env (ready Store.empty) 1000)
                (Sample.post_untyped "/" Sample.json_body)
        = App.Forwarding s
        /\ written (upstream s) = []
        /\ inBytes s = 0
        /\ Http.header "Content-Type" (o_headers (opts (upstream s)))
           = Some "application/json")
  /\ Z.of_nat (length Sample.json_body) = 7.
Proof.
  split; [eexists; split; [reflexivity|]; by repeat split|].
  repeat split. eexists; split; [reflexivity|]; by repeat split.
Qed.

(** * Further properties of the code *)

Import Routes Relay Ledger Tally.

(** ** The router *)


Lemma parsed_fields req :
  url (parsed req) = url req /\ id (parsed req) = id req
  /\ method (parsed req) = method req /\ originalUrl (parsed req) = originalUrl req
  /\ headers (parsed req) = headers req.
Proof. unfold parsed. by destruct (payload req). Qed.

Lemma greeted_unsent req : Http.headersSent (greeted req) = false.
Proof. unfold greeted. by destruct (JS.truthy _). Qed.

(** The three middlewares on a request that the body parser lets pass. *)
Lemma middleware_pass rest req :
  payload req <> Rejected ->
  App.dispatch (App.middleware ++ rest) false req Http.fresh
  = App.dispatch rest false (parsed req) (greeted req).
Proof.
  intros Hpay. unfold App.middleware. cbn [app].
  rewrite dispatch_run by done. cbn [App.handle App.use].
  assert (Hrest : forall r, id r = id req ->
            App.dispatch
              (App.use "pino-http" App.Continue
               :: App.use "X-Request-Id" App.echo_request_id :: rest) false r Http.fresh
            = App.dispatch rest false r (greeted req)).
  { intros r Hi. rewrite dispatch_run by done. cbn [App.handle App.use].
    rewrite dispatch_run by done. cbn [App.handle App.use].
    unfold App.echo_request_id, greeted. rewrite Hi.
    by destruct (JS.truthy (id req)). }
  unfold App.express_json, parsed. destruct (payload req); [|done|]; by apply Hrest.
Qed.

(** [res.json] on a response whose headers are not sent. *)
Lemma json_reply_sent code fields res :
  Http.headersSent res = false ->
  Http.json fields (Http.status code res) = Some (json_reply code fields res).
Proof.
  intros Hs. unfold Http.json, Http.send_json, Http.type_json, Http.setHeader.
  cbn [Http.status Http.headersSent]. by rewrite Hs.
Qed.

Lemma status_same res : Http.status (Http.statusCode res) res = res.
Proof. by destruct res. Qed.

(** A request whose body the parser rejects goes to the error handler. *)
Lemma rejected_answer e req :
  payload req = Rejected ->
  App.app e req
  = App.Responded (json_reply 500 [("error", Http.JStr "Internal Server Error")] Http.fresh).
Proof.
  intros Hpay. rewrite reporting_routes_unreachable.
  unfold App.routes_before_404, App.middleware. rewrite <- app_assoc. cbn [app].
  rewrite dispatch_run by done. cbn [App.handle App.use].
  unfold App.express_json. rewrite Hpay.
  rewrite !dispatch_skip by done.
  unfold App.api_routes, App.docs_routes.
  destruct (_ && _); cbn [app]; rewrite !dispatch_skip by done;
    unfold App.catch_all; rewrite dispatch_skip by done;
    rewrite dispatch_run by done; cbn [App.handle]; unfold App.error_middleware;
    cbn [Http.headersSent Http.fresh];
    by rewrite json_reply_sent.
Qed.

Lemma greeted_status req : Http.statusCode (greeted req) = 200.
Proof. unfold greeted. by destruct (JS.truthy _). Qed.

Lemma serves_parsed m path req : serves m path (parsed req) = serves m path req.
Proof.
  unfold serves, App.method_match.
  destruct (parsed_fields req) as (-> & _ & -> & _). done.
Qed.

(** One route at the head of the stack. *)
Lemma dispatch_route m path h ls req res :
  App.dispatch (App.route m path h :: ls) false req res
  = if serves m path req
    then match h req res with
         | App.Continue req' res' => App.dispatch ls false req' res'
         | App.Fail res' => App.dispatch ls true req res'
         | App.Stop o => o
         end
    else App.dispatch ls false req res.
Proof. reflexivity. Qed.


Lemma not_found_greeted req :
  json_reply 404 [("error", Http.JStr "Not Found")] (greeted req) = not_found_reply req.
Proof.
  unfold json_reply, not_found_reply, greeted. by destruct (JS.truthy (id req)).
Qed.

Lemma app_route_table e req :
  payload req <> Rejected -> App.app e req = route_table e req.
Proof.
  intros Hpay. rewrite reporting_routes_unreachable.
  unfold App.routes_before_404. rewrite <- app_assoc.
  rewrite middleware_pass by done.
  pose proof (greeted_unsent req) as Hun.
  pose proof (greeted_status req) as Hst.
  unfold route_table, App.api_routes. cbn [app].
  rewrite dispatch_route, serves_parsed.
  destruct (serves "GET" "/health" req).
  { unfold App.health, App.of_option. rewrite json_unsent by done.
    unfold json_reply, health_fields. by rewrite Hst. }
  rewrite dispatch_route, serves_parsed.
  destruct (serves "GET" "/openapi.json" req).
  { unfold App.openapi_json, openapi_reply, App.of_option.
    destruct (openapiSpec (App.cfg e)).
    - unfold Http.send_json, Http.type_json, Http.setHeader. by rewrite Hun.
    - by rewrite json_reply_sent. }
  assert (Hproxy : App.dispatch
            ([App.route "POST" "/" (App.proxy e);
              App.route "POST" "/v1/chat/completions" (App.proxy e);
              App.route "POST" "/api/v1/chat/completions" (App.proxy e)]
             ++ App.catch_all) false (parsed req) (greeted req)
          = if proxy_route req then
              App.Forwarding (proxyHandler (App.cfg e) (App.stats e) (App.now e)
                                           (parsed req) (greeted req))
            else App.Responded (not_found_reply req)).
  { cbn [app]. unfold proxy_route.
    rewrite dispatch_route, serves_parsed.
    destruct (serves "POST" "/" req); [done|].
    rewrite dispatch_route, serves_parsed.
    destruct (serves "POST" "/v1/chat/completions" req); [done|].
    rewrite dispatch_route, serves_parsed.
    destruct (serves "POST" "/api/v1/chat/completions" req); [done|].
    cbn [orb]. rewrite not_found_answer by done.
    rewrite <- not_found_greeted. done. }
  unfold docs_route, App.docs_routes.
  destruct (swaggerUi (App.cfg e) && Reporter.is_some (openapiSpec (App.cfg e)));
    cbn [app andb]; [|exact Hproxy].
  cbn [App.dispatch App.error_handler App.applies App.handle Bool.eqb andb].
  destruct (parsed_fields req) as (-> & _).
  destruct (App.prefix_match "/docs" (App.path_of (url req))); [done|].
  exact Hproxy.
Qed.


Lemma serves_method m path req :
  serves m path req = true ->
  (method req = m \/ (m = "GET" /\ method req = "HEAD"))
  /\ App.path_match path (App.path_of (url req)) = true.
Proof.
  unfold serves, App.method_match.
  rewrite andb_true_iff, orb_true_iff, andb_true_iff, !String.eqb_eq. tauto.
Qed.

(** A request that a proxy route takes is taken by no route before it. *)
Lemma proxy_route_first e req :
  proxy_route req = true ->
  serves "GET" "/health" req = false /\ serves "GET" "/openapi.json" req = false
  /\ docs_route e req = false.
Proof.
  unfold proxy_route. rewrite !orb_true_iff.
  intros H.
  assert (Hm : method req = "POST"
               /\ (App.path_match "/" (App.path_of (url req)) = true
                   \/ App.path_match "/v1/chat/completions" (App.path_of (url req)) = true
                   \/ App.path_match "/api/v1/chat/completions" (App.path_of (url req)) = true)).
  { destruct H as [[H|H]|H]; apply serves_method in H;
      destruct H as ([Hm|[Hm _]] & Hp); try discriminate Hm; tauto. }
  destruct Hm as (Hm & Hp).
  repeat split.
  - unfold serves, App.method_match. by rewrite Hm.
  - unfold serves, App.method_match. by rewrite Hm.
  - unfold docs_route, App.prefix_match.
    apply andb_false_iff. right.
    destruct Hp as [Hp|[Hp|Hp]]; apply path_match_cases in Hp;
      destruct Hp as [-> | ->]; reflexivity.
Qed.

(** X1: every [POST] to one of the three proxy paths whose body the parser
    lets pass is handed to [proxyHandler], with the raw body that the
    [verify] hook stored and the request id echoed; the upstream request
    always goes to [POST openrouter.ai:443/api/v1/chat/completions], whatever
    the path of the incoming request, carries the key of the configuration
    as its bearer token and exactly six headers, and is ended at once.  (The
    key is one that Node accepts in a header; with another key
    [https.request] throws inside the handler.) *)
Theorem proxy_routes_forward (e : App.Env) (req : Req) :
  payload req <> Rejected -> proxy_route req = true ->
  Wire.header_ok ("Bearer " +:+ OPENROUTER_API_KEY (App.cfg e)) = true ->
  let s := proxyHandler (App.cfg e) (App.stats e) (App.now e) (parsed req) (greeted req) in
  App.app e req = App.Forwarding s
  /\ hostname (opts (upstream s)) = "openrouter.ai"
  /\ port (opts (upstream s)) = 443
  /\ path (opts (upstream s)) = "/api/v1/chat/completions"
  /\ o_method (opts (upstream s)) = "POST"
  /\ map fst (o_headers (opts (upstream s)))
     = ["Content-Type"; "Accept"; "Authorization"; "HTTP-Referer"; "X-Title";
        "X-Request-Id"]
  /\ Http.header "Authorization" (o_headers (opts (upstream s)))
     = Some ("Bearer " +:+ OPENROUTER_API_KEY (App.cfg e))
  /\ Http.header "X-Request-Id" (o_headers (opts (upstream s))) = Some (id req)
  /\ finished (upstream s) = true
  /\ phase s = Waiting.
Proof.
  intros Hpay Hroute _ s.
  destruct (proxy_route_first e req Hroute) as (H1 & H2 & H3).
  split.
  { rewrite app_route_table by done. unfold route_table.
    by rewrite H1, H2, H3, Hroute. }
  repeat split.
  subst s. cbn. destruct (parsed_fields req) as (_ & -> & _). done.
Qed.

Lemma proxy_routes_forward_witness :
  let e := Sample.env (ready Store.empty) 1000 in
  let req := Sample.post "/v1/chat/completions?agent=coder" Sample.json_body in
  payload req <> Rejected /\ proxy_route req = true
  /\ Wire.header_ok ("Bearer " +:+ OPENROUTER_API_KEY (App.cfg e)) = true
  /\ App.app e req
     = App.Forwarding (proxyHandler (App.cfg e) (App.stats e) (App.now e)
                                    (parsed req) (greeted req)).
Proof.
  intros e req.
  assert (H1 : payload req <> Rejected) by done.
  assert (H2 : proxy_route req = true) by reflexivity.
  assert (H3 : Wire.header_ok ("Bearer " +:+ OPENROUTER_API_KEY (App.cfg e)) = true)
    by reflexivity.
  split; [exact H1|]. split; [exact H2|]. split; [exact H3|].
  exact (proj1 (proxy_routes_forward e req H1 H2 H3)).
Defined.





(** X4: a request whose body [express.json] rejects (malformed JSON, a body
    over the limit, an unsupported charset) is answered by the central error
    handler with status 500 and [{"error":"Internal Server Error"}], whatever
    its method and path; the response carries no [X-Request-Id], since the
    middleware that sets it is passed over. *)
Theorem rejected_body_answer (e : App.Env) (req : Req) :
  payload req = Rejected ->
  exists r,
    App.app e req = App.Responded r
    /\ Http.statusCode r = 500
    /\ Http.body r = Http.Json [("error", Http.JStr "Internal Server Error")]
    /\ Http.headers r = [("Content-Type", "application/json; charset=utf-8")]
    /\ Http.header "X-Request-Id" (Http.headers r) = None
    /\ Http.ended r = true.
Proof.
  intros Hpay. eexists. split; [by apply rejected_answer|]. done.
Qed.

Lemma rejected_body_answer_witness :
  let e := Sample.env (ready Store.empty) 1000 in
  let req := {| method := "POST"; originalUrl := "/"; url := "/";
                headers := [("content-type", "application/json")];
                payload := Rejected; query := Sample.no_query; id := "req-4";
                rawBody := None |} in
  payload req = Rejected
  /\ exists r, App.app e req = App.Responded r /\ Http.statusCode r = 500.
Proof.
  intros e req.
  assert (H1 : payload req = Rejected) by reflexivity.
  split; [exact H1|].
  destruct (rejected_body_answer e req H1) as (r & Ha & Hst & _).
  exists r. split; [exact Ha | exact Hst].
Defined.



(** X6: whatever the application answers by itself is a finished JSON
    response with status 200, 404, 500 or 503. *)
Theorem own_answers_are_json (e : App.Env) (req : Req) (r : Http.Res) :
  App.app e req = App.Responded r ->
  Http.ended r = true
  /\ Http.headersSent r = true
  /\ Http.header "Content-Type" (Http.headers r)
     = Some "application/json; charset=utf-8"
  /\ (Http.statusCode r = 200 \/ Http.statusCode r = 404
      \/ Http.statusCode r = 500 \/ Http.statusCode r = 503).
Proof.
  intros Happ.
  assert (Hcase : payload req = Rejected \/ payload req <> Rejected)
    by (destruct (payload req); auto).
  destruct Hcase as [Hr|Hpay].
  { rewrite (rejected_answer e req Hr) in Happ. injection Happ as <-.
    cbn. tauto. }
  rewrite app_route_table in Happ by done. unfold route_table in Happ.
  destruct (serves "GET" "/health" req).
  { injection Happ as <-. cbn. rewrite header_put. tauto. }
  destruct (serves "GET" "/openapi.json" req).
  { injection Happ as <-. unfold openapi_reply.
    destruct (openapiSpec (App.cfg e)); cbn; rewrite header_put, ?greeted_status; tauto. }
  destruct (docs_route e req); [discriminate|].
  destruct (proxy_route req); [discriminate|].
  injection Happ as <-. rewrite <- not_found_greeted. cbn. rewrite header_put. tauto.
Qed.

Lemma own_answers_are_json_witness :
  let e := Sample.env (ready Sample.db4) 1000 in
  let req := Sample.get "/openapi.json" Sample.no_query in
  exists r, App.app e req = App.Responded r
            /\ Http.statusCode r = 503
            /\ Http.header "Content-Type" (Http.headers r)
               = Some "application/json; charset=utf-8".
Proof.
  intros e req. eexists. split; [reflexivity|].
  split; [reflexivity|].
  exact (proj1 (proj2 (proj2 (own_answers_are_json e req _ eq_refl)))).
Defined.

(** ** The documentation routes *)

Lemma lower_char_idem c : JS.lower_char (JS.lower_char c) = JS.lower_char c.
Proof.
  unfold JS.lower_char.
  destruct ((65 <=? JS.ascii_code c) && (JS.ascii_code c <=? 90)) eqn:Hc; [|by rewrite Hc].
  apply andb_true_iff in Hc. destruct Hc as [Ha Hb].
  apply Z.leb_le in Ha. apply Z.leb_le in Hb.
  assert (Hcode : JS.ascii_code (ascii_of_nat (Z.to_nat (JS.ascii_code c + 32)))
                  = JS.ascii_code c + 32).
  { unfold JS.ascii_code at 1. rewrite nat_ascii_embedding by lia. lia. }
  rewrite Hcode.
  destruct (Z.leb_spec (JS.ascii_code c + 32) 90); [lia|].
  by rewrite andb_false_r.
Qed.

Lemma toLowerCase_idem x : JS.toLowerCase (JS.toLowerCase x) = JS.toLowerCase x.
Proof.
  induction x as [|c x IH]; [done|]. cbn [JS.toLowerCase].
  by rewrite IH, lower_char_idem.
Qed.

Lemma openapi_not_health req :
  Routes.serves "GET" "/openapi.json" req = true ->
  Routes.serves "GET" "/health" req = false.
Proof.
  unfold Routes.serves. intros H. apply andb_true_iff in H. destruct H as [_ Hp].
  apply andb_false_iff. right.
  apply path_match_cases in Hp. unfold App.path_match.
  destruct Hp as [-> | ->]; reflexivity.
Qed.

Lemma docs_not_routed req :
  App.prefix_match "/docs" (App.path_of (Server.url req)) = true ->
  Routes.serves "GET" "/health" req = false
  /\ Routes.serves "GET" "/openapi.json" req = false
  /\ Routes.proxy_route req = false.
Proof.
  intros Hd.
  assert (Hno : forall m pat,
            App.prefix_match "/docs" pat = false ->
            App.prefix_match "/docs" (pat +:+ "/") = false ->
            Routes.serves m pat req = false).
  { intros m pat H1 H2. unfold Routes.serves. apply andb_false_iff. right.
    destruct (App.path_match pat (App.path_of (Server.url req))) eqn:Hp; [|done].
    apply path_match_cases in Hp. unfold App.prefix_match in *.
    pose proof toLowerCase_idem as Hl.
    destruct Hp as [Hp|Hp]; rewrite Hp in Hd.
    - assert (Hpat : JS.toLowerCase pat = pat) by (rewrite <- Hp; apply Hl).
      rewrite Hpat in H1. congruence.
    - assert (Hpat : JS.toLowerCase (pat +:+ "/") = pat +:+ "/") by (rewrite <- Hp; apply Hl).
      rewrite Hpat in H2. congruence. }
  unfold Routes.proxy_route.
  rewrite !Hno by reflexivity. done.
Qed.

(** X7: [GET /openapi.json] answers 503 with
    [{"error":"openapi spec not available"}] when the document could not be
    loaded, and the document with status 200 otherwise; the Swagger UI
    takes the requests under [/docs] only when both the module and the
    document are there, and without either of them such a request is
    answered by the 404 handler. *)
Theorem documentation_routes (e : App.Env) (req : Server.Req) :
  Server.payload req <> Server.Rejected ->
  (Routes.serves "GET" "/openapi.json" req = true ->
   exists r,
     App.app e req = App.Responded r
     /\ Http.statusCode r
        = (if Reporter.is_some (Server.openapiSpec (App.cfg e)) then 200 else 503)
     /\ Http.body r
        = match Server.openapiSpec (App.cfg e) with
          | Some doc => Http.Document doc
          | None => Http.Json [("error", Http.JStr "openapi spec not available")]
          end)
  /\ (App.prefix_match "/docs" (App.path_of (Server.url req)) = true ->
      App.app e req
      = if Server.swaggerUi (App.cfg e)
           && Reporter.is_some (Server.openapiSpec (App.cfg e))
        then App.Delegated "swagger-ui" (Routes.greeted req)
        else App.Responded (not_found_reply req)).
Proof.
  intros Hpay. rewrite app_route_table by done. unfold route_table. split.
  - intros Ho. rewrite (openapi_not_health req Ho), Ho.
    eexists. split; [done|]. unfold openapi_reply.
    destruct (Server.openapiSpec (App.cfg e)); cbn; [|done].
    by rewrite greeted_status.
  - intros Hd. destruct (docs_not_routed req Hd) as (-> & -> & ->).
    unfold docs_route. rewrite Hd, andb_true_r. done.
Qed.

Lemma documentation_routes_witness :
  let e := Sample.env (Server.ready Store.empty) 1000 in
  let req := Sample.get "/docs/index.html" Sample.no_query in
  Server.payload req <> Server.Rejected
  /\ App.prefix_match "/docs" (App.path_of (Server.url req)) = true
  /\ App.app e req = App.Responded (not_found_reply req).
Proof.
  intros e req.
  assert (H1 : Server.payload req <> Server.Rejected) by done.
  assert (H2 : App.prefix_match "/docs" (App.path_of (Server.url req)) = true)
    by reflexivity.
  split; [exact H1|]. split; [exact H2|].
  exact (proj2 (documentation_routes e req H1) H2).
Defined.

(** ** The relay of the upstream response *)


Lemma piped_snoc chunks c b :
  piped (chunks ++ [c]) b
  = match piped chunks b with
    | Http.Relay cs => Http.Relay (cs ++ [c])
    | _ => Http.Relay [c]
    end.
Proof.
  unfold piped. destruct chunks as [|c0 chunks]; cbn [app].
  - by destruct b.
  - by rewrite <- app_assoc.
Qed.

Lemma step_data cfg s c st n :
  uncaught s = None -> phase s = Streaming st n ->
  step cfg s (UpstreamData c) = on_data c st n s.
Proof. intros Hu Hp. unfold step. by rewrite Hu, Hp. Qed.

Lemma total_length_snoc chunks c :
  total_length (chunks ++ [c]) = total_length chunks + Z.of_nat (length c).
Proof.
  unfold total_length. induction chunks as [|x l IH]; cbn; [lia|].
  cbn in IH. rewrite IH. lia.
Qed.

Lemma run_data_res cfg chunks : forall s st n,
  uncaught s = None -> phase s = Streaming st n ->
  let s' := run cfg s (map UpstreamData chunks) in
  uncaught s' = None /\ phase s' = Streaming st (n + total_length chunks)
  /\ Http.statusCode (res s') = Http.statusCode (res s)
  /\ Http.headers (res s') = Http.headers (res s)
  /\ Http.ended (res s') = Http.ended (res s)
  /\ Http.body (res s') = piped chunks (Http.body (res s))
  /\ upstream s' = upstream s.
Proof.
  induction chunks as [|c chunks IH] using rev_ind; intros s st n Hu Hp; cbn zeta.
  { cbn. rewrite Z.add_0_r. done. }
  rewrite map_app, run_app. cbn [map].
  destruct (IH s st n Hu Hp) as (Hu' & Hp' & Hst & Hh & He & Hb & Hup).
  set (s1 := run cfg s (map UpstreamData chunks)) in *.
  change (run cfg s1 [UpstreamData c]) with (step cfg s1 (UpstreamData c)).
  rewrite (step_data cfg s1 c st _ Hu' Hp').
  unfold on_data. cbn.
  rewrite Hu', Hst, Hh, He, Hb, Hup, piped_snoc, total_length_snoc.
  repeat split; try done. f_equal. lia.
Qed.

(** X8: an upstream response that streams to its end reaches the caller
    unchanged: the caller gets the upstream's status code (502 if the
    response has none), the upstream's headers on top of its own, and the
    upstream's chunks in their order, and then the response is ended;
    whether the telemetry insert succeeds makes no difference. *)
Theorem upstream_response_is_relayed (cfg : Config) (s : State) (st : option Z)
  (hs : list (string * string)) (chunks : list (list Z)) (t1 t2 : Z) :
  uncaught s = None -> phase s = Waiting -> Http.headersSent (res s) = false ->
  let s' := run cfg s (streamed st hs chunks t1 t2) in
  Http.statusCode (res s') = code_or st 502
  /\ Http.headers (res s') = merged hs (Http.headers (res s))
  /\ Http.body (res s') = piped chunks (Http.body (res s))
  /\ Http.ended (res s') = true
  /\ uncaught s' = None
  /\ phase s' = Completed
  /\ upstream s' = upstream s.
Proof.
  intros Hu Hp Hs. unfold streamed. cbn zeta.
  rewrite run_cons.
  assert (H1 : step cfg s (UpstreamResponse st hs)
               = on_response st hs s) by (unfold step; by rewrite Hu, Hp).
  rewrite H1. unfold on_response, Http.writeHead. rewrite Hs.
  set (s1 := set_phase _ _).
  rewrite run_app.
  destruct (run_data_res cfg chunks s1 st 0) as (Hu' & Hp' & Hst & Hh & He & Hb & Hup);
    [by subst s1; cbn | done |].
  set (s2 := run cfg s1 (map UpstreamData chunks)) in *.
  change (run cfg s2 [UpstreamEnd t1 t2]) with (step cfg s2 (UpstreamEnd t1 t2)).
  unfold step. rewrite Hu', Hp'. unfold on_end.
  set (s3 := if insertStat (stats s2) then _ else _).
  assert (H3 : res s3 = res s2 /\ uncaught s3 = uncaught s2 /\ upstream s3 = upstream s2).
  { subst s3. destruct (insertStat _); [|done].
    destruct (db _); [|done]. by destruct (Store.insertStat_run _ _). }
  destruct H3 as (Hr3 & Hu3 & Hup3).
  cbn. rewrite Hr3, Hu3, Hup3, Hst, Hh, Hb, Hu', Hup.
  by subst s1.
Qed.

Lemma upstream_response_is_relayed_witness :
  let s := proxyHandler Sample.cfg0 (ready Store.empty) 1000
             (Sample.post "/" Sample.json_body) Http.fresh in
  let s' := run Sample.cfg0 s
              (streamed (Some 429) [("retry-after", "3")] [[123]; [125; 10]] 1040 1041) in
  uncaught s = None /\ phase s = Waiting /\ Http.headersSent (res s) = false
  /\ Http.statusCode (res s') = 429
  /\ Http.body (res s') = Http.Relay [[123]; [125; 10]].
Proof.
  intros s s'.
  assert (H1 : uncaught s = None) by reflexivity.
  assert (H2 : phase s = Waiting) by reflexivity.
  assert (H3 : Http.headersSent (res s) = false) by reflexivity.
  split; [exact H1|]. split; [exact H2|]. split; [exact H3|].
  destruct (upstream_response_is_relayed Sample.cfg0 s (Some 429)
              [("retry-after", "3")] [[123]; [125; 10]] 1040 1041 H1 H2 H3)
    as (Hst & _ & Hb & _).
  split; [exact Hst | exact Hb].
Defined.

(** ** The client idle timeout *)

(** After the caller was answered while the upstream request was still
    waiting, or after an exception escaped, the store stays as it is. *)
Lemma answered_waiting_rows cfg trace : forall s,
  (exists m, uncaught s = Some m)
  \/ (phase s = Waiting /\ Http.headersSent (res s) = true) ->
  rows_of (run cfg s trace) = rows_of s.
Proof.
  induction trace as [|e trace IH]; intros s Hs; [done|].
  rewrite run_cons.
  assert (Hstep : rows_of (step cfg s e) = rows_of s
                  /\ ((exists m, uncaught (step cfg s e) = Some m)
                      \/ (phase (step cfg s e) = Waiting
                          /\ Http.headersSent (res (step cfg s e)) = true))).
  { unfold step. destruct Hs as [(m & Hm) | (Hp & Hh)].
    { rewrite Hm. split; [done|]. left. by exists m. }
    destruct (uncaught s) as [m|] eqn:Hu.
    { split; [done|]. left. by exists m. }
    rewrite Hp.
    destruct e; cbn; try (split; [done|]; right; done).
    - unfold on_response, Http.writeHead. rewrite Hh. cbn. split; [done|]. left. by eexists.
    - unfold on_timeout, on_error. cbn. rewrite Hh.
      unfold Http.type_json, Http.setHeader. rewrite Hh. cbn.
      split; [done|]. left. by eexists.
    - unfold on_error. rewrite Hh.
      unfold Http.type_json, Http.setHeader. rewrite Hh. cbn.
      split; [done|]. left. by eexists.
    - unfold on_client_timeout, Http.json, Http.send_json, Http.type_json,
        Http.setHeader. cbn. rewrite Hh. cbn. split; [done|]. left. by eexists. }
  destruct Hstep as (Hrows & Hinv). rewrite IH by done. done.
Qed.





(** ** Failures while the response is relayed *)

(** X11: when the upstream request fails or times out after the status and
    the headers of the upstream were relayed, the error listener keeps the
    status (the guard on [res.headersSent]) and then [res.type(...)] finds
    the headers sent: an exception escapes the listener, the caller's
    response is neither changed nor ended, and no telemetry record is
    written for the request. *)
Theorem gateway_failure_while_streaming (cfg : Config) (s : State)
  (st : option Z) (n : Z) :
  uncaught s = None -> phase s = Streaming st n -> Http.headersSent (res s) = true ->
  (forall msg,
      let s' := step cfg s (UpstreamError msg) in
      (exists m, uncaught s' = Some m)
      /\ res s' = res s
      /\ (forall trace, rows_of (run cfg s' trace) = rows_of s))
  /\ (let s' := step cfg s UpstreamTimeout in
      (exists m, uncaught s' = Some m)
      /\ res s' = res s
      /\ destroyed (upstream s') = Some (timeout_message cfg)
      /\ (forall trace, rows_of (run cfg s' trace) = rows_of s)).
Proof.
  intros Hu Hp Hs.
  assert (Herr : forall msg s0,
            uncaught s0 = None -> Http.headersSent (res s0) = true ->
            (exists m, uncaught (on_error msg s0) = Some m)
            /\ res (on_error msg s0) = res s0
            /\ rows_of (on_error msg s0) = rows_of s0
            /\ upstream (on_error msg s0) = upstream s0).
  { intros msg s0 Hu0 Hs0. unfold on_error. rewrite Hs0.
    unfold Http.type_json, Http.setHeader. rewrite Hs0. cbn.
    split; [by eexists|done]. }
  split.
  - intros msg. cbn zeta.
    assert (H1 : step cfg s (UpstreamError msg) = on_error msg s)
      by (unfold step; by rewrite Hu, Hp).
    rewrite H1. destruct (Herr msg s Hu Hs) as ((m & Hm) & Hr & Hrows & _).
    split; [by exists m|]. split; [done|].
    intros trace. rewrite answered_waiting_rows by (left; by exists m). done.
  - cbn zeta.
    assert (H1 : step cfg s UpstreamTimeout
                 = on_error (timeout_message cfg) (destroy (timeout_message cfg) s))
      by (unfold step; by rewrite Hu, Hp).
    rewrite H1.
    destruct (Herr (timeout_message cfg) (destroy (timeout_message cfg) s))
      as ((m & Hm) & Hr & Hrows & Hup); [done|done|].
    split; [by exists m|]. split; [done|]. split; [by rewrite Hup|].
    intros trace. rewrite answered_waiting_rows by (left; by exists m). done.
Qed.

Lemma gateway_failure_while_streaming_witness :
  let s := run Sample.cfg0
             (proxyHandler Sample.cfg0 (ready Store.empty) 1000
                (Sample.post "/" Sample.json_body) Http.fresh)
             [UpstreamResponse (Some 200) []; UpstreamData [123]] in
  uncaught s = None /\ phase s = Streaming (Some 200) 1
  /\ Http.headersSent (res s) = true
  /\ res (step Sample.cfg0 s (UpstreamError "socket hang up")) = res s
  /\ Http.statusCode (res s) = 200
  /\ Http.ended (res s) = false.
Proof.
  intros s.
  assert (H1 : uncaught s = None) by reflexivity.
  assert (H2 : phase s = Streaming (Some 200) 1) by reflexivity.
  assert (H3 : Http.headersSent (res s) = true) by reflexivity.
  split; [exact H1|]. split; [exact H2|]. split; [exact H3|].
  destruct (gateway_failure_while_streaming Sample.cfg0 s (Some 200) 1 H1 H2 H3)
    as (Herr & _).
  destruct (Herr "socket hang up") as (_ & Hr & _).
  split; [exact Hr|]. split; reflexivity.
Defined.

(** ** Bodies that are not well-formed UTF-8 *)



(** The state in which the application hands a request to the upstream. *)
Lemma forwarding_state e req s :
  App.app e req = App.Forwarding s ->
  s = proxyHandler (App.cfg e) (App.stats e) (App.now e) (parsed req) (greeted req).
Proof.
  intros Happ.
  assert (Hcase : payload req = Rejected \/ payload req <> Rejected)
    by (destruct (payload req); auto).
  destruct Hcase as [Hr|Hpay].
  { rewrite (rejected_answer e req Hr) in Happ. discriminate. }
  rewrite app_route_table in Happ by done. unfold route_table in Happ.
  repeat match type of Happ with
         | context [if ?b then _ else _] => destruct b
         end; congruence.
Qed.







(** ** The request id on a relayed response *)

Lemma same_name_eq a b : Http.same_name a b = true <-> JS.toLowerCase a = JS.toLowerCase b.
Proof. unfold Http.same_name. apply String.eqb_eq. Qed.

Lemma header_app name hs1 hs2 :
  Http.header name (hs1 ++ hs2)
  = match Http.header name hs1 with
    | Some v => Some v
    | None => Http.header name hs2
    end.
Proof.
  induction hs1 as [|[k v] hs1 IH]; [done|]. cbn [app Http.header].
  by destruct (Http.same_name k name).
Qed.

(** Setting one header leaves the headers of other names as they are. *)
Lemma header_put_other name k v hs :
  Http.same_name k name = false ->
  Http.header name (Http.put_header k v hs) = Http.header name hs.
Proof.
  intros Hne. unfold Http.put_header. rewrite header_app. cbn [Http.header fst].
  rewrite Hne.
  induction hs as [|[k' v'] hs IH]; [done|]. cbn [List.filter fst Http.header].
  destruct (Http.same_name k' k) eqn:Hk; cbn [negb].
  - assert (Hn : Http.same_name k' name = false).
    { destruct (Http.same_name k' name) eqn:Hn; [|done].
      apply same_name_eq in Hk. apply same_name_eq in Hn.
      assert (Http.same_name k name = true) by (apply same_name_eq; congruence).
      congruence. }
    rewrite Hn. exact IH.
  - cbn [Http.header]. destruct (Http.same_name k' name); [done|exact IH].
Qed.

Lemma header_merged_other name hs : forall own,
  Forall (fun kv => Http.same_name (fst kv) name = false) hs ->
  Http.header name (merged hs own) = Http.header name own.
Proof.
  induction hs as [|[k v] hs IH]; intros own Hall; [done|].
  apply Forall_cons in Hall. destruct Hall as [Hk Hall].
  unfold merged in *. cbn [fold_left fst snd]. rewrite IH by done.
  by apply header_put_other.
Qed.

Lemma header_merged_last name hs k v : forall own,
  Http.same_name k name = true ->
  Http.header name (merged (hs ++ [(k, v)]) own) = Some v.
Proof.
  intros own Hk. unfold merged. rewrite fold_left_app. cbn [fold_left fst snd].
  generalize (fold_left (fun acc kv => Http.put_header (fst kv) (snd kv) acc) hs own).
  intros l. unfold Http.put_header. rewrite header_app.
  set (kept := List.filter _ _).
  assert (Hnone : Http.header name kept = None).
  { subst kept. induction l as [|[k' v'] l IH]; [done|]. cbn [List.filter fst].
    destruct (Http.same_name k' k) eqn:Hk'; cbn [negb]; [exact IH|].
    cbn [Http.header].
    assert (Hn : Http.same_name k' name = false).
    { destruct (Http.same_name k' name) eqn:Hn; [|done].
      apply same_name_eq in Hk. apply same_name_eq in Hn.
      assert (Http.same_name k' k = true) by (apply same_name_eq; congruence).
      congruence. }
    by rewrite Hn. }
  rewrite Hnone. cbn [Http.header]. by rewrite Hk.
Qed.

(** X14: the request id that the middleware echoes stays on a relayed
    response: when the upstream's headers do not name [X-Request-Id] (in
    any letter case), the caller's response carries the id of the request;
    a header of that name among the upstream's replaces it. *)
Theorem request_id_survives_relay (e : App.Env) (req : Req) (s : State)
  (st : option Z) (hs : list (string * string)) :
  App.app e req = App.Forwarding s ->
  JS.truthy (id req) = true ->
  let s' := step (App.cfg e) s (UpstreamResponse st hs) in
  Http.headers (res s') = merged hs [("X-Request-Id", id req)]
  /\ (Forall (fun kv => Http.same_name (fst kv) "X-Request-Id" = false) hs ->
      Http.header "X-Request-Id" (Http.headers (res s')) = Some (id req))
  /\ (forall hs0 k v,
        hs = hs0 ++ [(k, v)] -> Http.same_name k "X-Request-Id" = true ->
        Http.header "X-Request-Id" (Http.headers (res s')) = Some v).
Proof.
  intros Happ Hid. apply forwarding_state in Happ. subst s. cbn zeta.
  assert (Hh : Http.headers
                 (res (step (App.cfg e)
                         (proxyHandler (App.cfg e) (App.stats e) (App.now e)
                                       (parsed req) (greeted req))
                         (UpstreamResponse st hs)))
               = merged hs [("X-Request-Id", id req)]).
  { unfold step. cbn [uncaught phase proxyHandler].
    unfold on_response, Http.writeHead. cbn [res proxyHandler].
    rewrite greeted_unsent. cbn. unfold greeted. by rewrite Hid. }
  rewrite Hh. split; [done|]. split.
  - intros Hall. rewrite header_merged_other by done. reflexivity.
  - intros hs0 k v -> Hk. by apply header_merged_last.
Qed.

Lemma request_id_survives_relay_witness :
  let e := Sample.env (ready Store.empty) 1000 in
  let req := Sample.post "/" Sample.json_body in
  exists s,
    App.app e req = App.Forwarding s
    /\ JS.truthy (id req) = true
    /\ Http.header "X-Request-Id"
         (Http.headers (res (step (App.cfg e) s
                               (UpstreamResponse (Some 200)
                                  [("content-type", "text/event-stream")]))))
       = Some "req-1".
Proof.
  intros e req. eexists. split; [reflexivity|]. split; [reflexivity|].
  refine (proj1 (proj2 (request_id_survives_relay e req _ (Some 200)
                          [("content-type", "text/event-stream")] eq_refl eq_refl)) _).
  repeat constructor.
Defined.

(** ** The keys of the store *)

Lemma max_id_bound rows k :
  0 <= k -> Forall (fun r => 0 < Store.id r <= k) rows -> Store.max_id rows <= k.
Proof.
  intros Hk. induction 1 as [|r rows Hr _ IH]; [done|].
  change (Store.max_id (r :: rows)) with (Z.max (Store.id r) (Store.max_id rows)).
  lia.
Qed.

Lemma next_id_consistent d : consistent d -> Store.next_id d = Store.sequence d + 1.
Proof.
  intros (_ & Hb & Hs). unfold Store.next_id.
  pose proof (max_id_bound _ _ Hs Hb). lia.
Qed.

#[local] Instance id_le_trans : Transitive Store.id_le.
Proof. intros r1 r2 r3. unfold Store.id_le. lia. Qed.

(** A table in ascending order of its keys is its own [ORDER BY id]. *)
Lemma order_by_id_ascending rows :
  StronglySorted (fun r1 r2 => Store.id r1 < Store.id r2) rows ->
  Store.order_by_id rows = rows.
Proof.
  intros Hs. unfold Store.order_by_id.
  assert (Hle : StronglySorted Store.id_le rows).
  { induction Hs as [|r rows _ IH Hr]; constructor; [done|].
    eapply Forall_impl; [exact Hr|]. intros r' ?. unfold Store.id_le. cbv beta in *. lia. }
  apply (StronglySorted_unique_strong Store.id_le); [| |done|].
  - intros x1 x2 H1 H2 Hx Hy.
    rewrite merge_sort_Permutation in H1. unfold Store.id_le in Hx, Hy.
    assert (Hid : Store.id x1 = Store.id x2) by lia.
    clear Hx Hy Hle. induction Hs as [|r rows Hs IH Hr]; [by apply elem_of_nil in H1|].
    rewrite Forall_forall in Hr.
    apply elem_of_cons in H1. apply elem_of_cons in H2.
    destruct H1 as [->|H1], H2 as [->|H2]; [done| | |by apply IH].
    + specialize (Hr _ H2). cbv beta in Hr. lia.
    + specialize (Hr _ H1). cbv beta in Hr. lia.
  - apply Sorted_StronglySorted; [apply _|]. apply Sorted_merge_sort, _.
  - apply merge_sort_Permutation.
Qed.

Lemma insert_consistent d p d' :
  consistent d -> Store.insertStat_run d p = Some d' ->
  consistent d'
  /\ Store.table d'
     = Store.table d ++ [{| Store.id := Store.sequence d + 1; Store.stat := p |}]
  /\ Store.sequence d' = Store.sequence d + 1.
Proof.
  intros Hc Hrun. pose proof (next_id_consistent d Hc) as Hn.
  destruct Hc as (Hs & Hb & Hq).
  unfold Store.insertStat_run in Hrun. destruct (Store.failing d); [done|].
  injection Hrun as <-. cbn. rewrite Hn. split; [|done].
  split; [|split]; cbn.
  - apply StronglySorted_app_2; [|done|by repeat constructor].
    intros r1 r2 H1 H2. apply list_elem_of_singleton in H2. subst r2. cbn.
    rewrite Forall_forall in Hb. specialize (Hb _ H1). cbv beta in Hb. lia.
  - apply Forall_app. split.
    + eapply Forall_impl; [exact Hb|]. cbv beta. intros r ?. lia.
    + repeat constructor; cbn; lia.
  - lia.
Qed.

Lemma max_id_cons r rows :
  Store.max_id (r :: rows) = Z.max (Store.id r) (Store.max_id rows).
Proof. reflexivity. Qed.

Lemma max_id_nonneg rows : 0 <= Store.max_id rows.
Proof. induction rows as [|r rows IH]; [done|]. rewrite max_id_cons. lia. Qed.

Lemma max_id_app l1 l2 :
  Store.max_id (l1 ++ l2) = Z.max (Store.max_id l1) (Store.max_id l2).
Proof.
  induction l1 as [|r l1 IH]; cbn [app].
  - change (Store.max_id []) with 0. pose proof (max_id_nonneg l2). lia.
  - rewrite !max_id_cons, IH. lia.
Qed.

Lemma max_id_ge rows : Forall (fun r => Store.id r <= Store.max_id rows) rows.
Proof.
  induction rows as [|r rows IH]; constructor.
  - rewrite max_id_cons. lia.
  - eapply Forall_impl; [exact IH|]. cbv beta. intros r' ?.
    rewrite max_id_cons. lia.
Qed.

(** X15: the key that [insertStat.run] gives a new row is above every key
    in the table and above the sequence, i.e. above every key that the
    table ever held: a key is never used twice, also after rows were
    deleted; the row goes to the end of the table, and the statement
    changes nothing else. *)
Theorem insert_takes_fresh_key (d d' : Store.DB) (p : Store.Stat) :
  Store.insertStat_run d p = Some d' ->
  exists k,
    Store.table d' = Store.table d ++ [{| Store.id := k; Store.stat := p |}]
    /\ Store.sequence d < k
    /\ Forall (fun r => Store.id r < k) (Store.table d)
    /\ Store.sequence d' = k
    /\ Store.next_id d' = k + 1.
Proof.
  unfold Store.insertStat_run. destruct (Store.failing d); [done|].
  intros [= <-]. exists (Store.next_id d). cbn [Store.table Store.sequence].
  assert (Hall : Forall (fun r => Store.id r < Store.next_id d) (Store.table d)).
  { eapply Forall_impl; [apply max_id_ge|]. cbv beta. unfold Store.next_id.
    intros r ?. lia. }
  split; [done|]. split; [unfold Store.next_id; lia|]. split; [done|]. split; [done|].
  unfold Store.next_id at 1. cbn [Store.table Store.sequence].
  rewrite max_id_app, max_id_cons. cbn [Store.id].
  change (Store.max_id []) with 0.
  pose proof (max_id_nonneg (Store.table d)). unfold Store.next_id. lia.
Qed.

Lemma insert_takes_fresh_key_witness :
  let p := Store.stat (Sample.row 0 700000 "manager" 8 9 200 3) in
  exists d',
    Store.insertStat_run Sample.db4 p = Some d'
    /\ exists k,
         Store.table d' = Store.table Sample.db4 ++ [{| Store.id := k; Store.stat := p |}]
         /\ Store.sequence Sample.db4 < k.
Proof.
  intros p. eexists. split; [reflexivity|].
  destruct (insert_takes_fresh_key Sample.db4 _ p eq_refl) as (k & Ht & Hs & _).
  exists k. split; [exact Ht | exact Hs].
Defined.

(** Successive inserts into a consistent store that does not fail. *)
Lemma insert_all_consistent ps : forall d,
  consistent d -> Store.failing d = false ->
  exists d',
    insert_all d ps = Some d'
    /\ consistent d'
    /\ Store.table d' = Store.table d ++ numbered (Store.sequence d) ps
    /\ Store.sequence d' = Store.sequence d + Z.of_nat (length ps)
    /\ Store.failing d' = false.
Proof.
  induction ps as [|p ps IH]; intros d Hc Hf.
  { exists d. cbn. rewrite app_nil_r, Z.add_0_r. done. }
  cbn [insert_all].
  destruct (Store.insertStat_run d p) as [d1|] eqn:Hrun;
    [|unfold Store.insertStat_run in Hrun; by rewrite Hf in Hrun].
  destruct (insert_consistent d p d1 Hc Hrun) as (Hc1 & Ht1 & Hs1).
  assert (Hf1 : Store.failing d1 = false).
  { unfold Store.insertStat_run in Hrun. rewrite Hf in Hrun. by injection Hrun as <-. }
  destruct (IH d1 Hc1 Hf1) as (d' & Hall & Hc' & Ht' & Hs' & Hf').
  exists d'. split; [done|]. split; [done|].
  split; [|split; [|done]].
  - rewrite Ht', Ht1, Hs1, <- app_assoc. done.
  - rewrite Hs', Hs1. cbn [length]. lia.
Qed.

Lemma numbered_ids k ps :
  map Store.id (numbered k ps) = seqZ (k + 1) (Z.of_nat (length ps))
  /\ map Store.stat (numbered k ps) = ps.
Proof.
  revert k. induction ps as [|p ps IH]; intros k; [done|].
  cbn [numbered map length]. destruct (IH (k + 1)) as [-> ->].
  split; [|done].
  rewrite Nat2Z.inj_succ, (seqZ_cons (k + 1)) by lia.
  do 2 f_equal; lia.
Qed.

(** X16: a store that starts empty numbers its rows 1, 2, 3, ... in the
    order of the inserts, keeps the bound columns as they were given, and
    [SELECT ... ORDER BY id ASC] returns the rows in the order in which they
    were inserted. *)
Theorem inserts_number_from_one (ps : list Store.Stat) :
  exists d,
    insert_all Store.empty ps = Some d
    /\ Store.selectAllRows d = Store.table d
    /\ map Store.stat (Store.selectAllRows d) = ps
    /\ map Store.id (Store.selectAllRows d) = seqZ 1 (Z.of_nat (length ps))
    /\ Store.sequence d = Z.of_nat (length ps)
    /\ Store.next_id d = Z.of_nat (length ps) + 1.
Proof.
  assert (He : consistent Store.empty).
  { split; [constructor|]. split; [constructor|]. cbn. lia. }
  destruct (insert_all_consistent ps Store.empty He eq_refl)
    as (d & Hall & Hc & Ht & Hs & _).
  exists d. split; [done|].
  assert (Hsel : Store.selectAllRows d = Store.table d).
  { unfold Store.selectAllRows. apply order_by_id_ascending. apply Hc. }
  cbn in Ht, Hs. destruct (numbered_ids 0 ps) as [Hi Hst].
  rewrite Hsel, Ht, Hst, Hi, (next_id_consistent d Hc), Hs. done.
Qed.

(** ** Summaries and exports of the same filters *)


Section measure.
Variable ga : Store.Acc -> Z.
Variable h : Store.Row -> Z.
Hypothesis ga_add : forall a r, ga (Store.acc_add a r) = ga a + h r.
Hypothesis ga_zero : ga Store.acc0 = 0.

Let asum (m : gmap string Store.Acc) : Z := map_fold (fun _ a n => ga a + n) 0 m.

Lemma asum_step m r : asum (Store.group_step m r) = asum m + h r.
Proof.
  unfold asum, Store.group_step.
  set (k := Store.agent (Store.stat r)).
  destruct (m !! k) as [a|] eqn:Hk; cbn [default].
  - rewrite <- (insert_delete_eq m k (Store.acc_add a r)).
    rewrite map_fold_insert_L; [|intros; lia|apply lookup_delete_eq].
    rewrite (map_fold_delete_L _ _ k a m); [|intros; lia|done].
    rewrite ga_add. lia.
  - rewrite map_fold_insert_L; [|intros; lia|done].
    rewrite ga_add, ga_zero. lia.
Qed.

Lemma asum_rows rows : forall m,
  asum (foldl Store.group_step m rows)
  = asum m + foldr (fun r n => h r + n) 0 rows.
Proof.
  induction rows as [|r rows IH]; intros m; cbn [foldl foldr]; [lia|].
  rewrite IH, asum_step. lia.
Qed.

End measure.

Lemma sum_over_groups (g : Store.Summary -> Z) (h : Store.Row -> Z) rows :
  (forall a r, g (Store.finish (Store.acc_add a r)) = g (Store.finish a) + h r) ->
  g (Store.finish Store.acc0) = 0 ->
  sum_over g (Store.group_by_agent rows) = foldr (fun r n => h r + n) 0 rows.
Proof.
  intros Hadd Hzero. unfold sum_over, Store.group_by_agent.
  rewrite map_fold_fmap.
  rewrite (asum_rows (fun a => g (Store.finish a)) h Hadd Hzero rows ∅).
  by rewrite map_fold_empty.
Qed.

(** The four summary statements group the rows that pass the filters. *)
Lemma summarize_selected since af d :
  summarize since af d
  = Store.group_by_agent (List.filter (selected since af) (Store.table d)).
Proof.
  unfold summarize, selected, Store.selectSummaryAll, Store.selectSummarySince,
    Store.selectSummaryByAgentAll, Store.selectSummaryByAgentSince.
  destruct since as [t|], af as [a|]; cbn [andb]; try done.
  - f_equal. apply filter_ext. intros r. by rewrite andb_true_r.
  - by rewrite filter_true.
Qed.

Lemma foldr_sum_perm (h : Store.Row -> Z) l1 l2 :
  l1 ≡ₚ l2 -> foldr (fun r n => h r + n) 0 l1 = foldr (fun r n => h r + n) 0 l2.
Proof. induction 1; cbn; lia. Qed.

Lemma foldr_count {A} (l : list A) : foldr (fun _ n => 1 + n) 0 l = Z.of_nat (length l).
Proof. induction l as [|x l IH]; cbn [foldr length]; lia. Qed.

(** X17: a summary and an export with the same filters agree: the request
    counts of the groups add up to the number of rows of the export, and
    the sums of the groups to the totals of its [in_bytes] and [out_bytes]
    columns. *)
Theorem summary_adds_up_to_export (since : option Num.number)
  (agentFilter : option string) (d : Store.DB) :
  sum_over Store.requests (summarize since agentFilter d)
  = Z.of_nat (length (listRaw since agentFilter d))
  /\ sum_over Store.sum_in (summarize since agentFilter d)
     = total Store.in_bytes (listRaw since agentFilter d)
  /\ sum_over Store.sum_out (summarize since agentFilter d)
     = total Store.out_bytes (listRaw since agentFilter d).
Proof.
  rewrite summarize_selected, listRaw_selected.
  set (rows := List.filter _ _).
  assert (Hp : Store.order_by_id rows ≡ₚ rows) by apply merge_sort_Permutation.
  split; [|split].
  - rewrite (sum_over_groups _ (fun _ => 1)); [|intros; cbn; lia|done].
    rewrite foldr_count. by rewrite Hp.
  - rewrite (sum_over_groups _ (fun r => Store.in_bytes (Store.stat r)));
      [|intros; cbn; lia|done].
    unfold total. symmetry. by apply foldr_sum_perm.
  - rewrite (sum_over_groups _ (fun r => Store.out_bytes (Store.stat r)));
      [|intros; cbn; lia|done].
    unfold total. symmetry. by apply foldr_sum_perm.
Qed.

(** X18: filtering a summary by agent gives the group that the unfiltered
    summary of the same window has for that agent, and nothing else. *)
Theorem agent_filter_restricts_summary (d : Store.DB) (a b : string) :
  Store.selectSummaryByAgentAll d a !! b
  = (if decide (b = a) then Store.selectSummaryAll d !! a else None)
  /\ (forall t,
        Store.selectSummaryByAgentSince d t a !! b
        = (if decide (b = a) then Store.selectSummarySince d t !! a else None)).
Proof.
  assert (Hrestrict : forall p : Store.Row -> bool,
    Store.group_by_agent
      (List.filter (fun r => p r && Store.agent_ok a r) (Store.table d)) !! b
    = if decide (b = a)
      then Store.group_by_agent (List.filter p (Store.table d)) !! a
      else None).
  { intros p. rewrite !group_by_agent_lookup, !filter_filter.
    destruct (decide (b = a)) as [->|Hne].
    - f_equal. apply filter_ext. intros r. by destruct (p r), (Store.agent_ok a r).
    - assert (Hnil : List.filter
                (fun r => (p r && Store.agent_ok a r) && Store.agent_ok b r)
                (Store.table d) = []).
      { induction (Store.table d) as [|r l IH]; [done|]. cbn [List.filter].
        destruct (Store.agent_ok a r) eqn:Ha, (Store.agent_ok b r) eqn:Hb;
          rewrite ?andb_false_r, ?andb_true_r; try exact IH.
        apply agent_ok_iff in Ha. apply agent_ok_iff in Hb. congruence. }
      by rewrite Hnil. }
  split.
  - unfold Store.selectSummaryByAgentAll, Store.selectSummaryAll.
    specialize (Hrestrict (fun _ => true)). rewrite filter_true in Hrestrict.
    rewrite <- Hrestrict. done.
  - intros t. unfold Store.selectSummaryByAgentSince, Store.selectSummarySince.
    apply Hrestrict.
Qed.

(** ** Timestamps as text *)

(** X19: [new Date(t).toISOString()] is defined exactly for the time values
    of valid dates, and it never gives two instants the same text: the
    timestamp of a record can be read back from an export to the
    millisecond. *)
Theorem iso_text_determines_instant :
  (forall t, Reporter.is_some (Date.toISOString t) = true
             <-> - Date.MAX_TIME <= t <= Date.MAX_TIME)
  /\ (forall t1 t2 s,
        Date.toISOString t1 = Some s -> Date.toISOString t2 = Some s -> t1 = t2)
  /\ Date.toISOString 0 = Some "1970-01-01T00:00:00.000Z"
  /\ Date.toISOString (-1) = Some "1969-12-31T23:59:59.999Z"
  /\ Date.toISOString 951782400000 = Some "2000-02-29T00:00:00.000Z"
  /\ Date.toISOString 253402300800000 = Some "+010000-01-01T00:00:00.000Z"
  /\ Date.toISOString (Date.MAX_TIME + 1) = None.
Proof.
  split; [|split; [|by vm_compute]].
  - intros t. unfold Date.toISOString.
    destruct (_ && _) eqn:Hr; cbn [Reporter.is_some].
    + apply andb_true_iff in Hr. rewrite !Z.leb_le in Hr. tauto.
    + apply andb_false_iff in Hr. rewrite !Z.leb_gt in Hr. split; [done|lia].
  - intros t1 t2 s H1 H2.
    apply parse_iso_round_trip in H1. apply parse_iso_round_trip in H2. congruence.
Qed.

(** ** The configurable proxy *)

Import Js Configurable.

Lemma lookup_put_same k v fs : lookup k (put k v fs) = Some v.
Proof.
  induction fs as [|[k' v'] fs IH]; cbn [put lookup].
  - by rewrite bool_decide_eq_true_2.
  - destruct (bool_decide (k' = k)) eqn:Hk; cbn [lookup]; rewrite Hk; done.
Qed.

Lemma lookup_put_other k k' v fs : k <> k' -> lookup k (put k' v fs) = lookup k fs.
Proof.
  intros Hne. induction fs as [|[k1 v1] fs IH]; cbn [put lookup].
  - rewrite bool_decide_eq_false_2; [done|congruence].
  - destruct (bool_decide (k1 = k')) eqn:Hk; cbn [lookup].
    + apply bool_decide_eq_true in Hk. subst k1.
      rewrite bool_decide_eq_false_2; [done|congruence].
    + by rewrite IH.
Qed.

Lemma get_set_other k k' v obj : k <> k' -> get (set k' v obj) k = get obj k.
Proof.
  intros Hne. destruct obj; try done. cbn [set get]. by rewrite lookup_put_other.
Qed.

Lemma get_set_same k v fs : get (set k v (VObj fs)) k = Ok v.
Proof. cbn [set get]. by rewrite lookup_put_same. Qed.

(** A value that has an own property is an object. *)
Lemma get_defined v k x :
  get v k = Ok x -> k <> lit "length" -> x <> VUndef ->
  exists fs, v = VObj fs /\ lookup k fs = Some x.
Proof.
  intros Hg Hk Hx. destruct v; cbn [get] in Hg; try discriminate; try congruence.
  - rewrite bool_decide_eq_false_2 in Hg by done. congruence.
  - rewrite bool_decide_eq_false_2 in Hg by done. congruence.
  - injection Hg as Hg. exists fields. split; [done|].
    destruct (lookup k fields); cbn in Hg; congruence.
Qed.

(** *** The stages of the [try] block *)

Lemma compact_system_rest cfg payload p1 saved k :
  compact_system cfg payload = Ok (p1, saved) ->
  k <> lit "messages" -> get p1 k = get payload k.
Proof.
  unfold compact_system. intros H Hk.
  destruct (get payload (lit "messages")) as [messages|]; [|done]. cbn [bind] in H.
  destruct (truthy (compactSystemPrompt cfg) && truthy messages);
    [|by injection H as <- _].
  destruct messages; try (by injection H as <- _).
  destruct (is_str "system" _); [|by injection H as <- _].
  destruct (get (first l) (lit "content")) as [content|]; [|done]. cbn [bind] in H.
  destruct (json_length content); [|done]. cbn [bind] in H.
  injection H as <- _. by apply get_set_other.
Qed.

Lemma whitelist_tools_rest lower cfg payload p2 saved k :
  whitelist_tools lower cfg payload = Ok (p2, saved) ->
  k <> lit "tools" -> get p2 k = get payload k.
Proof.
  unfold whitelist_tools. intros H Hk.
  destruct (get payload (lit "tools")) as [tools|]; [|done]. cbn [bind] in H.
  destruct (truthy tools); [|by injection H as <- _].
  destruct (get tools (lit "length")) as [n|]; [|done]. cbn [bind] in H.
  destruct (gt n 0 HALF_0); [|by injection H as <- _].
  destruct tools; try done.
  destruct (json_length (VArr l)); [|done]. cbn [bind] in H.
  destruct (filter_tools lower cfg l) as [kept|]; [|done]. cbn [bind] in H.
  destruct (match kept with [] => Ok [] | _ => shorten_all kept end) as [final|];
    [|done]. cbn [bind] in H.
  destruct (json_length (VArr final)); [|done]. cbn [bind] in H.
  injection H as <- _. by apply get_set_other.
Qed.

(** The two rewriting stages leave a payload that is not an object as it
    is. *)
Lemma compact_system_not_object cfg payload :
  (forall fs, payload <> VObj fs) ->
  compact_system cfg payload = Throw \/ compact_system cfg payload = Ok (payload, 0).
Proof.
  intros Hno. unfold compact_system.
  destruct payload; cbn; auto; try (rewrite andb_false_r; auto).
  by destruct (Hno fields).
Qed.

Lemma whitelist_tools_not_object lower cfg payload :
  (forall fs, payload <> VObj fs) ->
  whitelist_tools lower cfg payload = Throw
  \/ whitelist_tools lower cfg payload = Ok (payload, 0).
Proof.
  intros Hno. unfold whitelist_tools.
  destruct payload; cbn; auto.
  by destruct (Hno fields).
Qed.

(** How the handler comes to forward a request. *)
Lemma forwarded_stages lower cfg env t1 t2 st req st' opts body :
  handle lower cfg env t1 t2 st req = (st', Forwarded opts body) ->
  exists payload uc p1 s1 p2 s2 t,
    method req = "POST" /\ parsed req = Some payload
    /\ user_content payload = Ok uc /\ blocks cfg uc = None
    /\ compact_system cfg payload = Ok (p1, s1)
    /\ whitelist_tools lower cfg p1 = Ok (p2, s2)
    /\ stringify p2 = Some t /\ body = t
    /\ opts = options env req
    /\ Wire.header_ok ("Bearer " +:+ OPENROUTER_KEY env) = true
    /\ st' = {| blocked := blocked st; allowed := allowed st + 1;
                savedTokens := savedTokens st + (s1 + s2) |}.
Proof.
  unfold handle, try_end. intros H.
  destruct (String.eqb (method req) "POST") eqn:Hm; cbn [negb] in H; [|done].
  apply String.eqb_eq in Hm.
  destruct (parsed req) as [payload|] eqn:Hp; [|done].
  destruct (user_content payload) as [uc|] eqn:Hu; [|done]. cbn [bind] in H.
  destruct (blocks cfg uc) eqn:Hb.
  { destruct (get payload (lit "model")); cbn [bind] in H; [|done]. discriminate. }
  destruct (compact_system cfg payload) as [[p1 s1]|] eqn:Hc; [|done]. cbn [bind] in H.
  destruct (whitelist_tools lower cfg p1) as [[p2 s2]|] eqn:Hw; [|done]. cbn [bind] in H.
  unfold json_length in H.
  destruct (stringify p2) as [t|] eqn:Ht; [|done]. cbn [bind] in H.
  destruct (Wire.header_ok _) eqn:Hh; [|discriminate].
  injection H as <- <- <-.
  exists payload, uc, p1, s1, p2, s2, t. done.
Qed.

(** *** Outcomes and counters *)

(** X20: the handler answers 405 exactly to the requests that are not
    [POST], without touching a counter; a request that is answered with
    the mock completion raises [blocked] by one and counts the tokens of
    its whole body as saved; a forwarded request raises [allowed] by one;
    a request that is answered 400 leaves the counters alone, unless the
    upstream request was refused because the key is no header value, in
    which case it was already counted as allowed. *)
Theorem counters_follow_outcome (lower : str -> str) (cfg : Config)
  (env : option string) (t1 t2 : Z) (st : Stats) (req : Request) :
  let r := handle lower cfg env t1 t2 st req in
  match snd r with
  | Mocked _ =>
      method req = "POST"
      /\ blocked (fst r) = blocked st + 1 /\ allowed (fst r) = allowed st
      /\ savedTokens (fst r)
         = savedTokens st + tokens (Z.of_nat (length (body_of req)))
  | Forwarded _ _ =>
      method req = "POST"
      /\ blocked (fst r) = blocked st /\ allowed (fst r) = allowed st + 1
      /\ Wire.header_ok ("Bearer " +:+ OPENROUTER_KEY env) = true
  | Answered code text =>
      blocked (fst r) = blocked st
      /\ ((code = 405 /\ text = "Method Not Allowed" /\ method req <> "POST"
           /\ fst r = st)
          \/ (code = 400 /\ text = "Bad Request" /\ method req = "POST"
              /\ (fst r = st
                  \/ (allowed (fst r) = allowed st + 1
                      /\ Wire.header_ok ("Bearer " +:+ OPENROUTER_KEY env) = false))))
  end.
Proof.
  cbn zeta. unfold handle, try_end.
  destruct (String.eqb (method req) "POST") eqn:Hm; cbn [negb].
  2: { apply String.eqb_neq in Hm. cbn. split; [done|]. left. done. }
  apply String.eqb_eq in Hm.
  assert (Hbad : let r := (st, Answered 400 "Bad Request") in
            blocked (fst r) = blocked st
            /\ ((400 = 405 /\ "Bad Request" = "Method Not Allowed"
                 /\ method req <> "POST" /\ fst r = st)
                \/ (400 = 400 /\ "Bad Request" = "Bad Request" /\ method req = "POST"
                    /\ (fst r = st
                        \/ (allowed (fst r) = allowed st + 1
                            /\ Wire.header_ok ("Bearer " +:+ OPENROUTER_KEY env) = false))))).
  { cbn. split; [done|]. right. auto. }
  destruct (parsed req) as [payload|]; [|exact Hbad].
  destruct (user_content payload) as [uc|]; [|exact Hbad]. cbn [bind].
  destruct (blocks cfg uc).
  { destruct (get payload (lit "model")); [|exact Hbad]. cbn. done. }
  destruct (compact_system cfg payload) as [[p1 s1]|]; [|exact Hbad]. cbn [bind].
  destruct (whitelist_tools lower cfg p1) as [[p2 s2]|]; [|exact Hbad]. cbn [bind].
  destruct (json_length p2); [|exact Hbad]. cbn [bind].
  destruct (Wire.header_ok _) eqn:Hh; cbn; [done|].
  split; [done|]. right. do 3 (split; [done|]). right. done.
Qed.

(** X21: a forwarded payload differs from the one received at most in its
    members [messages] and [tools]; a payload that has neither (or that is
    not an object) is forwarded as it is. *)
Theorem only_messages_and_tools_are_rewritten (lower : str -> str) (cfg : Config)
  (env : option string) (t1 t2 : Z) (st st' : Stats) (req : Request)
  (opts : Options) (body : str) :
  handle lower cfg env t1 t2 st req = (st', Forwarded opts body) ->
  exists payload p2,
    parsed req = Some payload
    /\ stringify p2 = Some body
    /\ (forall k, k <> lit "messages" -> k <> lit "tools" -> get p2 k = get payload k)
    /\ (get payload (lit "messages") = Ok VUndef ->
        get payload (lit "tools") = Ok VUndef -> p2 = payload).
Proof.
  intros H. apply forwarded_stages in H.
  destruct H as (payload & uc & p1 & s1 & p2 & s2 & t & _ & Hp & _ & _ & Hc & Hw
                 & Ht & -> & _).
  exists payload, p2. split; [done|]. split; [done|]. split.
  - intros k Hk1 Hk2.
    rewrite (whitelist_tools_rest _ _ _ _ _ _ Hw Hk2).
    by rewrite (compact_system_rest _ _ _ _ _ Hc Hk1).
  - intros Hm Htools.
    unfold compact_system in Hc. rewrite Hm in Hc. cbn in Hc.
    rewrite andb_false_r in Hc. injection Hc as <- <-.
    unfold whitelist_tools in Hw. rewrite Htools in Hw. cbn in Hw.
    by injection Hw as <- _.
Qed.

Lemma only_messages_and_tools_are_rewritten_witness :
  exists st' opts body p2,
    handle lower_ascii Sample2.cfg2 (Some "sk-or-test") 1000 1001 Sample2.st0
           (Sample2.post Sample2.chat)
    = (st', Forwarded opts body)
    /\ stringify p2 = Some body
    /\ get p2 (lit "temperature") = get Sample2.chat (lit "temperature")
    /\ get p2 (lit "model") = get Sample2.chat (lit "model").
Proof.
  destruct (handle lower_ascii Sample2.cfg2 (Some "sk-or-test") 1000 1001 Sample2.st0
              (Sample2.post Sample2.chat)) as [st' [c t|b|opts body]] eqn:Hh;
    [by vm_compute in Hh | by vm_compute in Hh |].
  destruct (only_messages_and_tools_are_rewritten _ _ _ _ _ _ _ _ _ _ Hh)
    as (payload & p2 & Hp & Hs & Hrest & _).
  injection Hp as <-.
  exists st', opts, body, p2. split; [reflexivity|]. split; [exact Hs|].
  split; apply Hrest; by vm_compute.
Defined.

Import Whitelist.

(** *** The whitelist of tools *)



(** [l.length > 0] for an array. *)
Lemma gt_length (l : list Val) :
  gt (num (Z.of_nat (length l))) 0 HALF_0 = match l with [] => false | _ => true end.
Proof.
  unfold gt, num, num_gt, Qle_bool. cbn [Qnum Qden inject_Z].
  destruct l; [done|]. cbn [length].
  apply negb_true_iff, Z.leb_gt. lia.
Qed.

Lemma get_length_arr (l : list Val) :
  get (VArr l) (lit "length") = Ok (num (Z.of_nat (length l))).
Proof. cbn [get]. by rewrite bool_decide_eq_true_2. Qed.




(** *** Descriptions *)

(** [n > c] for two integers. *)
Lemma gt_num n c half : gt (num n) c half = (c <? n).
Proof.
  unfold gt, num, num_gt, Qle_bool. cbn [Qnum Qden inject_Z].
  rewrite !Z.mul_1_r. destruct (Z.ltb_spec c n).
  - apply negb_true_iff, Z.leb_gt. lia.
  - apply negb_false_iff, Z.leb_le. lia.
Qed.

Lemma get_length_str (s : str) :
  get (VStr s) (lit "length") = Ok (num (Z.of_nat (length s))).
Proof. cbn [get]. by rewrite bool_decide_eq_true_2. Qed.

Lemma cut_length s : (length (cut s) <= 200)%nat.
Proof.
  unfold cut. destruct (Z.ltb_spec 200 (Z.of_nat (length s))); [|lia].
  rewrite length_app, length_take.
  change (length (lit "...")) with 3%nat. lia.
Qed.

Lemma description_not_length : lit "description" <> lit "length".
Proof. by vm_compute. Qed.

Lemma function_not_length : lit "function" <> lit "length".
Proof. by vm_compute. Qed.

(** X23: a tool whose [function.description] is a string of more than 200
    characters is forwarded with the first 150 of them and three dots, any
    other string is kept; nothing else of the tool changes, and the result
    is at most 200 characters long, so that shortening it again changes
    nothing. *)
Theorem long_descriptions_are_cut (tool f : Val) (s : str) :
  get tool (lit "function") = Ok f ->
  get f (lit "description") = Ok (VStr s) ->
  exists tool' f',
    shorten tool = Ok tool'
    /\ get tool' (lit "function") = Ok f'
    /\ get f' (lit "description") = Ok (VStr (cut s))
    /\ (length (cut s) <= 200)%nat
    /\ (200 < Z.of_nat (length s) -> length (cut s) = 153%nat)
    /\ (forall k, k <> lit "function" -> get tool' k = get tool k)
    /\ (forall k, k <> lit "description" -> get f' k = get f k)
    /\ shorten tool' = Ok tool'.
Proof.
  intros Hf Hd.
  destruct (get_defined _ _ _ Hd description_not_length) as (ffs & -> & Hlf); [done|].
  destruct (get_defined _ _ _ Hf function_not_length) as (tfs & -> & Hlt); [done|].
  assert (Hsame : forall t0 f0 s0,
            get t0 (lit "function") = Ok f0 ->
            get f0 (lit "description") = Ok (VStr s0) ->
            (Z.of_nat (length s0) <= 200) -> shorten t0 = Ok t0).
  { intros t0 f0 s0 H1 H2 Hle. unfold shorten. rewrite H1. cbn [bind].
    unfold opt_get. rewrite H2.
    destruct (truthy (VStr s0)); [|done].
    rewrite get_length_str. cbn [bind]. rewrite gt_num.
    destruct (Z.ltb_spec 200 (Z.of_nat (length s0))); [lia|done]. }
  unfold cut.
  destruct (Z.ltb_spec 200 (Z.of_nat (length s))) as [Hlong|Hshort].
  - set (s' := take 150 s ++ lit "...").
    set (f' := set (lit "description") (VStr s') (VObj ffs)).
    set (tool' := set (lit "function") f' (VObj tfs)).
    assert (Hlen : length s' = 153%nat).
    { subst s'. rewrite length_app, length_take.
      change (length (lit "...")) with 3%nat. lia. }
    assert (Hf' : get tool' (lit "function") = Ok f') by apply get_set_same.
    assert (Hd' : get f' (lit "description") = Ok (VStr s')) by apply get_set_same.
    exists tool', f'. split.
    { unfold shorten. rewrite Hf. cbn [bind]. unfold opt_get. rewrite Hd.
      destruct s as [|u s0]; [cbn in Hlong; lia|]. cbn [truthy].
      rewrite get_length_str. cbn [bind]. rewrite gt_num.
      destruct (Z.ltb_spec 200 (Z.of_nat (length (u :: s0)))); [done|lia]. }
    split; [done|]. split; [done|]. split; [lia|]. split; [done|].
    split; [intros k Hk; by apply get_set_other|].
    split; [intros k Hk; by apply get_set_other|].
    apply (Hsame tool' f' s'); [done|done|lia].
  - exists (VObj tfs), (VObj ffs).
    split; [by apply (Hsame _ (VObj ffs) s)|].
    split; [done|]. split; [done|]. split; [lia|]. split; [lia|].
    split; [done|]. split; [done|]. by apply (Hsame _ (VObj ffs) s).
Qed.

Lemma long_descriptions_are_cut_witness :
  let f := Sample2.O [("name", Sample2.S "mcp__GitHub__x");
                      ("description", VStr Sample2.long)] in
  let tool := Sample2.O [("type", Sample2.S "function"); ("function", f)] in
  get tool (lit "function") = Ok f
  /\ get f (lit "description") = Ok (VStr Sample2.long)
  /\ exists tool' f',
       shorten tool = Ok tool'
       /\ get tool' (lit "function") = Ok f'
       /\ get f' (lit "description") = Ok (VStr (repeat 120 150%nat ++ lit "...")).
Proof.
  intros f tool.
  assert (H1 : get tool (lit "function") = Ok f) by reflexivity.
  assert (H2 : get f (lit "description") = Ok (VStr Sample2.long)) by reflexivity.
  split; [exact H1|]. split; [exact H2|].
  destruct (long_descriptions_are_cut tool f Sample2.long H1 H2)
    as (tool' & f' & Hs & Hf & Hd & _).
  exists tool', f'. split; [exact Hs|]. split; [exact Hf|]. exact Hd.
Defined.

(** *** The system prompt *)

Lemma messages_not_tools : lit "messages" <> lit "tools".
Proof. by vm_compute. Qed.

Lemma tokens_negative n : n < 0 -> tokens n < 0.
Proof. unfold tokens. intros H. Z.to_euclidean_division_equations; lia. Qed.

(** The stage of the system prompt when the first message is one. *)
Lemma compact_system_system cfg fs m0 rest :
  truthy (compactSystemPrompt cfg) = true ->
  lookup (lit "messages") fs = Some (VArr (m0 :: rest)) ->
  get m0 (lit "role") = Ok (VStr (lit "system")) ->
  compact_system cfg (VObj fs)
  = bind (get m0 (lit "content")) (fun content =>
    bind (json_length content) (fun origSize =>
    Ok (set (lit "messages") (VArr (minimal_message :: rest)) (VObj fs),
        tokens (origSize - 89)))).
Proof.
  intros Hon Hm Hrole. unfold compact_system. cbn [get]. rewrite Hm.
  cbn [default from_option Datatypes.id bind]. rewrite Hon.
  cbn [truthy andb first head default from_option Datatypes.id tail].
  unfold opt_get. rewrite Hrole.
  change (is_str "system" (VStr (lit "system"))) with true. cbv iota.
  done.
Qed.

(** X24: with [compactSystemPrompt] on, a forwarded payload whose first
    message has the role [system] carries, in its place, the message of the
    minimal prompt alone (other members of the original message are gone),
    and its other messages as they were; the tokens counted as saved are
    the floor quarter of the difference of the two serialised lengths,
    which is negative when the original prompt was the shorter one. *)
Theorem system_prompt_is_replaced (lower : str -> str) (cfg : Config)
  (env : option string) (t1 t2 : Z) (st st' : Stats) (req : Request)
  (opts : Options) (body : str) (fs : list (str * Val)) (m0 : Val)
  (rest : list Val) :
  handle lower cfg env t1 t2 st req = (st', Forwarded opts body) ->
  parsed req = Some (VObj fs) ->
  truthy (compactSystemPrompt cfg) = true ->
  lookup (lit "messages") fs = Some (VArr (m0 :: rest)) ->
  get m0 (lit "role") = Ok (VStr (lit "system")) ->
  exists p2 content t,
    stringify p2 = Some body
    /\ get p2 (lit "messages") = Ok (VArr (minimal_message :: rest))
    /\ get m0 (lit "content") = Ok content
    /\ stringify content = Some t
    /\ compact_system cfg (VObj fs)
       = Ok (set (lit "messages") (VArr (minimal_message :: rest)) (VObj fs),
             tokens (Z.of_nat (length t) - 89))
    /\ (Z.of_nat (length t) < 89 -> tokens (Z.of_nat (length t) - 89) < 0).
Proof.
  intros H Hp Hon Hm Hrole. apply forwarded_stages in H.
  destruct H as (payload & uc & p1 & s1 & p2 & s2 & t & _ & Hp' & _ & _ & Hc & Hw
                 & Ht & -> & _).
  rewrite Hp in Hp'. injection Hp' as <-.
  assert (Hcs : exists content t0,
            get m0 (lit "content") = Ok content /\ stringify content = Some t0
            /\ compact_system cfg (VObj fs)
               = Ok (set (lit "messages") (VArr (minimal_message :: rest)) (VObj fs),
                     tokens (Z.of_nat (length t0) - 89))).
  { rewrite (compact_system_system _ _ _ _ Hon Hm Hrole) in Hc |- *.
    destruct (get m0 (lit "content")) as [content|]; [|done]. cbn [bind] in *.
    unfold json_length in *.
    destruct (stringify content) as [t0|] eqn:Hst; [|done]. cbn [bind] in *.
    exists content, t0. done. }
  destruct Hcs as (content & t0 & Hcont & Hst & Hcs).
  rewrite Hcs in Hc. injection Hc as <- <-.
  exists p2, content, t0. split; [done|]. split.
  { rewrite (whitelist_tools_rest _ _ _ _ _ _ Hw messages_not_tools).
    apply get_set_same. }
  split; [done|]. split; [done|]. split; [done|].
  intros Hlt. apply tokens_negative. lia.
Qed.

Lemma system_prompt_is_replaced_witness :
  exists st' opts body p2,
    handle lower_ascii default_config (Some "sk-or-test") 1000 1001 Sample2.st0
           (Sample2.post Sample2.chat)
    = (st', Forwarded opts body)
    /\ stringify p2 = Some body
    /\ get p2 (lit "messages")
       = Ok (VArr [minimal_message;
                   Sample2.O [("role", Sample2.S "user");
                              ("content", Sample2.S "Hello")]])
    /\ savedTokens st' = 75.
Proof.
  destruct (handle lower_ascii default_config (Some "sk-or-test") 1000 1001 Sample2.st0
              (Sample2.post Sample2.chat)) as [st' [c t|b|opts body]] eqn:Hh;
    [by vm_compute in Hh | by vm_compute in Hh |].
  destruct (system_prompt_is_replaced _ _ _ _ _ _ _ _ _ _ _
              (Sample2.O [("role", Sample2.S "system"); ("content", Sample2.S "Hi")])
              [Sample2.O [("role", Sample2.S "user"); ("content", Sample2.S "Hello")]]
              Hh eq_refl eq_refl eq_refl eq_refl)
    as (p2 & content & t & Hs & Hm & _).
  exists st', opts, body, p2. split; [reflexivity|]. split; [exact Hs|].
  split; [exact Hm|].
  vm_compute in Hh. injection Hh as <- _ _. reflexivity.
Defined.

(** *** The message that decides *)

Lemma find_user_first l1 m l2 :
  Forall not_user l1 -> get m (lit "role") = Ok (VStr (lit "user")) ->
  find_user (l1 ++ m :: l2) = Ok m.
Proof.
  intros Hl1 Hm. induction Hl1 as [|x l1 (role & Hr & Hno) _ IH]; cbn [app find_user].
  - rewrite Hm. cbn [bind]. done.
  - rewrite Hr. cbn [bind]. by rewrite Hno.
Qed.

(** X25: the two filters look at one message only, the first one whose
    role is [user]: when its text is blocked, the request is answered with
    the mock completion whatever the conversation holds after it, [blocked]
    goes up by one and the tokens of the whole body count as saved. *)
Theorem first_user_message_decides (lower : str -> str) (cfg : Config)
  (env : option string) (t1 t2 : Z) (st : Stats) (req : Request)
  (fs : list (str * Val)) (l1 l2 : list Val) (m : Val) (s : str)
  (content : string) :
  method req = "POST" ->
  parsed req = Some (VObj fs) ->
  lookup (lit "messages") fs = Some (VArr (l1 ++ m :: l2)) ->
  Forall not_user l1 ->
  get m (lit "role") = Ok (VStr (lit "user")) ->
  get m (lit "content") = Ok (VStr s) ->
  blocks cfg s = Some content ->
  user_content (VObj fs) = Ok s
  /\ handle lower cfg env t1 t2 st req
     = ({| blocked := blocked st + 1;
           allowed := allowed st;
           savedTokens := savedTokens st + tokens (Z.of_nat (length (body_of req))) |},
        sendMock t1 t2 (default VUndef (lookup (lit "model") fs)) content).
Proof.
  intros Hmeth Hp Hmsgs Hl1 Hrole Hcont Hb.
  assert (Huc : user_content (VObj fs) = Ok s).
  { unfold user_content. cbn [get]. rewrite Hmsgs. cbn [default from_option Datatypes.id bind].
    rewrite (find_user_first _ _ _ Hl1 Hrole). cbn [bind].
    destruct (get_defined _ _ _ Hrole) as (mfs & -> & _); [by vm_compute|done|].
    cbn [truthy]. rewrite Hcont. done. }
  split; [done|].
  unfold handle, try_end. rewrite Hmeth, Hp, Huc. cbn [negb String.eqb bind].
  change (("POST" =? "POST")%string) with true. cbn [negb].
  rewrite Hb. done.
Qed.

Lemma first_user_message_decides_witness :
  let m := Sample2.O [("role", Sample2.S "user"); ("content", Sample2.S " Warmup ")] in
  let later := Sample2.O [("role", Sample2.S "user");
                          ("content", Sample2.S "Now fix the bug")] in
  let sys := Sample2.O [("role", Sample2.S "system"); ("content", Sample2.S "Hi")] in
  let payload := Sample2.O [("model", Sample2.S "m");
                            ("messages", VArr [sys; m; later])] in
  blocks default_config (lit " Warmup ") = Some "Ready"
  /\ handle lower_ascii default_config None 1000 1001 Sample2.st0 (Sample2.post payload)
     = ({| blocked := 1; allowed := 0; savedTokens := 25 |},
        sendMock 1000 1001 (Sample2.S "m") "Ready").
Proof.
  intros m later sys payload.
  assert (Hb : blocks default_config (lit " Warmup ") = Some "Ready") by reflexivity.
  split; [exact Hb|].
  refine (proj2 (first_user_message_decides lower_ascii default_config None 1000 1001
                   Sample2.st0 (Sample2.post payload) _ [sys] [later] m (lit " Warmup ")
                   "Ready" eq_refl eq_refl eq_refl _ eq_refl eq_refl Hb)).
  repeat constructor. eexists. split; reflexivity.
Defined.

(** *** A tool without a name *)

Lemma filter_tools_throws lower cfg tool tools :
  tool ∈ tools -> keeps lower cfg tool = Throw -> filter_tools lower cfg tools = Throw.
Proof.
  intros Hin Hk. induction tools as [|t tools IH]; [by apply elem_of_nil in Hin|].
  apply elem_of_cons in Hin. cbn [filter_tools]. destruct Hin as [<-|Hin].
  - by rewrite Hk.
  - destruct (keeps lower cfg t); [|done]. cbn [bind]. by rewrite IH.
Qed.

Lemma existsb_undefined (names : list str) :
  existsb (same_value_zero VUndef) (map VStr names) = false.
Proof. induction names as [|n names IH]; [done|]. cbn. exact IH. Qed.

Lemma messages_tools : lit "tools" <> lit "messages".
Proof. by vm_compute. Qed.

(** X26: a tool that has neither [function.name] nor [name] is dropped
    without notice while [mcpServers] is empty; once a server is
    configured, [toolName.toLowerCase()] throws for it, and every request
    that carries such a tool and is not blocked is answered 400, its
    counters untouched. *)
Theorem unnamed_tool_fails_request (lower : str -> str) (cfg : Config)
  (env : option string) (t1 t2 : Z) (st : Stats) (req : Request) (payload : Val)
  (tools : list Val) (tool : Val) (names : list str) (server : str)
  (servers : list str) :
  method req = "POST" ->
  parsed req = Some payload ->
  (forall uc, user_content payload = Ok uc -> blocks cfg uc = None) ->
  get payload (lit "tools") = Ok (VArr tools) ->
  tool ∈ tools ->
  tool_name tool = Ok VUndef ->
  allowedTools cfg = strs names ->
  mcpServers cfg = strs (server :: servers) ->
  handle lower cfg env t1 t2 st req = (st, Answered 400 "Bad Request")
  /\ keeps lower cfg tool = Throw
  /\ keeps lower {| allowedTools := allowedTools cfg; mcpServers := VArr [];
                    compactSystemPrompt := compactSystemPrompt cfg;
                    blockTitleGeneration := blockTitleGeneration cfg;
                    blockWarmup := blockWarmup cfg |} tool
     = Ok false.
Proof.
  intros Hmeth Hp Hnb Htools Hin Hname Ha Hm.
  assert (Hthrow : keeps lower cfg tool = Throw).
  { unfold keeps. rewrite Hname, Ha, Hm. cbn [bind]. unfold strs at 1.
    cbn [includes_call bind]. rewrite existsb_undefined.
    unfold strs. rewrite get_length_arr. cbn [bind]. by rewrite gt_length. }
  split; [|split; [done|]].
  - unfold handle, try_end. rewrite Hmeth, Hp.
    change (("POST" =? "POST")%string) with true. cbn [negb].
    destruct (user_content payload) as [uc|] eqn:Hu; [|done]. cbn [bind].
    rewrite (Hnb uc eq_refl).
    destruct (compact_system cfg payload) as [[p1 s1]|] eqn:Hc; [|done]. cbn [bind].
    assert (Hw : whitelist_tools lower cfg p1 = Throw).
    { unfold whitelist_tools.
      rewrite (compact_system_rest _ _ _ _ _ Hc messages_tools), Htools. cbn [bind truthy].
      rewrite get_length_arr. cbn [bind]. rewrite gt_length.
      destruct tools as [|t0 tools0]; [by apply elem_of_nil in Hin|].
      unfold json_length. cbn [stringify bind].
      by rewrite (filter_tools_throws _ _ _ _ Hin Hthrow). }
    by rewrite Hw.
  - unfold keeps. rewrite Hname. cbn [bind allowedTools mcpServers]. rewrite Ha.
    unfold strs. cbn [includes_call bind]. rewrite existsb_undefined.
    rewrite get_length_arr. cbn [bind]. by rewrite gt_length.
Qed.

Lemma unnamed_tool_fails_request_witness :
  let tool := Sample2.O [("type", Sample2.S "function")] in
  let payload := Sample2.O [("model", Sample2.S "m");
                            ("tools", VArr [Sample2.O [("name", Sample2.S "Read")]; tool])] in
  tool_name tool = Ok VUndef
  /\ handle lower_ascii Sample2.cfg2 None 1000 1001 Sample2.st0 (Sample2.post payload)
     = (Sample2.st0, Answered 400 "Bad Request")
  /\ (exists st' opts,
        handle lower_ascii default_config None 1000 1001 Sample2.st0 (Sample2.post payload)
        = (st', Forwarded opts
                  (lit "{" ++ quote (lit "model") ++ lit ":" ++ quote (lit "m") ++ lit ","
                   ++ quote (lit "tools") ++ lit ":[{" ++ quote (lit "name") ++ lit ":"
                   ++ quote (lit "Read") ++ lit "}]}"))).
Proof.
  intros tool payload.
  assert (Hn : tool_name tool = Ok VUndef) by reflexivity.
  split; [exact Hn|]. split.
  - refine (proj1 (unnamed_tool_fails_request lower_ascii Sample2.cfg2 None 1000 1001
                     Sample2.st0 (Sample2.post payload) payload _ tool
                     (map lit ["Read"; "Edit"; "Bash"; "Glob"; "Grep"])
                     (lit "filesystem") [lit "github"]
                     eq_refl eq_refl _ eq_refl _ Hn eq_refl eq_refl)).
    + intros uc Hu. vm_compute in Hu. injection Hu as <-. reflexivity.
    + apply elem_of_cons. right. apply elem_of_cons. by left.
  - eexists _, _. reflexivity.
Defined.

(** *** The settings *)

Lemma override_twice k old parsed :
  override k (override k old parsed) parsed = override k old parsed.
Proof.
  unfold override. destruct parsed; try done.
  by destruct (lookup (lit k) fields).
Qed.

(** X27: loading the settings merges the file over the settings in force,
    never over the defaults: a setting that the file does not name keeps the
    value it had, loading the same file again changes nothing, and a file
    that cannot be read or parsed changes nothing.  When the file does not
    exist, the settings stay and the example file is written; as the
    example differs from the defaults, the next load, of a file nobody has
    edited, gives five allowed tools and two MCP servers. *)
Theorem loading_merges_over_current_settings :
  (forall w cfg parsed,
      loadConfig w cfg (Present (Some parsed)) = (merge cfg parsed, Present (Some parsed))
      /\ merge (merge cfg parsed) parsed = merge cfg parsed)
  /\ (forall cfg fs,
        (lookup (lit "allowedTools") fs = None ->
         allowedTools (merge cfg (VObj fs)) = allowedTools cfg)
        /\ (lookup (lit "mcpServers") fs = None ->
            mcpServers (merge cfg (VObj fs)) = mcpServers cfg)
        /\ (lookup (lit "compactSystemPrompt") fs = None ->
            compactSystemPrompt (merge cfg (VObj fs)) = compactSystemPrompt cfg)
        /\ (lookup (lit "blockTitleGeneration") fs = None ->
            blockTitleGeneration (merge cfg (VObj fs)) = blockTitleGeneration cfg)
        /\ (lookup (lit "blockWarmup") fs = None ->
            blockWarmup (merge cfg (VObj fs)) = blockWarmup cfg))
  /\ (forall w cfg, loadConfig w cfg (Present None) = (cfg, Present None))
  /\ (forall cfg, loadConfig true cfg Absent = (cfg, Present (Some example_config)))
  /\ (forall cfg, loadConfig false cfg Absent = (cfg, Absent))
  /\ (forall w cfg,
        let first := loadConfig true cfg Absent in
        let second := loadConfig w (fst first) (snd first) in
        allowedTools (fst second)
        = strs (map lit ["Read"; "Edit"; "Bash"; "Glob"; "Grep"])
        /\ mcpServers (fst second) = strs (map lit ["filesystem"; "github"])
        /\ snd second = snd first)
  /\ allowedTools default_config = strs (map lit ["Read"; "Edit"; "Bash"])
  /\ mcpServers default_config = strs [].
Proof.
  split; [|split; [|split; [|split; [|split; [|split; [|split]]]]]]; try done.
  - intros w cfg parsed. split; [done|].
    unfold merge. cbn [allowedTools mcpServers compactSystemPrompt
      blockTitleGeneration blockWarmup].
    by rewrite !override_twice.
  - intros cfg fs. unfold merge, override.
    cbn [allowedTools mcpServers compactSystemPrompt blockTitleGeneration blockWarmup].
    repeat split; intros ->; done.
Qed.

(** *** Payloads of the wrong shape *)

Lemma find_user_null l1 l2 :
  Forall not_user l1 -> find_user (l1 ++ VNull :: l2) = Throw.
Proof.
  induction 1 as [|x l1 (role & Hr & Hno) _ IH]; cbn [app find_user]; [done|].
  rewrite Hr. cbn [bind]. by rewrite Hno.
Qed.

(** X28: a [POST] whose body is not JSON, or is [null], or whose
    [messages] is neither missing, [null] nor an array, or holds a [null]
    before the first message of the user, is answered 400 with the text
    [Bad Request]; the counters stay as they are and nothing is
    forwarded. *)
Theorem malformed_payload_is_refused (lower : str -> str) (cfg : Config)
  (env : option string) (t1 t2 : Z) (st : Stats) (req : Request) :
  method req = "POST" ->
  parsed req = None
  \/ parsed req = Some VNull
  \/ (exists payload v,
        parsed req = Some payload /\ get payload (lit "messages") = Ok v
        /\ nullish v = false /\ (forall l, v <> VArr l))
  \/ (exists payload l1 l2,
        parsed req = Some payload
        /\ get payload (lit "messages") = Ok (VArr (l1 ++ VNull :: l2))
        /\ Forall not_user l1) ->
  handle lower cfg env t1 t2 st req = (st, Answered 400 "Bad Request").
Proof.
  intros Hmeth Hcase. unfold handle, try_end. rewrite Hmeth.
  change (("POST" =? "POST")%string) with true. cbn [negb].
  destruct Hcase as [->|[->|[(payload & v & -> & Hv & Hn & Harr)
                            |(payload & l1 & l2 & -> & Hv & Hl1)]]]; [done|done| |].
  - unfold user_content. rewrite Hv. cbn [bind].
    destruct v; try done. by destruct (Harr l).
  - unfold user_content. rewrite Hv. cbn [bind].
    by rewrite (find_user_null _ _ Hl1).
Qed.

Lemma malformed_payload_is_refused_witness :
  let req := Sample2.post (Sample2.O [("messages", Sample2.S "Hello")]) in
  method req = "POST"
  /\ handle lower_ascii default_config None 1000 1001 Sample2.st0 req
     = (Sample2.st0, Answered 400 "Bad Request").
Proof.
  intros req. split; [reflexivity|].
  apply (malformed_payload_is_refused lower_ascii default_config None 1000 1001
           Sample2.st0 req eq_refl).
  right. right. left. exists (Sample2.O [("messages", Sample2.S "Hello")]), (Sample2.S "Hello").
  split; [reflexivity|]. split; [reflexivity|]. split; [reflexivity|].
  intros l. discriminate.
Defined.

(** *** What the upstream of the configurable proxy receives *)

(** X29: whatever the configurable proxy forwards goes to
    [POST openrouter.ai:443/api/v1/chat/completions] with four headers: a
    JSON content type whatever the caller sent, the bearer token of the
    environment (the text [undefined] when the variable is not set, which
    does not stop the proxy), the caller's [http-referer] or the default
    one, and the fixed title. *)
Theorem forwarded_request_target (lower : str -> str) (cfg : Config)
  (env : option string) (t1 t2 : Z) (st st' : Stats) (req : Request)
  (opts : Options) (body : str) :
  handle lower cfg env t1 t2 st req = (st', Forwarded opts body) ->
  hostname opts = "openrouter.ai" /\ port opts = 443
  /\ path opts = "/api/v1/chat/completions" /\ o_method opts = "POST"
  /\ o_headers opts
     = [("Content-Type", "application/json");
        ("Authorization",
          "Bearer " +:+ match env with Some key => key | None => "undefined" end);
        ("HTTP-Referer",
          match http_referer req with
          | Some (String c r) => String c r
          | _ => "https://github.com/saoudrizwan/claude-code-router"
          end);
        ("X-Title", "Ultimate Configurable Proxy")]
  /\ Wire.header_ok ("Bearer " +:+ match env with Some key => key | None => "undefined" end)
     = true.
Proof.
  intros H. apply forwarded_stages in H.
  destruct H as (payload & uc & p1 & s1 & p2 & s2 & t & _ & _ & _ & _ & _ & _
                 & _ & _ & -> & Hok & _).
  unfold options. cbn [hostname port path o_method o_headers].
  do 4 (split; [done|]).
  assert (Hkey : OPENROUTER_KEY env
                 = match env with Some key => key | None => "undefined" end)
    by (by destruct env).
  assert (Href : JS.or_else (default "" (http_referer req))
                            "https://github.com/saoudrizwan/claude-code-router"
                 = match http_referer req with
                   | Some (String c r) => String c r
                   | _ => "https://github.com/saoudrizwan/claude-code-router"
                   end)
    by (by destruct (http_referer req) as [[|c r]|]).
  rewrite Hkey in *. rewrite Href. done.
Qed.

Lemma forwarded_request_target_witness :
  exists st' opts body,
    handle lower_ascii default_config None 1000 1001 Sample2.st0
           (Sample2.post Sample2.chat)
    = (st', Forwarded opts body)
    /\ Http.header "Authorization" (o_headers opts) = Some "Bearer undefined".
Proof.
  destruct (handle lower_ascii default_config None 1000 1001 Sample2.st0
              (Sample2.post Sample2.chat)) as [st' [c t|b|opts body]] eqn:Hh;
    [by vm_compute in Hh | by vm_compute in Hh |].
  exists st', opts, body. split; [reflexivity|].
  destruct (forwarded_request_target _ _ _ _ _ _ _ _ _ _ Hh) as (_ & _ & _ & _ & Hhs & _).
  rewrite Hhs. reflexivity.
Defined.

(** *** The tools that reach the upstream *)

Lemma filter_tools_kept lower cfg tools : forall kept,
  filter_tools lower cfg tools = Ok kept ->
  sublist kept tools
  /\ Forall (fun tool => keeps lower cfg tool = Ok true) kept
  /\ (forall tool, tool ∈ tools -> keeps lower cfg tool = Ok true -> tool ∈ kept)
  /\ Forall (fun tool => exists b, keeps lower cfg tool = Ok b) tools.
Proof.
  induction tools as [|tool tools IH]; intros kept H; cbn [filter_tools] in H.
  { injection H as <-. split; [constructor|]. split; [constructor|].
    split; [|constructor]. intros tool Hin. by apply elem_of_nil in Hin. }
  destruct (keeps lower cfg tool) as [b|] eqn:Hk; [|done]. cbn [bind] in H.
  destruct (filter_tools lower cfg tools) as [rest|]; [|done]. cbn [bind] in H.
  injection H as <-.
  destruct (IH rest eq_refl) as (Hsub & Hall & Hin & Hok).
  assert (Hoks : Forall (fun tool0 => exists b0, keeps lower cfg tool0 = Ok b0)
                        (tool :: tools)) by (constructor; [by exists b|done]).
  destruct b.
  - split; [by constructor|]. split; [by constructor|]. split; [|done].
    intros t Ht Hkt. apply elem_of_cons in Ht. apply elem_of_cons.
    destruct Ht as [->|Ht]; [by left|right; by apply Hin].
  - split; [by constructor|]. split; [done|]. split; [|done].
    intros t Ht Hkt. apply elem_of_cons in Ht.
    destruct Ht as [->|Ht]; [congruence|by apply Hin].
Qed.

Lemma shorten_all_each kept : forall final,
  shorten_all kept = Ok final -> Forall2 (fun tool tool' => shorten tool = Ok tool') kept final.
Proof.
  induction kept as [|tool kept IH]; intros final H; cbn [shorten_all] in H.
  { injection H as <-. constructor. }
  destruct (shorten tool) as [tool'|] eqn:Hs; [|done]. cbn [bind] in H.
  destruct (shorten_all kept) as [rest|]; [|done]. cbn [bind] in H.
  injection H as <-. constructor; [done|]. by apply IH.
Qed.

(** X30: no tool reaches the upstream unless the callback of the filter
    returned true for it: when the payload of a forwarded request has a
    non-empty array of tools, the tools of the forwarded payload are the
    tools for which the callback gave true, all of them and in their
    order, each after the callback that shortens descriptions. *)
Theorem forwarded_tools_passed_filter (lower : str -> str) (cfg : Config)
  (env : option string) (t1 t2 : Z) (st st' : Stats) (req : Request)
  (opts : Options) (body : str) (payload : Val) (tool0 : Val) (tools : list Val) :
  handle lower cfg env t1 t2 st req = (st', Forwarded opts body) ->
  parsed req = Some payload ->
  get payload (lit "tools") = Ok (VArr (tool0 :: tools)) ->
  exists p2 kept final,
    stringify p2 = Some body
    /\ get p2 (lit "tools") = Ok (VArr final)
    /\ sublist kept (tool0 :: tools)
    /\ Forall (fun tool => keeps lower cfg tool = Ok true) kept
    /\ (forall tool, tool ∈ tool0 :: tools -> keeps lower cfg tool = Ok true ->
        tool ∈ kept)
    /\ Forall2 (fun tool tool' => shorten tool = Ok tool') kept final.
Proof.
  intros H Hp Htools. apply forwarded_stages in H.
  destruct H as (payload' & uc & p1 & s1 & p2 & s2 & t & _ & Hp' & _ & _ & Hc & Hw
                 & Ht & -> & _).
  rewrite Hp in Hp'. injection Hp' as <-.
  assert (Htools1 : get p1 (lit "tools") = Ok (VArr (tool0 :: tools)))
    by (by rewrite (compact_system_rest _ _ _ _ _ Hc messages_tools)).
  destruct (get_defined _ _ _ Htools1) as (fs1 & -> & _); [by vm_compute|done|].
  unfold whitelist_tools in Hw. rewrite Htools1 in Hw. cbn [bind truthy] in Hw.
  rewrite get_length_arr in Hw. cbn [bind] in Hw. rewrite gt_length in Hw.
  unfold json_length in Hw. cbn [stringify bind] in Hw.
  destruct (filter_tools lower cfg (tool0 :: tools)) as [kept|] eqn:Hf; [|done].
  cbn [bind] in Hw.
  destruct (filter_tools_kept _ _ _ _ Hf) as (Hsub & Hall & Hin & _).
  destruct (match kept with [] => Ok [] | _ => shorten_all kept end) as [final|] eqn:Hs;
    [|done].
  cbn [bind] in Hw. injection Hw as <- _.
  exists (set (lit "tools") (VArr final) (VObj fs1)), kept, final.
  split; [done|]. split; [apply get_set_same|]. split; [done|]. split; [done|].
  split; [done|].
  destruct kept as [|k kept]; [injection Hs as <-; constructor|].
  by apply shorten_all_each.
Qed.

Lemma forwarded_tools_passed_filter_witness :
  exists st' opts body p2 final,
    handle lower_ascii default_config (Some "sk-or-test") 1000 1001 Sample2.st0
           (Sample2.post Sample2.chat)
    = (st', Forwarded opts body)
    /\ stringify p2 = Some body
    /\ get p2 (lit "tools") = Ok (VArr final)
    /\ filter_tools lower_ascii default_config
         [Sample2.O [("name", Sample2.S "Read"); ("description", VStr Sample2.long)];
          Sample2.O [("type", Sample2.S "function");
                     ("function", Sample2.O [("name", Sample2.S "mcp__GitHub__x");
                                             ("description", VStr Sample2.long)])];
          Sample2.O [("name", Sample2.S "Write")]]
       = Ok [Sample2.O [("name", Sample2.S "Read"); ("description", VStr Sample2.long)]].
Proof.
  destruct (handle lower_ascii default_config (Some "sk-or-test") 1000 1001 Sample2.st0
              (Sample2.post Sample2.chat)) as [st' [c t|b|opts body]] eqn:Hh;
    [by vm_compute in Hh | by vm_compute in Hh |].
  destruct (forwarded_tools_passed_filter _ _ _ _ _ _ _ _ _ _ Sample2.chat _ _
              Hh eq_refl eq_refl)
    as (p2 & kept & final & Hs & Hg & _).
  exists st', opts, body, p2, final. split; [reflexivity|]. split; [exact Hs|].
  split; [exact Hg|]. reflexivity.
Defined.
